(** * WA-bot: scheduling and correlation engine

    A shallow embedding of the owner-command parser ([app/commands.py]),
    the scheduling engine ([app/scheduler.py]), the correlation tracker
    ([app/logic.py]), the job executor ([app/workers.py]) and the owner
    message handler ([app/main.py]), with the properties of the
    specification stated over them.

    Conventions.
    - A Python [str] is a [string]; a character is a code point below 256
      (Latin-1), and the character classes of [re] and [str] are given
      there.
    - A [datetime] is an instant, in microseconds since the Unix epoch
      (UTC); a [timedelta] is a number of microseconds.  An operation reads
      the clock once: it takes the instant as [now].
    - A table is the list of its rows in insertion order; a query is a
      [filter] on it.
    - Code that raises returns [Raise e].  A handler is a function on the
      [World]: the database, the calls made on the WhatsApp client and the
      calls made on Celery.
    - Logging, the webhook routes and [process_group_message] are not
      embedded. *)

From Stdlib Require Import ZArith List String Ascii Bool Lia Arith.
From Stdlib Require Import DecimalString Permutation Sorted.
Import ListNotations.
Open Scope string_scope.
Open Scope Z_scope.

(** ** Exceptions and results *)

Inductive exn : Type :=
| CommandParseError (msg : string)
| ValueError (msg : string)
| RuntimeError (msg : string)
| IntegrityError
| MultipleResultsFound
| HTTPStatusError
| OtherError
| Retry (countdown : Z).

Inductive Res (A : Type) : Type :=
| Ok (a : A)
| Raise (e : exn).
Arguments Ok {A} a.
Arguments Raise {A} e.

(** ** Python strings *)

Module PyStr.

Definition code (c : ascii) : Z := Z.of_N (N_of_ascii c).

Definition in_range (lo hi : Z) (c : ascii) : bool :=
  (lo <=? code c) && (code c <=? hi).

(** [str.isspace] on one character; also the class [\s] of [re]. *)
Definition isspace (c : ascii) : bool :=
  in_range 9 13 c || in_range 28 32 c || (code c =? 133) || (code c =? 160).

(** The class [\d] of [re]. *)
Definition isdigit (c : ascii) : bool := in_range 48 57 c.

(** The class [\w] of [re]: alphanumeric characters and the underscore. *)
Definition isword (c : ascii) : bool :=
  in_range 48 57 c || in_range 65 90 c || (code c =? 95) || in_range 97 122 c
  || (code c =? 170) || in_range 178 179 c || (code c =? 181)
  || in_range 185 186 c || in_range 188 190 c
  || in_range 192 214 c || in_range 216 246 c || in_range 248 255 c.

Definition lower_char (c : ascii) : ascii :=
  if in_range 65 90 c || in_range 192 214 c || in_range 216 222 c
  then ascii_of_N (Z.to_N (code c + 32))
  else c.

(** [str.lower] *)
Fixpoint lower (s : string) : string :=
  match s with
  | EmptyString => EmptyString
  | String c s' => String (lower_char c) (lower s')
  end.

Fixpoint lstrip (s : string) : string :=
  match s with
  | EmptyString => EmptyString
  | String c s' => if isspace c then lstrip s' else s
  end.

Fixpoint rstrip (s : string) : string :=
  match s with
  | EmptyString => EmptyString
  | String c s' =>
      match rstrip s' with
      | EmptyString => if isspace c then EmptyString else String c EmptyString
      | r => String c r
      end
  end.

(** [str.strip] *)
Definition strip (s : string) : string := rstrip (lstrip s).

Definition is_empty (s : string) : bool :=
  match s with EmptyString => true | _ => false end.

(** Truthiness of an optional string: [None] and the empty string are
    false. *)
Definition truthy (o : option string) : bool :=
  match o with
  | None => false
  | Some s => negb (is_empty s)
  end.

(** [str.endswith] *)
Definition endswith (s suffix : string) : bool :=
  let n := String.length s in
  let k := String.length suffix in
  (k <=? n)%nat && String.eqb (substring (n - k) k s) suffix.

(** [str(n)] for an integer. *)
Definition of_int (n : Z) : string := NilZero.string_of_int (Z.to_int n).

Fixpoint int_of_digits (acc : Z) (s : string) : Z :=
  match s with
  | EmptyString => acc
  | String c s' => int_of_digits (10 * acc + (code c - 48)) s'
  end.

(** [int(s)] on a string of decimal digits. *)
Definition to_int (s : string) : Z := int_of_digits 0 s.

(** ["\n".join(lines)] *)
Fixpoint join_lines (l : list string) : string :=
  match l with
  | [] => EmptyString
  | [x] => x
  | x :: rest => x ++ String "010" (join_lines rest)
  end.

End PyStr.

(** ** Regular expressions of [app/commands.py]

    The patterns of the module use literals, the classes [\s], [\w], [\d],
    [.] and bracketed sets of them, the quantifier [+] (greedy or lazy) on
    one class, named groups, one optional non-capturing group and the
    anchor [$].  All are compiled with [re.IGNORECASE].  The matcher is
    Python's: backtracking, leftmost alternative first. *)

Module Regex.

Inductive cls : Type :=
| CLit (c : ascii)          (* a literal character *)
| CSpace                    (* \s *)
| CWord                     (* \w *)
| CDigit                    (* \d *)
| CAny                      (* .  *)
| COr (k1 k2 : cls)         (* [...] with the members of both *).

Fixpoint cls_match (k : cls) (a : ascii) : bool :=
  match k with
  | CLit c => Ascii.eqb (PyStr.lower_char a) (PyStr.lower_char c)
  | CSpace => PyStr.isspace a
  | CWord => PyStr.isword a
  | CDigit => PyStr.isdigit a
  | CAny => negb (Ascii.eqb a "010")
  | COr k1 k2 => cls_match k1 a || cls_match k2 a
  end.

Inductive rx : Type :=
| Eps
| Chr (k : cls)
| Plus (greedy : bool) (k : cls)
| Cat (r1 r2 : rx)
| Group (name : string) (r : rx)
| Opt (r : rx)
| EndAnchor.

Definition captures : Type := list (string * string).

Section Repeat.
Context {A : Type} (p : ascii -> bool).

(** [k+]: the longest run first, then shorter ones. *)
Fixpoint plus_greedy (s : string) (k : string -> option A) : option A :=
  match s with
  | EmptyString => None
  | String c s' =>
      if p c then
        match plus_greedy s' k with
        | Some r => Some r
        | None => k s'
        end
      else None
  end.

(** [k+?]: the shortest run first, then longer ones. *)
Fixpoint plus_lazy (s : string) (k : string -> option A) : option A :=
  match s with
  | EmptyString => None
  | String c s' =>
      if p c then
        match k s' with
        | Some r => Some r
        | None => plus_lazy s' k
        end
      else None
  end.
End Repeat.

(** The text between the start [s] of a group and the rest [s'] left when
    the group closed. *)
Definition consumed (s s' : string) : string :=
  substring 0 (String.length s - String.length s') s.

Fixpoint run (r : rx) (s : string) (caps : captures)
    (k : string -> captures -> option captures) : option captures :=
  match r with
  | Eps => k s caps
  | Chr c =>
      match s with
      | String a s' => if cls_match c a then k s' caps else None
      | EmptyString => None
      end
  | Plus true c => plus_greedy (cls_match c) s (fun s' => k s' caps)
  | Plus false c => plus_lazy (cls_match c) s (fun s' => k s' caps)
  | Cat r1 r2 => run r1 s caps (fun s' caps' => run r2 s' caps' k)
  | Group name r1 =>
      run r1 s caps (fun s' caps' => k s' ((name, consumed s s') :: caps'))
  | Opt r1 =>
      match run r1 s caps k with
      | Some c => Some c
      | None => k s caps
      end
  | EndAnchor =>
      match s with
      | EmptyString => k s caps
      | String "010" EmptyString => k s caps
      | _ => None
      end
  end.

(** [pattern.match(s)] *)
Definition re_match (r : rx) (s : string) : option captures :=
  run r s [] (fun _ caps => Some caps).

(** [match.group(name)] *)
Fixpoint group (name : string) (caps : captures) : option string :=
  match caps with
  | [] => None
  | (n, v) :: rest => if String.eqb n name then Some v else group name rest
  end.

Fixpoint lit (s : string) : rx :=
  match s with
  | EmptyString => Eps
  | String c s' => Cat (Chr (CLit c)) (lit s')
  end.

Fixpoint seq (rs : list rx) : rx :=
  match rs with
  | [] => Eps
  | r :: rest => Cat r (seq rest)
  end.

Definition spaces : rx := Plus true CSpace.

End Regex.

(** ** [app/commands.py] *)

(** The six command classes of the module.  [app/main.py] imports and
    dispatches on a seventh, [ScheduleConfigCommand], that the module does
    not declare; it is the last constructor.

    Modelled from the spec: [ScheduleConfigCommand], with the two fields
    [group_alias] and [when] that [handle_owner_command] reads. *)
Inductive OwnerCommand : Type :=
| ScheduleCommand (text group_alias when : string)
| ListCommand
| CancelCommand (job_id : Z)
| RegisterGroupCommand (alias group_id : string) (group_name : option string)
| UnregisterGroupCommand (alias : string)
| GroupsCommand
| ScheduleConfigCommand (group_alias when : string).

Import Regex.

(* [\w\-] *)
Definition alias_cls : cls := COr CWord (CLit "-").

(* [\w.@-] *)
Definition group_id_cls : cls :=
  COr CWord (COr (CLit ".") (COr (CLit "@") (CLit "-"))).

(* ^schedule\s+"(?P<text>.+?)"\s+to\s+(?P<alias>[\w\-]+)\s+at\s+(?P<when>.+)$ *)
Definition SCHEDULE_RE : rx :=
  seq [ lit "schedule"; spaces; Chr (CLit "034");
        Group "text" (Plus false CAny); Chr (CLit "034"); spaces;
        lit "to"; spaces; Group "alias" (Plus true alias_cls); spaces;
        lit "at"; spaces; Group "when" (Plus true CAny); EndAnchor ].

(* ^register\s+group\s+(?P<alias>[\w\-]+)\s+(?P<group_id>[\w.@-]+)(?:\s+(?P<group_name>.+))?$ *)
Definition REGISTER_RE : rx :=
  seq [ lit "register"; spaces; lit "group"; spaces;
        Group "alias" (Plus true alias_cls); spaces;
        Group "group_id" (Plus true group_id_cls);
        Opt (Cat spaces (Group "group_name" (Plus true CAny)));
        EndAnchor ].

(* ^unregister\s+group\s+(?P<alias>[\w\-]+)$ *)
Definition UNREGISTER_RE : rx :=
  seq [ lit "unregister"; spaces; lit "group"; spaces;
        Group "alias" (Plus true alias_cls); EndAnchor ].

(* ^cancel\s+(?P<job_id>\d+)$ *)
Definition CANCEL_RE : rx :=
  seq [ lit "cancel"; spaces; Group "job_id" (Plus true CDigit); EndAnchor ].

(* ^list$ *)
Definition LIST_RE : rx := seq [ lit "list"; EndAnchor ].

(* ^groups$ *)
Definition GROUPS_RE : rx := seq [ lit "groups"; EndAnchor ].

Definition group_or_empty (name : string) (m : captures) : string :=
  match group name m with Some v => v | None => EmptyString end.

Definition parse_owner_command (message : string) : Res OwnerCommand :=
  let normalized := PyStr.strip message in
  match re_match SCHEDULE_RE normalized with
  | Some m =>
      Ok (ScheduleCommand (group_or_empty "text" m) (group_or_empty "alias" m)
            (group_or_empty "when" m))
  | None =>
  match re_match REGISTER_RE normalized with
  | Some m =>
      let group_name :=
        match group "group_name" m with
        | Some g => if PyStr.is_empty g then Some g else Some (PyStr.strip g)
        | None => None
        end in
      Ok (RegisterGroupCommand (group_or_empty "alias" m)
            (group_or_empty "group_id" m)
            (if PyStr.truthy group_name then group_name else None))
  | None =>
  match re_match UNREGISTER_RE normalized with
  | Some m => Ok (UnregisterGroupCommand (group_or_empty "alias" m))
  | None =>
  match re_match CANCEL_RE normalized with
  | Some m => Ok (CancelCommand (PyStr.to_int (group_or_empty "job_id" m)))
  | None =>
  match re_match LIST_RE normalized with
  | Some _ => Ok ListCommand
  | None =>
  match re_match GROUPS_RE normalized with
  | Some _ => Ok GroupsCommand
  | None => Raise (CommandParseError "Unable to understand the command.")
  end end end end end end.


(** ** Time ([datetime], [timedelta], [utils/time.py]) *)

Module PyTime.

Definition datetime : Type := Z.
Definition timedelta : Type := Z.

Definition microseconds (n : Z) : timedelta := n.
Definition seconds (n : Z) : timedelta := n * 1000000.
Definition minutes (n : Z) : timedelta := seconds (60 * n).
Definition hours (n : Z) : timedelta := minutes (60 * n).

(** [to_utc]: an aware datetime keeps its instant. *)
Definition to_utc (dt : datetime) : datetime := dt.

Definition digit (n : Z) : ascii := ascii_of_N (Z.to_N (48 + n mod 10)).

Fixpoint digits (width : nat) (n : Z) (acc : string) : string :=
  match width with
  | O => acc
  | S w => digits w (n / 10) (String (digit n) acc)
  end.

(** [n] in decimal on [width] digits, zero-padded. *)
Definition zero_padded (width : nat) (n : Z) : string :=
  digits width n EmptyString.

(** The proleptic Gregorian date of a day number counted from 1970-01-01. *)
Definition civil_from_days (days : Z) : Z * Z * Z :=
  let z := days + 719468 in
  let era := z / 146097 in
  let doe := z mod 146097 in
  let yoe := (doe - doe / 1460 + doe / 36524 - doe / 146096) / 365 in
  let doy := doe - (365 * yoe + yoe / 4 - yoe / 100) in
  let mp := (5 * doy + 2) / 153 in
  let d := doy - (153 * mp + 2) / 5 + 1 in
  let m := if mp <? 10 then mp + 3 else mp - 9 in
  let y := yoe + era * 400 + (if m <=? 2 then 1 else 0) in
  (y, m, d).

(** [datetime.isoformat()] of a UTC-aware datetime. *)
Definition isoformat (dt : datetime) : string :=
  let us := dt mod 1000000 in
  let secs := dt / 1000000 in
  let sod := secs mod 86400 in
  let '(y, m, d) := civil_from_days (secs / 86400) in
  zero_padded 4 y ++ "-" ++ zero_padded 2 m ++ "-" ++ zero_padded 2 d
  ++ "T" ++ zero_padded 2 (sod / 3600) ++ ":"
  ++ zero_padded 2 (sod mod 3600 / 60) ++ ":" ++ zero_padded 2 (sod mod 60)
  ++ (if us =? 0 then EmptyString else "." ++ zero_padded 6 us)
  ++ "+00:00".

End PyTime.

(** ** [hashlib.sha256] and [str.encode("utf-8")] *)

Module Sha256.

Definition w32 (x : Z) : Z := Z.land x 0xffffffff.
Definition rotr (n x : Z) : Z :=
  Z.lor (Z.shiftr x n) (w32 (Z.shiftl x (32 - n))).
Definition xor3 (a b c : Z) : Z := Z.lxor (Z.lxor a b) c.

Definition Ch (x y z : Z) : Z :=
  Z.lxor (Z.land x y) (Z.land (Z.lxor x 0xffffffff) z).
Definition Maj (x y z : Z) : Z :=
  xor3 (Z.land x y) (Z.land x z) (Z.land y z).
Definition bsig0 (x : Z) : Z := xor3 (rotr 2 x) (rotr 13 x) (rotr 22 x).
Definition bsig1 (x : Z) : Z := xor3 (rotr 6 x) (rotr 11 x) (rotr 25 x).
Definition ssig0 (x : Z) : Z := xor3 (rotr 7 x) (rotr 18 x) (Z.shiftr x 3).
Definition ssig1 (x : Z) : Z := xor3 (rotr 17 x) (rotr 19 x) (Z.shiftr x 10).

(** The round constants: the first 32 bits of the fractional parts of the
    cube roots of the first 64 primes. *)
Definition K : list Z :=
  [ 1116352408; 1899447441; 3049323471; 3921009573; 961987163; 1508970993;
    2453635748; 2870763221; 3624381080; 310598401; 607225278; 1426881987;
    1925078388; 2162078206; 2614888103; 3248222580; 3835390401; 4022224774;
    264347078; 604807628; 770255983; 1249150122; 1555081692; 1996064986;
    2554220882; 2821834349; 2952996808; 3210313671; 3336571891; 3584528711;
    113926993; 338241895; 666307205; 773529912; 1294757372; 1396182291;
    1695183700; 1986661051; 2177026350; 2456956037; 2730485921; 2820302411;
    3259730800; 3345764771; 3516065817; 3600352804; 4094571909; 275423344;
    430227734; 506948616; 659060556; 883997877; 958139571; 1322822218;
    1537002063; 1747873779; 1955562222; 2024104815; 2227730452; 2361852424;
    2428436474; 2756734187; 3204031479; 3329325298 ].

(** The initial hash value: the same of the square roots of the first 8
    primes. *)
Definition H0 : list Z :=
  [ 1779033703; 3144134277; 1013904242; 2773480762;
    1359893119; 2600822924; 528734635; 1541459225 ].

(** UTF-8 of a string of code points below 256. *)
Fixpoint utf8 (s : string) : list Z :=
  match s with
  | EmptyString => []
  | String c s' =>
      let n := PyStr.code c in
      if n <? 128 then n :: utf8 s'
      else Z.lor 0xc0 (Z.shiftr n 6) :: Z.lor 0x80 (Z.land n 0x3f) :: utf8 s'
  end.

Fixpoint be_bytes (count : nat) (n : Z) (acc : list Z) : list Z :=
  match count with
  | O => acc
  | S c => be_bytes c (Z.shiftr n 8) (Z.land n 0xff :: acc)
  end.

Definition pad (msg : list Z) : list Z :=
  let len := Z.of_nat (List.length msg) in
  msg ++ [0x80] ++ repeat 0 (Z.to_nat ((55 - len) mod 64))
      ++ be_bytes 8 (8 * len) [].

Fixpoint words (bs : list Z) : list Z :=
  match bs with
  | b0 :: b1 :: b2 :: b3 :: rest =>
      Z.lor (Z.shiftl b0 24) (Z.lor (Z.shiftl b1 16) (Z.lor (Z.shiftl b2 8) b3))
      :: words rest
  | _ => []
  end.

Fixpoint blocks (fuel : nat) (ws : list Z) : list (list Z) :=
  match fuel, ws with
  | S f, _ :: _ => firstn 16 ws :: blocks f (skipn 16 ws)
  | _, _ => []
  end.

(** The message schedule, most recent word first. *)
Fixpoint extend (count : nat) (rw : list Z) : list Z :=
  match count with
  | O => rw
  | S c =>
      let w := w32 (ssig1 (nth 1 rw 0) + nth 6 rw 0
                    + ssig0 (nth 14 rw 0) + nth 15 rw 0) in
      extend c (w :: rw)
  end.

Definition round (st : list Z) (kw : Z * Z) : list Z :=
  match st with
  | [a; b; c; d; e; f; g; h] =>
      let t1 := h + bsig1 e + Ch e f g + fst kw + snd kw in
      let t2 := bsig0 a + Maj a b c in
      [w32 (t1 + t2); a; b; c; w32 (d + t1); e; f; g]
  | _ => st
  end.

Definition compress (st : list Z) (block : list Z) : list Z :=
  let w := rev (extend 48 (rev block)) in
  let st' := fold_left round (combine K w) st in
  map (fun p => w32 (fst p + snd p)) (combine st st').

Definition hex_digit (n : Z) : ascii :=
  if n <? 10 then ascii_of_N (Z.to_N (48 + n)) else ascii_of_N (Z.to_N (87 + n)).

Fixpoint hex (count : nat) (n : Z) (acc : string) : string :=
  match count with
  | O => acc
  | S c => hex c (Z.shiftr n 4) (String (hex_digit (Z.land n 0xf)) acc)
  end.

Definition digest (msg : list Z) : list Z :=
  let ws := words (pad msg) in
  fold_left compress (blocks (List.length ws) ws) H0.

(** [hashlib.sha256(s.encode("utf-8")).hexdigest()] *)
Definition hexdigest (s : string) : string :=
  fold_right (fun w acc => hex 8 w acc) EmptyString (digest (utf8 s)).

End Sha256.

(** ** [app/models.py] *)

Import PyTime.

Inductive JobStatus : Type := SCHEDULED | SENT | CANCELLED | FAILED.

Definition JobStatus_eqb (a b : JobStatus) : bool :=
  match a, b with
  | SCHEDULED, SCHEDULED | SENT, SENT | CANCELLED, CANCELLED | FAILED, FAILED => true
  | _, _ => false
  end.

Module Job.
Record t : Type := mk {
  id : Z;
  group_id : string;
  group_alias : string;
  text : string;
  run_at : datetime;
  created_by : string;
  created_at : datetime;
  celery_task_id : option string;
  status : JobStatus;
  last_error : option string;
  correlation_key : option string   (* unique *)
}.

Definition set_status (s : JobStatus) (j : t) : t :=
  mk (id j) (group_id j) (group_alias j) (text j) (run_at j) (created_by j)
     (created_at j) (celery_task_id j) s (last_error j) (correlation_key j).
Definition set_last_error (e : option string) (j : t) : t :=
  mk (id j) (group_id j) (group_alias j) (text j) (run_at j) (created_by j)
     (created_at j) (celery_task_id j) (status j) e (correlation_key j).
Definition set_celery_task_id (c : option string) (j : t) : t :=
  mk (id j) (group_id j) (group_alias j) (text j) (run_at j) (created_by j)
     (created_at j) c (status j) (last_error j) (correlation_key j).
Definition set_id (i : Z) (j : t) : t :=
  mk i (group_id j) (group_alias j) (text j) (run_at j) (created_by j)
     (created_at j) (celery_task_id j) (status j) (last_error j)
     (correlation_key j).
End Job.

Module Group.
Record t : Type := mk {
  id : Z;
  alias : string;                   (* unique *)
  group_id : string;
  group_name : option string;
  created_at : datetime
}.
End Group.

(** Modelled from the spec: the [PendingSchedule] table, which
    [app/scheduler.py] imports from [app/models.py] and the module does not
    declare: at most one row per owner id, with the group alias, the run
    time and the creation time. *)
Module PendingSchedule.
Record t : Type := mk {
  id : Z;
  owner_id : string;                (* unique *)
  group_alias : string;
  run_at : datetime;
  created_at : datetime
}.
End PendingSchedule.

Module MessageCorrelation.
Record t : Type := mk {
  id : Z;
  bot_message_id : string;          (* unique *)
  group_id : string;
  job_id : Z;
  original_message_id : option string;
  window_expires_at : datetime;
  created_at : datetime
}.
End MessageCorrelation.

(** ** The database, the outside world and the session *)

Record DB : Type := mkDB {
  jobs : list Job.t;
  groups : list Group.t;
  pending_schedules : list PendingSchedule.t;
  message_correlations : list MessageCorrelation.t
}.

Definition set_jobs (l : list Job.t) (d : DB) : DB :=
  mkDB l (groups d) (pending_schedules d) (message_correlations d).
Definition set_groups (l : list Group.t) (d : DB) : DB :=
  mkDB (jobs d) l (pending_schedules d) (message_correlations d).
Definition set_pending_schedules (l : list PendingSchedule.t) (d : DB) : DB :=
  mkDB (jobs d) (groups d) l (message_correlations d).
Definition set_message_correlations (l : list MessageCorrelation.t) (d : DB) : DB :=
  mkDB (jobs d) (groups d) (pending_schedules d) l.

(** A call of [WhatsAppClient.send_text_message]. *)
Record ClientCall : Type := SendText {
  call_to : string;
  call_text : string;
  call_recipient_type : string
}.

(** What Celery was asked to do. *)
Inductive CeleryCall : Type :=
| SendTask (name : string) (job_id : Z) (eta : datetime) (task_id : string)
| Revoke (task_id : string)
| RetryTask (job_id : Z) (countdown : Z).

Record World : Type := mkWorld {
  db : DB;
  outbox : list ClientCall;
  celery : list CeleryCall
}.

Definition M (A : Type) : Type := World -> Res A * World.

Definition ret {A} (a : A) : M A := fun w => (Ok a, w).
Definition raise {A} (e : exn) : M A := fun w => (Raise e, w).
Definition bind {A B} (m : M A) (f : A -> M B) : M B :=
  fun w =>
    match m w with
    | (Ok a, w') => f a w'
    | (Raise e, w') => (Raise e, w')
    end.

Declare Scope session_scope.
Delimit Scope session_scope with session.
Notation "x <- m ;; k" := (bind m (fun x => k))
  (at level 61, m at next level, right associativity) : session_scope.
Notation "m ;; k" := (bind m (fun _ => k))
  (at level 61, right associativity) : session_scope.
Open Scope session_scope.

Definition get_db : M DB := fun w => (Ok (db w), w).
Definition modify_db (f : DB -> DB) : M unit :=
  fun w => (Ok tt, mkWorld (f (db w)) (outbox w) (celery w)).
Definition client_call (c : ClientCall) : M unit :=
  fun w => (Ok tt, mkWorld (db w) (outbox w ++ [c]) (celery w)).
Definition celery_call (c : CeleryCall) : M unit :=
  fun w => (Ok tt, mkWorld (db w) (outbox w) (celery w ++ [c])).
Definition celery_calls : M (list CeleryCall) := fun w => (Ok (celery w), w).

(** [session_scope] of [app/db.py]: commit when the body returns, roll the
    database back and re-raise when it raises.  What was handed to the
    client or to Celery stays handed. *)
Definition session_scope {A} (body : M A) : M A :=
  fun w =>
    match body w with
    | (Ok a, w') => (Ok a, w')
    | (Raise e, w') => (Raise e, mkWorld (db w) (outbox w') (celery w'))
    end.

(** [Result.scalar_one_or_none] *)
Definition scalar_one_or_none {A} (rows : list A) : M (option A) :=
  match rows with
  | [] => ret None
  | [r] => ret (Some r)
  | _ => raise MultipleResultsFound
  end.

(** The next primary key of a table: one more than the largest one. *)
Definition next_id (ids : list Z) : Z := 1 + fold_right Z.max 0 ids.

Definition option_eqb (o : option string) (s : string) : bool :=
  match o with
  | Some x => String.eqb x s
  | None => false
  end.

(** Stable insertion sort, the [ORDER BY] of a query. *)
Section OrderBy.
Context {A : Type} (le : A -> A -> bool).
Fixpoint insert_sorted (x : A) (l : list A) : list A :=
  match l with
  | [] => [x]
  | y :: l' => if le x y then x :: l else y :: insert_sorted x l'
  end.
Definition order_by (l : list A) : list A := fold_right insert_sorted [] l.
End OrderBy.

(** Change the first row that satisfies [p], the one [session.get] or the
    query returned. *)
Fixpoint update_first {A} (p : A -> bool) (f : A -> A) (l : list A) : list A :=
  match l with
  | [] => []
  | x :: l' => if p x then f x :: l' else x :: update_first p f l'
  end.

Fixpoint remove_first {A} (p : A -> bool) (l : list A) : list A :=
  match l with
  | [] => []
  | x :: l' => if p x then l' else x :: remove_first p l'
  end.

(** ** [app/scheduler.py] *)

(** The task id that [send_task] returns is the one of the dispatcher's
    stand-in in [tests/conftest.py] ([DummyCelery]): the number of calls
    received so far. *)
Definition send_task (name : string) (job_id : Z) (eta : datetime) : M string :=
  sent <- celery_calls ;;
  let task_id := "task-" ++ PyStr.of_int (Z.of_nat (List.length sent)) in
  celery_call (SendTask name job_id eta task_id) ;;
  ret task_id.

Definition _generate_correlation_key (group_id text : string) (run_at : datetime)
    : string :=
  Sha256.hexdigest (group_id ++ "|" ++ text ++ "|" ++ isoformat run_at).

Definition select_group_by_alias (alias : string) (d : DB) : list Group.t :=
  filter (fun g => String.eqb (Group.alias g) alias) (groups d).

Definition select_job_by_correlation_key (key : string) (d : DB) : list Job.t :=
  filter (fun j => option_eqb (Job.correlation_key j) key) (jobs d).

(** [session.add(job); session.flush()]: the row gets its primary key and
    the unique constraint on [correlation_key] is checked. *)
Definition add_job (job : Job.t) : M Job.t :=
  d <- get_db ;;
  match Job.correlation_key job with
  | Some key =>
      match select_job_by_correlation_key key d with
      | [] => ret tt
      | _ => raise IntegrityError
      end
  | None => ret tt
  end ;;
  let job := Job.set_id (next_id (map Job.id (jobs d))) job in
  modify_db (fun d => set_jobs (jobs d ++ [job]) d) ;;
  ret job.

Definition job_has_id (job_id : Z) (j : Job.t) : bool := Job.id j =? job_id.

(** [session.get(Job, job_id)] *)
Definition get_job (job_id : Z) : M (option Job.t) :=
  d <- get_db ;;
  ret (find (job_has_id job_id) (jobs d)).

(** Attribute assignments on the job that [session.get] returned. *)
Definition update_job (job_id : Z) (f : Job.t -> Job.t) : M unit :=
  modify_db (fun d => set_jobs (update_first (job_has_id job_id) f (jobs d)) d).

(** [schedule_job], with the commits of other transactions that land
    between its existence check and its flush made explicit:
    [concurrent] is what they do to the database. *)
Definition schedule_job_interleaved (concurrent : DB -> DB) (now : datetime)
    (group_alias text : string) (run_at : datetime) (created_by : string)
    (correlation_key : option string) : M Job.t :=
  let group_alias_normalized := PyStr.lower group_alias in
  d <- get_db ;;
  group <- scalar_one_or_none (select_group_by_alias group_alias_normalized d) ;;
  match group with
  | None =>
      raise (ValueError ("Unknown group alias '" ++ group_alias
                         ++ "'. Use register group first."))
  | Some group =>
      let run_at_utc := to_utc run_at in
      let current_utc := to_utc now in
      run_at_utc <-
        (if run_at_utc <=? current_utc then
           if current_utc - run_at_utc <=? minutes 5
           then ret (current_utc + seconds 10)
           else raise (ValueError "Scheduled time is in the past.")
         else ret run_at_utc) ;;
      let correlation_key :=
        match correlation_key with
        | Some k =>
            if PyStr.is_empty k
            then _generate_correlation_key (Group.group_id group) text run_at_utc
            else k
        | None => _generate_correlation_key (Group.group_id group) text run_at_utc
        end in
      existing_job <-
        scalar_one_or_none (select_job_by_correlation_key correlation_key d) ;;
      match existing_job with
      | Some existing_job => ret existing_job
      | None =>
          modify_db concurrent ;;
          job <- add_job
                   (Job.mk 0 (Group.group_id group) (Group.alias group) text
                      run_at_utc created_by now None SCHEDULED None
                      (Some correlation_key)) ;;
          task_id <- send_task "app.workers.send_scheduled_message"
                       (Job.id job) run_at_utc ;;
          update_job (Job.id job) (Job.set_celery_task_id (Some task_id)) ;;
          ret (Job.set_celery_task_id (Some task_id) job)
      end
  end.

(** [schedule_job] when no other transaction interferes. *)
Definition schedule_job : datetime -> string -> string -> datetime -> string ->
    option string -> M Job.t :=
  schedule_job_interleaved (fun d => d).

Definition get_group_by_alias (alias : string) : M (option Group.t) :=
  let alias_normalized := PyStr.lower alias in
  d <- get_db ;;
  scalar_one_or_none (select_group_by_alias alias_normalized d).

Definition cancel_job (job_id : Z) : M bool :=
  job <- get_job job_id ;;
  match job with
  | None => ret false
  | Some job =>
      match Job.status job with
      | CANCELLED | SENT => ret true
      | _ =>
          update_job job_id
            (fun j => Job.set_last_error None (Job.set_status CANCELLED j)) ;;
          match Job.celery_task_id job with
          | Some task_id =>
              if PyStr.is_empty task_id then ret true
              else celery_call (Revoke task_id) ;; ret true
          | None => ret true
          end
      end
  end.

Definition list_jobs : M (list Job.t) :=
  d <- get_db ;;
  ret (order_by (fun a b => Job.run_at a <=? Job.run_at b)
         (filter (fun j => JobStatus_eqb (Job.status j) SCHEDULED) (jobs d))).

Definition select_pending_by_owner (owner_id : string) (d : DB)
    : list PendingSchedule.t :=
  filter (fun p => String.eqb (PendingSchedule.owner_id p) owner_id)
    (pending_schedules d).

Definition get_pending_schedule (owner_id : string) : M (option PendingSchedule.t) :=
  d <- get_db ;;
  scalar_one_or_none (select_pending_by_owner owner_id d).

Definition pending_has_id (i : Z) (p : PendingSchedule.t) : bool :=
  PendingSchedule.id p =? i.

Definition save_pending_schedule (now : datetime) (owner_id group_alias : string)
    (run_at : datetime) : M PendingSchedule.t :=
  let alias_normalized := PyStr.lower group_alias in
  let run_at_utc := to_utc run_at in
  pending <- get_pending_schedule owner_id ;;
  match pending with
  | Some pending =>
      let pending' :=
        PendingSchedule.mk (PendingSchedule.id pending)
          (PendingSchedule.owner_id pending) alias_normalized run_at_utc now in
      modify_db (fun d =>
        set_pending_schedules
          (update_first (pending_has_id (PendingSchedule.id pending))
             (fun _ => pending') (pending_schedules d)) d) ;;
      ret pending'
  | None =>
      d <- get_db ;;
      let pending :=
        PendingSchedule.mk (next_id (map PendingSchedule.id (pending_schedules d)))
          owner_id alias_normalized run_at_utc now in
      modify_db (fun d => set_pending_schedules (pending_schedules d ++ [pending]) d) ;;
      ret pending
  end.

Definition clear_pending_schedule (owner_id : string) : M bool :=
  pending <- get_pending_schedule owner_id ;;
  match pending with
  | None => ret false
  | Some pending =>
      modify_db (fun d =>
        set_pending_schedules
          (remove_first (pending_has_id (PendingSchedule.id pending))
             (pending_schedules d)) d) ;;
      ret true
  end.

Definition group_has_id (i : Z) (g : Group.t) : bool := Group.id g =? i.

Definition register_group (now : datetime) (alias group_id : string)
    (group_name : option string) : M Group.t :=
  let alias_normalized := PyStr.lower alias in
  d <- get_db ;;
  group <- scalar_one_or_none (select_group_by_alias alias_normalized d) ;;
  match group with
  | Some group =>
      let group' :=
        Group.mk (Group.id group) (Group.alias group) group_id group_name
          (Group.created_at group) in
      modify_db (fun d =>
        set_groups (update_first (group_has_id (Group.id group))
                      (fun _ => group') (groups d)) d) ;;
      ret group'
  | None =>
      let group :=
        Group.mk (next_id (map Group.id (groups d))) alias_normalized group_id
          group_name now in
      modify_db (fun d => set_groups (groups d ++ [group]) d) ;;
      ret group
  end.

Definition unregister_group (alias : string) : M bool :=
  let alias_normalized := PyStr.lower alias in
  d <- get_db ;;
  group <- scalar_one_or_none (select_group_by_alias alias_normalized d) ;;
  match group with
  | None => ret false
  | Some group =>
      modify_db (fun d =>
        set_groups (remove_first (group_has_id (Group.id group)) (groups d)) d) ;;
      ret true
  end.

Definition list_groups : M (list Group.t) :=
  d <- get_db ;;
  ret (order_by (fun a b => String.leb (Group.alias a) (Group.alias b)) (groups d)).

Definition mark_job_sent (job_id : Z) : M unit :=
  job <- get_job job_id ;;
  match job with
  | Some _ =>
      update_job job_id (fun j => Job.set_last_error None (Job.set_status SENT j))
  | None => ret tt
  end.

Definition mark_job_failed (job_id : Z) (error : string) : M unit :=
  job <- get_job job_id ;;
  match job with
  | Some _ =>
      update_job job_id
        (fun j => Job.set_last_error (Some error) (Job.set_status FAILED j))
  | None => ret tt
  end.

(** ** [app/config.py] *)

Record Settings : Type := mkSettings {
  wa_phone_number_id : string;
  owner_wa_id : string;
  message_window_hours : Z
}.

(** ** [app/logic.py] *)

Definition correlation_has_bot_message_id (m : string)
    (c : MessageCorrelation.t) : bool :=
  String.eqb (MessageCorrelation.bot_message_id c) m.

(** [session.add(correlation); session.flush()]: [bot_message_id] is
    [NOT NULL] and unique. *)
Definition record_correlation (settings : Settings) (now : datetime)
    (job_id : Z) (group_id : string) (bot_message_id : option string)
    (original_message_id : option string) : M MessageCorrelation.t :=
  let expires_at := now + hours (message_window_hours settings) in
  d <- get_db ;;
  match bot_message_id with
  | None => raise IntegrityError
  | Some bot_message_id =>
      match filter (correlation_has_bot_message_id bot_message_id)
              (message_correlations d) with
      | [] =>
          let correlation :=
            MessageCorrelation.mk
              (next_id (map MessageCorrelation.id (message_correlations d)))
              bot_message_id group_id job_id original_message_id expires_at now in
          modify_db (fun d =>
            set_message_correlations (message_correlations d ++ [correlation]) d) ;;
          ret correlation
      | _ => raise IntegrityError
      end
  end.

Definition _window_in_future (expires_at now : datetime) : bool :=
  now <? expires_at.

Definition select_correlation_by_bot_message_id (context_message_id : option string)
    (d : DB) : list MessageCorrelation.t :=
  filter (fun c => option_eqb context_message_id (MessageCorrelation.bot_message_id c))
    (message_correlations d).

Definition select_unexpired_correlations (now : datetime) (group_id : string)
    (d : DB) : list MessageCorrelation.t :=
  filter
    (fun c => String.eqb (MessageCorrelation.group_id c) group_id
              && (now <? MessageCorrelation.window_expires_at c))
    (message_correlations d).

Definition created_at_desc (a b : MessageCorrelation.t) : bool :=
  MessageCorrelation.created_at b <=? MessageCorrelation.created_at a.

Definition find_correlation_for_context (now : datetime) (group_id : string)
    (context_message_id : option string) : M (option MessageCorrelation.t) :=
  d <- get_db ;;
  by_context <-
    (if PyStr.truthy context_message_id then
       correlation <-
         scalar_one_or_none
           (select_correlation_by_bot_message_id context_message_id d) ;;
       match correlation with
       | Some c =>
           if _window_in_future (MessageCorrelation.window_expires_at c) now
           then ret (Some c) else ret None
       | None => ret None
       end
     else ret None) ;;
  match by_context with
  | Some c => ret (Some c)
  | None =>
      let stmt :=
        order_by created_at_desc (select_unexpired_correlations now group_id d) in
      match stmt with
      | c :: _ =>
          if _window_in_future (MessageCorrelation.window_expires_at c) now
          then ret (Some c) else ret None
      | [] => ret None
      end
  end.

Definition cleanup_expired_correlations (now : datetime) : M Z :=
  d <- get_db ;;
  let expired c := MessageCorrelation.window_expires_at c <? now in
  modify_db (fun d =>
    set_message_correlations
      (filter (fun c => negb (expired c)) (message_correlations d)) d) ;;
  ret (Z.of_nat (List.length (filter expired (message_correlations d)))).

(** ** [app/workers.py] *)

(** What the WhatsApp client does with a request: it returns the response
    ([messages] holds the [id] of each entry of the response's list, [None]
    for an entry without one), or raises. *)
Inductive ClientReply : Type :=
| Responds (messages : list (option string))
| RaisesHTTPStatusError
| RaisesOther.

Definition max_retries : Z := 5.

(** [Task.retry(exc=exc, countdown=countdown)] of Celery: the task is sent
    again and [Retry] is raised, or [exc] is raised once the retries are
    used up. *)
Definition task_retry (request_retries : Z) (job_id : Z) (exc : exn)
    (countdown : Z) : M unit :=
  if max_retries <? request_retries + 1 then raise exc
  else celery_call (RetryTask job_id countdown) ;; raise (Retry countdown).

Definition select_correlation_by_job (job_id : Z) (d : DB)
    : list MessageCorrelation.t :=
  filter (fun c => MessageCorrelation.job_id c =? job_id) (message_correlations d).

(** The body of the task [send_scheduled_message]. *)
Definition send_scheduled_message (settings : Settings) (now : datetime)
    (request_retries : Z) (reply : ClientReply) (job_id : Z) : M unit :=
  session_scope (
    job <- get_job job_id ;;
    match job with
    | None => ret tt
    | Some job =>
        match Job.status job with
        | CANCELLED => ret tt
        | SENT => ret tt
        | _ =>
            d <- get_db ;;
            existing_correlation <-
              scalar_one_or_none (select_correlation_by_job (Job.id job) d) ;;
            match existing_correlation with
            | Some _ => mark_job_sent (Job.id job)
            | None =>
                let dest := Job.group_id job in
                let recipient_type :=
                  if PyStr.endswith dest "@g.us" then "group" else "individual" in
                client_call (SendText dest (Job.text job) recipient_type) ;;
                match reply with
                | RaisesHTTPStatusError =>
                    let retries := request_retries + 1 in
                    let countdown := Z.min 600 (30 * retries) in
                    task_retry request_retries job_id HTTPStatusError countdown
                | RaisesOther => raise OtherError
                | Responds [] =>
                    let error_message := "No message id returned from WhatsApp" in
                    mark_job_failed (Job.id job) error_message ;;
                    raise (RuntimeError error_message)
                | Responds (bot_message_id :: _) =>
                    record_correlation settings now (Job.id job)
                      (Job.group_id job) bot_message_id None ;;
                    mark_job_sent (Job.id job)
                end
            end
        end
    end).

(** [str(exc)]; the text of a library's exception is out of this model and
    its class name stands for it. *)
Definition exn_str (e : exn) : string :=
  match e with
  | CommandParseError msg | ValueError msg | RuntimeError msg => msg
  | IntegrityError => "IntegrityError"
  | MultipleResultsFound => "MultipleResultsFound"
  | HTTPStatusError => "HTTPStatusError"
  | OtherError => "Exception"
  | Retry _ => "Retry"
  end.

(** [DatabaseTask.on_failure] *)
Definition on_failure (exc : exn) (job_id : Z) : M unit :=
  session_scope (mark_job_failed job_id (exn_str exc)).

(** One delivery of the fire event for [job_id]: Celery runs the task body
    and, when it raises anything but [Retry], the failure hook of its base
    class. *)
Definition deliver_fire_event (settings : Settings) (now : datetime)
    (request_retries : Z) (reply : ClientReply) (job_id : Z) : M unit :=
  fun w =>
    match send_scheduled_message settings now request_retries reply job_id w with
    | (Ok tt, w') => (Ok tt, w')
    | (Raise (Retry c), w') => (Raise (Retry c), w')
    | (Raise e, w') =>
        match on_failure e job_id w' with
        | (_, w'') => (Raise e, w'')
        end
    end.

(** ** [app/main.py] *)

Record IncomingMessage : Type := mkIncomingMessage {
  sender_wa_id : string;
  sender_name : option string;
  message_id : string;
  timestamp : datetime;
  message_type : string;
  text : option string;
  button_payload : option string;
  button_title : option string;
  context_message_id : option string;
  group_id : option string;
  group_name : option string;
  is_group : bool
}.

Definition dquote : string := String "034" EmptyString.
Definition newline : string := String "010" EmptyString.

Definition _owner_command_help : string :=
  "Commands:" ++ newline
  ++ "- register group <alias> <group_id> [optional name]" ++ newline
  ++ "- unregister group <alias>" ++ newline
  ++ "- groups" ++ newline
  ++ "- schedule " ++ dquote ++ "<text>" ++ dquote
  ++ " to <alias> [at] <natural datetime>" ++ newline
  ++ "- schedule to <alias> [at] <natural datetime> (send content next)" ++ newline
  ++ "- list" ++ newline
  ++ "- cancel <job_id>" ++ newline
  ++ "Examples:" ++ newline
  ++ "schedule " ++ dquote ++ "Standup at 09:00" ++ dquote
  ++ " to team at today 08:55" ++ newline
  ++ "schedule " ++ dquote ++ "Demo tomorrow" ++ dquote ++ " to sales Sun 9am"
  ++ newline
  ++ "schedule to team at tomorrow 09:00" ++ newline
  ++ "schedule to team in 1 minute".

(** [client.send_text_message(to=..., text=...)] *)
Definition send_text_message (to text : string) : M unit :=
  client_call (SendText to text "individual").

(** [try: x = body except ValueError as exc: ...]: the value of the body,
    or the text of the [ValueError] it raised; anything else propagates. *)
Definition except_ValueError {A} (body : M A) : M (A + string) :=
  fun w =>
    match body w with
    | (Ok a, w') => (Ok (inl a), w')
    | (Raise (ValueError msg), w') => (Ok (inr msg), w')
    | (Raise e, w') => (Raise e, w')
    end.

Section OwnerHandlers.

(** [parse_natural_datetime(phrase, tz=default_tz())] of [utils/time.py],
    a call into the [dateparser] library, read at the instant given. *)
Variable parse_natural_datetime : datetime -> string -> option datetime.

(** [dt.astimezone(default_tz()).strftime('%Y-%m-%d %H:%M %Z')] *)
Variable strftime_local : datetime -> string.

Variable settings : Settings.

Definition _complete_pending_schedule (now : datetime)
    (pending_schedule : PendingSchedule.t) (content_text : string) : M unit :=
  if PyStr.is_empty (PyStr.strip content_text) then
    send_text_message (owner_wa_id settings)
      "Cannot schedule an empty message. Please send the content text."
  else
    let run_at := PendingSchedule.run_at pending_schedule in
    let created_at := PendingSchedule.created_at pending_schedule in
    let '(run_at, adjusted) :=
      if run_at <=? now then
        let basis := created_at in
        if now - basis <=? minutes 5 then (now + seconds 10, true)
        else (run_at, false)
      else (run_at, false) in
    scheduled <-
      except_ValueError
        (schedule_job now (PendingSchedule.group_alias pending_schedule)
           content_text run_at (owner_wa_id settings) None) ;;
    match scheduled with
    | inr exc =>
        clear_pending_schedule (owner_wa_id settings) ;;
        send_text_message (owner_wa_id settings) exc
    | inl job =>
        clear_pending_schedule (owner_wa_id settings) ;;
        let text :=
          if adjusted then
            "Original time had just passed; scheduled job #"
            ++ PyStr.of_int (Job.id job) ++ " to '"
            ++ PendingSchedule.group_alias pending_schedule ++ "' at "
            ++ strftime_local run_at ++ " using forwarded content."
          else
            "Scheduled job #" ++ PyStr.of_int (Job.id job) ++ " to '"
            ++ PendingSchedule.group_alias pending_schedule ++ "' at "
            ++ strftime_local run_at ++ " using forwarded content." in
        send_text_message (owner_wa_id settings) text
    end.

Definition could_not_parse_time : string :=
  "Could not parse the schedule time. Please try again." ++ newline
  ++ _owner_command_help.

Definition handle_owner_command (now : datetime) (command : OwnerCommand)
    : M unit :=
  match command with
  | ScheduleCommand text group_alias when =>
      match parse_natural_datetime now when with
      | None => send_text_message (owner_wa_id settings) could_not_parse_time
      | Some run_at_utc =>
          scheduled <-
            except_ValueError
              (schedule_job now group_alias text run_at_utc
                 (owner_wa_id settings) None) ;;
          match scheduled with
          | inr exc => send_text_message (owner_wa_id settings) exc
          | inl job =>
              clear_pending_schedule (owner_wa_id settings) ;;
              send_text_message (owner_wa_id settings)
                ("Scheduled job #" ++ PyStr.of_int (Job.id job) ++ " to '"
                 ++ group_alias ++ "' at " ++ strftime_local run_at_utc ++ ".")
          end
      end
  | ScheduleConfigCommand group_alias when =>
      match parse_natural_datetime now when with
      | None => send_text_message (owner_wa_id settings) could_not_parse_time
      | Some run_at_utc =>
          group <- get_group_by_alias group_alias ;;
          match group with
          | None =>
              send_text_message (owner_wa_id settings)
                ("Unknown group alias '" ++ group_alias
                 ++ "'. Use register group first.")
          | Some group =>
              if run_at_utc <=? now then
                send_text_message (owner_wa_id settings)
                  "Scheduled time is in the past. Please choose a future time."
              else
                save_pending_schedule now (owner_wa_id settings)
                  (Group.alias group) run_at_utc ;;
                send_text_message (owner_wa_id settings)
                  ("Configuration stored. Forward or send the message content to "
                   ++ "schedule it to '" ++ Group.alias group ++ "' at "
                   ++ strftime_local run_at_utc ++ ".")
          end
      end
  | ListCommand =>
      jobs <- list_jobs ;;
      match jobs with
      | [] => send_text_message (owner_wa_id settings) "No jobs scheduled."
      | _ =>
          let lines :=
            map (fun job =>
                   "#" ++ PyStr.of_int (Job.id job) ++ " " ++ Job.group_alias job
                   ++ " at " ++ strftime_local (Job.run_at job) ++ " "
                   ++ dquote ++ Job.text job ++ dquote) jobs in
          send_text_message (owner_wa_id settings) (PyStr.join_lines lines)
      end
  | CancelCommand job_id =>
      cancelled <- cancel_job job_id ;;
      if cancelled : bool then
        send_text_message (owner_wa_id settings)
          ("Cancelled job #" ++ PyStr.of_int job_id ++ ".")
      else
        send_text_message (owner_wa_id settings)
          ("Job #" ++ PyStr.of_int job_id ++ " not found.")
  | GroupsCommand =>
      groups <- list_groups ;;
      match groups with
      | [] =>
          send_text_message (owner_wa_id settings)
            "No groups registered. Use 'register group <alias> <group_id>'."
      | _ =>
          let lines :=
            map (fun group =>
                   Group.alias group ++ " -> " ++ Group.group_id group
                   ++ (if PyStr.truthy (Group.group_name group)
                       then " ("
                            ++ match Group.group_name group with
                               | Some n => n
                               | None => EmptyString
                               end ++ ")"
                       else EmptyString)) groups in
          send_text_message (owner_wa_id settings) (PyStr.join_lines lines)
      end
  | RegisterGroupCommand alias group_id group_name =>
      group <- register_group now alias group_id group_name ;;
      send_text_message (owner_wa_id settings)
        ("Registered group '" ++ Group.alias group ++ "' with ID "
         ++ Group.group_id group ++ ".")
  | UnregisterGroupCommand alias =>
      removed <- unregister_group alias ;;
      if removed : bool then
        send_text_message (owner_wa_id settings)
          ("Unregistered group '" ++ alias ++ "'.")
      else
        send_text_message (owner_wa_id settings)
          ("Group '" ++ alias ++ "' not found.")
  end.

Definition process_owner_message (now : datetime) (message : IncomingMessage)
    : M unit :=
  session_scope (
    if negb (String.eqb (sender_wa_id message) (owner_wa_id settings)) then
      ret tt
    else
      pending_schedule <- get_pending_schedule (owner_wa_id settings) ;;
      if PyStr.truthy (button_payload message) then
        send_text_message (owner_wa_id settings)
          "Interactive actions are not supported."
      else
        match text message with
        | None | Some EmptyString =>
            match pending_schedule with
            | Some _ =>
                send_text_message (owner_wa_id settings)
                  ("Pending schedule is waiting for content, but the message type "
                   ++ "is unsupported. Please forward or send text content.")
            | None =>
                send_text_message (owner_wa_id settings)
                  "Unsupported message type. Send text commands."
            end
        | Some message_text =>
            match parse_owner_command message_text with
            | Raise (CommandParseError _) =>
                match pending_schedule with
                | Some pending_schedule =>
                    _complete_pending_schedule now pending_schedule message_text
                | None =>
                    send_text_message (owner_wa_id settings)
                      ("Could not parse command." ++ newline ++ _owner_command_help)
                end
            | Raise e => raise e
            | Ok command => handle_owner_command now command
            end
        end).

End OwnerHandlers.

(** ** [app/main.py]: the admin endpoints *)

(** What an endpoint hands back to FastAPI: a value, an [HTTPException],
    or an exception that it did not handle. *)
Inductive Response (A : Type) : Type :=
| Returns (a : A)
| HTTPException (status_code : Z) (detail : string)
| Unhandled (e : exn).
Arguments Returns {A} a.
Arguments HTTPException {A} status_code detail.
Arguments Unhandled {A} e.

(** [a == b] on [str | None] *)
Definition option_string_eqb (a b : option string) : bool :=
  match a, b with
  | Some x, Some y => String.eqb x y
  | None, None => true
  | _, _ => false
  end.

(** [_require_admin_token]; [x_admin_token] is [get_settings().x_admin_token]. *)
Definition _require_admin_token (x_admin_token token : option string)
    : Response unit :=
  let expected := x_admin_token in
  if PyStr.truthy expected && option_string_eqb token expected then Returns tt
  else HTTPException 401 "Unauthorized".

(** [get_session] of [app/db.py], the dependency of the endpoints: the body
    of the endpoint runs inside [session_scope], which commits when the body
    returns and rolls back when it raises, an [HTTPException] included. *)
Definition get_session {A} (body : M (Response A)) : World -> Response A * World :=
  fun w =>
    match body w with
    | (Ok (Returns a), w') => (Returns a, w')
    | (Ok (HTTPException status_code detail), w') =>
        (HTTPException status_code detail, mkWorld (db w) (outbox w') (celery w'))
    | (Ok (Unhandled e), w') | (Raise e, w') =>
        (Unhandled e, mkWorld (db w) (outbox w') (celery w'))
    end.

(** The endpoint continues only when the token check returned. *)
Definition after_admin_token {A} (x_admin_token admin_token : option string)
    (body : M (Response A)) : M (Response A) :=
  match _require_admin_token x_admin_token admin_token with
  | Returns _ => body
  | HTTPException status_code detail => ret (HTTPException status_code detail)
  | Unhandled e => raise e
  end.

(** [GET /jobs] *)
Definition list_jobs_endpoint (x_admin_token admin_token : option string)
    : World -> Response (list Job.t) * World :=
  get_session (
    after_admin_token x_admin_token admin_token (
      jobs <- list_jobs ;;
      ret (Returns jobs))).

(** [DELETE /jobs/{job_id}] *)
Definition cancel_job_endpoint (x_admin_token : option string) (job_id : Z)
    (admin_token : option string) : World -> Response (string * Z) * World :=
  get_session (
    after_admin_token x_admin_token admin_token (
      cancelled <- cancel_job job_id ;;
      if negb cancelled then ret (HTTPException 404 "Job not found")
      else ret (Returns ("cancelled", job_id)))).

(** [GET /groups] *)
Definition groups_endpoint (x_admin_token admin_token : option string)
    : World -> Response (list Group.t) * World :=
  get_session (
    after_admin_token x_admin_token admin_token (
      groups <- list_groups ;;
      ret (Returns groups))).

(** ** [app/main.py]: messages from groups *)

(** [a or b] where [a] is [str | None]. *)
Definition or_else (a : option string) (b : string) : string :=
  match a with
  | Some s => if PyStr.is_empty s then b else s
  | None => b
  end.

(** [s[:n]] *)
Definition slice_to (n : nat) (s : string) : string := substring 0 n s.

(** The calls that the client of [process_group_message] is asked to make:
    [send_interactive_message] with its one URL button, and [send_template]
    with the components of [owner_notify_template_components], three body
    parameters and the parameter of the URL button. *)
Inductive NotifyCall : Type :=
| SendInteractive (to : string) (header : option string) (body : string)
    (url display_text : string)
| SendTemplate (to template_name language : string)
    (body_parameters : list string) (button_parameter : string).

Definition notify_to (call : NotifyCall) : string :=
  match call with
  | SendInteractive to _ _ _ _ => to
  | SendTemplate to _ _ _ _ => to
  end.

(** What [_should_use_template] reads of an [httpx.HTTPStatusError]: no
    response, a response that is not JSON, or the [code] and the
    [error_subcode] of its [error] object, where they are integers. *)
Inductive HTTPErrorBody : Type :=
| NoResponse
| NotJSON
| ErrorObject (code error_subcode : option Z).

(** What the provider does with one call. *)
Inductive NotifyReply : Type :=
| Accepts
| RefusesWith (exc : HTTPErrorBody)
| FailsOtherwise.

Definition _should_use_template (exc : HTTPErrorBody) : bool :=
  match exc with
  | NoResponse => false
  | NotJSON => false
  | ErrorObject code subcode =>
      match code with
      | Some c => c =? 470
      | None => false
      end
      || match subcode with
         | Some s => existsb (Z.eqb s) [2018041; 2018042; 2018046]
         | None => false
         end
  end.

(** [send_owner_notify] of [app/wa/templates.py] *)
Definition send_owner_notify (to group_name sender_name snippet cta_url : string)
    : NotifyCall :=
  SendTemplate to "owner_notify" "en_US" [group_name; sender_name; snippet] cta_url.

(** [process_group_message]: the result, the calls made on the client that
    it opens, in order, and the world it leaves. *)
Definition process_group_message (settings : Settings) (now : datetime)
    (interactive_reply template_reply : NotifyReply) (message : IncomingMessage)
    : World -> (Res unit * list NotifyCall) * World :=
  fun w =>
    if negb (PyStr.truthy (group_id message))
       || String.eqb (sender_wa_id message) (wa_phone_number_id settings)
    then ((Ok tt, []), w)
    else
      let message_group_id := or_else (group_id message) EmptyString in
      match session_scope
              (find_correlation_for_context now message_group_id
                 (context_message_id message)) w with
      | (Raise e, w') => ((Raise e, []), w')
      | (Ok None, w') => ((Ok tt, []), w')
      | (Ok (Some _), w') =>
          let snippet := or_else (text message) (message_type message ++ " message") in
          let snippet := slice_to 180 snippet in
          let sender_display :=
            or_else (sender_name message) (sender_wa_id message) in
          let body :=
            "[Group: " ++ or_else (group_name message) message_group_id ++ "] "
            ++ sender_display ++ ": " ++ snippet in
          let url := "https://wa.me/" ++ sender_wa_id message in
          let interactive :=
            SendInteractive (owner_wa_id settings) None body url
              ("Open chat with " ++ sender_display) in
          match interactive_reply with
          | Accepts => ((Ok tt, [interactive]), w')
          | RefusesWith exc =>
              if _should_use_template exc then
                let template :=
                  send_owner_notify (owner_wa_id settings)
                    (or_else (group_name message) message_group_id)
                    sender_display snippet url in
                match template_reply with
                | Accepts => ((Ok tt, [interactive; template]), w')
                | RefusesWith _ =>
                    ((Raise HTTPStatusError, [interactive; template]), w')
                | FailsOtherwise =>
                    ((Raise OtherError, [interactive; template]), w')
                end
              else ((Raise HTTPStatusError, [interactive]), w')
          | FailsOtherwise => ((Raise OtherError, [interactive]), w')
          end
      end.

(** * The vocabulary of the properties *)

(** The unique constraint on [jobs.correlation_key]. *)
Definition correlation_keys_unique (d : DB) : Prop :=
  forall key, (List.length (select_job_by_correlation_key key d) <= 1)%nat.

(** Another transaction commits [rival] between the check and the flush. *)
Definition rival_commit (rival : Job.t) (d : DB) : DB :=
  set_jobs (jobs d ++ [rival]) d.

Definition terminal_for_guards (s : JobStatus) : Prop := s = SENT \/ s = CANCELLED.

(** What an operation may do to one Job row: nothing, or move it from
    [SCHEDULED] or [FAILED] to [SENT], [CANCELLED] or [FAILED]. *)
Definition guarded_step (j j' : Job.t) : Prop :=
  j' = j
  \/ ((Job.status j = SCHEDULED \/ Job.status j = FAILED)
      /\ (Job.status j' = SENT \/ Job.status j' = CANCELLED
          \/ Job.status j' = FAILED)
      /\ Job.id j' = Job.id j).

(** The operations on stored Jobs that the owner and the dispatcher
    trigger. *)
Inductive job_operation : Type :=
| CancelJob (job_id : Z)
| FireEvent (settings : Settings) (now : datetime) (request_retries : Z)
    (reply : ClientReply) (job_id : Z).

Definition perform (w : World) (op : job_operation) : World :=
  match op with
  | CancelJob job_id => snd (cancel_job job_id w)
  | FireEvent settings now request_retries reply job_id =>
      snd (deliver_fire_event settings now request_retries reply job_id w)
  end.

Definition mark_sent (j : Job.t) : Job.t :=
  Job.set_last_error None (Job.set_status SENT j).

(** The Job of the event is missing, [CANCELLED] or [SENT]. *)
Definition settled (job_id : Z) (w : World) : Prop :=
  match find (job_has_id job_id) (jobs (db w)) with
  | None => True
  | Some job => terminal_for_guards (Job.status job)
  end.

(** The head of [l] comes first in the order [le]. *)
Definition head_first {A} (le : A -> A -> bool) (l : list A) : Prop :=
  match l with
  | [] => True
  | c :: _ => forall y, In y l -> le c y = true
  end.

(** The unique constraint on [message_correlations.bot_message_id]. *)
Definition bot_message_ids_unique (d : DB) : Prop :=
  forall m,
    (List.length (select_correlation_by_bot_message_id (Some m) d) <= 1)%nat.

Definition unexpired (now : datetime) (c : MessageCorrelation.t) : Prop :=
  now < MessageCorrelation.window_expires_at c.

(** The context id is present and is the [bot_message_id] of [c]. *)
Definition context_names (context_message_id : option string)
    (c : MessageCorrelation.t) : Prop :=
  exists m,
    context_message_id = Some m /\ m <> EmptyString
    /\ MessageCorrelation.bot_message_id c = m.

(** [r] is the most recently created unexpired correlation of the group,
    or [None] when the group has none. *)
Definition most_recent_unexpired (now : datetime) (group_id : string)
    (rows : list MessageCorrelation.t) (r : option MessageCorrelation.t) : Prop :=
  match r with
  | Some c =>
      In c rows /\ MessageCorrelation.group_id c = group_id /\ unexpired now c
      /\ forall c', In c' rows -> MessageCorrelation.group_id c' = group_id ->
                    unexpired now c' ->
                    MessageCorrelation.created_at c' <= MessageCorrelation.created_at c
  | None =>
      forall c, In c rows -> MessageCorrelation.group_id c = group_id ->
                ~ unexpired now c
  end.

Definition empty_content_reply (settings : Settings) : ClientCall :=
  SendText (owner_wa_id settings)
    "Cannot schedule an empty message. Please send the content text."
    "individual".

Definition recipient_type_of (dest : string) : string :=
  if PyStr.endswith dest "@g.us" then "group" else "individual".

(** Every character of [s] satisfies [p]. *)
Fixpoint all_chars (p : ascii -> bool) (s : string) : bool :=
  match s with
  | EmptyString => true
  | String c s' => p c && all_chars p s'
  end.

(** [s] is not empty and neither starts nor ends with whitespace. *)
Definition trimmed (s : string) : Prop :=
  s <> EmptyString /\ PyStr.lstrip s = s /\ PyStr.rstrip s = s.

(** A character of a quoted text: any but the newline and the quote. *)
Definition text_char (c : ascii) : bool :=
  negb (Ascii.eqb c "010") && negb (Ascii.eqb c "034").

(** A character that [.] matches. *)
Definition line_char (c : ascii) : bool := negb (Ascii.eqb c "010").

(** The first character of [s] is not whitespace. *)
Definition starts_without_space (s : string) : Prop :=
  match s with
  | EmptyString => False
  | String c _ => PyStr.isspace c = false
  end.

(** The primary key and the unique constraint of [groups]. *)
Definition groups_wf (d : DB) : Prop :=
  NoDup (map Group.id (groups d))
  /\ forall alias, (List.length (select_group_by_alias alias d) <= 1)%nat.

(** The primary key and the unique constraint of [pending_schedules]. *)
Definition pending_schedules_wf (d : DB) : Prop :=
  NoDup (map PendingSchedule.id (pending_schedules d))
  /\ forall owner_id, (List.length (select_pending_by_owner owner_id d) <= 1)%nat.

(** The primary key of [jobs]. *)
Definition job_ids_unique (d : DB) : Prop := NoDup (map Job.id (jobs d)).

(** The row has primary key [i]. *)
Definition has_key {A} (id : A -> Z) (i : Z) (x : A) : bool := id x =? i.

(** The computation hands nothing to the client. *)
Definition silent {A} (m : M A) : Prop :=
  forall w, outbox (snd (m w)) = outbox w.

(** The computation hands the client nothing, or one text message for
    [to] as an individual. *)
Definition answers {A} (to : string) (m : M A) : Prop :=
  forall w,
    outbox (snd (m w)) = outbox w
    \/ exists reply,
         outbox (snd (m w)) = (outbox w ++ [SendText to reply "individual"])%list.

(** The group message is one that [process_group_message] forwards: it
    carries a group id, does not come from the bot's own number, and a
    correlation is resolved for it. *)
Definition forwardable (settings : Settings) (now : datetime)
    (message : IncomingMessage) (w : World) : Prop :=
  PyStr.truthy (group_id message) = true
  /\ sender_wa_id message <> wa_phone_number_id settings
  /\ exists c,
       fst (find_correlation_for_context now
              (or_else (group_id message) EmptyString)
              (context_message_id message) w) = Ok (Some c).

Definition is_template (call : NotifyCall) : Prop :=
  match call with
  | SendTemplate _ _ _ _ _ => True
  | SendInteractive _ _ _ _ _ => False
  end.

(** * Sample worlds *)

(** A registry with the group of the tests, and nothing else. *)
Definition team : Group.t := Group.mk 1 "team" "12345@g.us" (Some "Team") 0.
Definition registered : World := mkWorld (mkDB [] [team] [] []) [] [].

(** 2024-01-01 06:00:00 UTC *)
Definition t0 : datetime := 1704088800000000.

Definition rival : Job.t :=
  Job.mk 1 "12345@g.us" "team" "hi" (t0 + hours 1) "owner-wa-id" t0
    (Some "task-0") SCHEDULED None
    (Some (_generate_correlation_key "12345@g.us" "hi" (t0 + hours 1))).

Definition failed_job : Job.t :=
  Job.mk 1 "12345@g.us" "team" "hi" t0 "owner-wa-id" t0 (Some "task-0") FAILED
    (Some "No message id returned from WhatsApp") (Some "key").

Definition world_of_jobs (l : list Job.t) : World :=
  mkWorld (mkDB l [team] [] []) [] [].

Definition scheduled_job : Job.t :=
  Job.mk 1 "12345@g.us" "team" "hi" t0 "owner-wa-id" t0 (Some "task-0") SCHEDULED
    None (Some "key").

Definition settings_of_tests : Settings := mkSettings "123456789" "owner-wa-id" 12.

Definition correlation_1 : MessageCorrelation.t :=
  MessageCorrelation.mk 1 "wamid.1" "12345@g.us" 1 None (t0 + hours 12) t0.
Definition correlation_2 : MessageCorrelation.t :=
  MessageCorrelation.mk 2 "wamid.2" "12345@g.us" 2 None (t0 + hours 13)
    (t0 + hours 1).
Definition world_of_correlations : World :=
  mkWorld (mkDB [] [team] [] [correlation_1; correlation_2]) [] [].

Definition pending_of_tests : PendingSchedule.t :=
  PendingSchedule.mk 1 "owner-wa-id" "team" (t0 + hours 1) t0.
Definition armed : World := mkWorld (mkDB [] [team] [pending_of_tests] []) [] [].

Definition message_of (sender : string) (body : option string) : IncomingMessage :=
  mkIncomingMessage sender (Some "Owner") "msg-1" t0 "text" body None None None
    None None false.

(** The group [team] registered again with another destination while a Job
    for it is stored, then the Job fired: the message goes where the Job
    was scheduled to go. *)
Definition reregistered : World :=
  snd (register_group (t0 + minutes 1) "team" "99999@g.us" None
         (world_of_jobs [scheduled_job])).

(** A reply in the group of the tests to the bot's first message. *)
Definition group_reply : IncomingMessage :=
  mkIncomingMessage "972500000001" (Some "Dana") "msg-2" (t0 + hours 1) "text"
    (Some "On my way") None None (Some "wamid.1") (Some "12345@g.us") (Some "Team")
    true.

(** A time parser that reads every phrase as the same instant, and the
    local rendering of the tests. *)
Definition reads_as (run_at : datetime) : datetime -> string -> option datetime :=
  fun _ _ => Some run_at.
Definition local_clock : datetime -> string := fun _ => "2024-01-01 09:00 IST".

(** The provider's answer once the 24-hour window is closed. *)
Definition window_closed_error : HTTPErrorBody := ErrorObject (Some 131047) (Some 2018041).

(** * Properties *)

(** The constraints of a table of a sample world, by going through its
    rows. *)
Ltac sample_table :=
  split;
  [ cbn; repeat constructor; cbn; intuition discriminate
  | intros ?; cbn -[String.eqb];
    repeat match goal with
           | |- context [String.eqb ?a ?b] => destruct (String.eqb a b)
           end;
    cbn; lia ].


(** ** The command interpreter *)

Section StripLemmas.
Import PyStr.

Lemma rstrip_cons_nonspace (c : ascii) (s : string) :
  isspace c = false -> rstrip (String c s) = String c (rstrip s).
Proof.
  intros Hc. simpl. destruct (rstrip s); [rewrite Hc|]; reflexivity.
Qed.

Lemma rstrip_cons_nonempty (c a : ascii) (s r : string) :
  rstrip s = String a r -> rstrip (String c s) = String c (String a r).
Proof.
  intros Hs. simpl. rewrite Hs. reflexivity.
Qed.

Lemma strip_schedule_to (rest : string) :
  strip ("schedule to " ++ rest) = "schedule to" ++ rstrip (String " " rest).
Proof.
  assert (Hto : rstrip (String "t" (String "o" (String " " rest)))
                = String "t" (String "o" (rstrip (String " " rest)))).
  { do 2 (rewrite rstrip_cons_nonspace by reflexivity). reflexivity. }
  unfold strip. cbn [append lstrip].
  change (isspace "s") with false. cbv iota.
  do 8 (rewrite rstrip_cons_nonspace by reflexivity).
  rewrite (rstrip_cons_nonempty " " _ _ _ Hto). reflexivity.
Qed.
End StripLemmas.

Example parse_schedule_command :
  parse_owner_command ("schedule " ++ dquote ++ "Daily sync" ++ dquote
                       ++ " to team at today 08:55")
  = Ok (ScheduleCommand "Daily sync" "team" "today 08:55").
Proof. vm_compute. reflexivity. Qed.

Example parse_cancel_command :
  parse_owner_command "cancel 42" = Ok (CancelCommand 42).
Proof. vm_compute. reflexivity. Qed.

Example parse_register_group_command :
  parse_owner_command "register group team 12345@g.us Team Squad"
  = Ok (RegisterGroupCommand "team" "12345@g.us" (Some "Team Squad")).
Proof. vm_compute. reflexivity. Qed.

Example parse_unregister_group_command :
  parse_owner_command "unregister group team" = Ok (UnregisterGroupCommand "team").
Proof. vm_compute. reflexivity. Qed.

Example parse_list_and_groups_commands :
  parse_owner_command "list" = Ok ListCommand
  /\ parse_owner_command " GROUPS " = Ok GroupsCommand.
Proof. split; vm_compute; reflexivity. Qed.

Example parse_invalid_command :
  parse_owner_command "unknown command"
  = Raise (CommandParseError "Unable to understand the command.").
Proof. vm_compute. reflexivity. Qed.

(** C1 (fails on the code).  Every message [schedule to <rest>], whatever
    alias and time phrase follow, is refused: no pattern of the module
    matches it, [SCHEDULE_RE] for want of the quoted text, and
    [parse_owner_command] raises [CommandParseError].  In particular the
    message of the two-step test, [schedule to team at tomorrow 08:55], is
    not parsed into a [ScheduleConfigCommand]. *)
Theorem parse_schedule_config_raises (rest : string) :
  parse_owner_command ("schedule to " ++ rest)
  = Raise (CommandParseError "Unable to understand the command.").
Proof.
  unfold parse_owner_command. rewrite strip_schedule_to.
  generalize (PyStr.rstrip (String " " rest)). intros tail.
  vm_compute. reflexivity.
Qed.

Example parse_two_step_test_message :
  parse_owner_command "schedule to team at tomorrow 08:55"
  = Raise (CommandParseError "Unable to understand the command.").
Proof. vm_compute. reflexivity. Qed.

(** ** [hashlib] and [datetime] against the Python library *)

Example sha256_abc :
  Sha256.hexdigest "abc"
  = "ba7816bf8f01cfea414140de5dae2223b00361a396177a9cb410ff61f20015ad".
Proof. vm_compute. reflexivity. Qed.

Example sha256_two_blocks :
  Sha256.hexdigest
    "aaaaaaaaaaaaaaaaaaaaaaaaaaaaaaaaaaaaaaaaaaaaaaaaaaaaaaaaaaaaaaaa"
  = "ffe054fe7ae0cb6dc65c3af9b61d5209f439851db43d0ba5997337df154668eb".
Proof. vm_compute. reflexivity. Qed.

Example isoformat_whole_second :
  isoformat 1704088811000000 = "2024-01-01T06:00:11+00:00".
Proof. vm_compute. reflexivity. Qed.

Example isoformat_microseconds :
  isoformat 1704088811000005 = "2024-01-01T06:00:11.000005+00:00".
Proof. vm_compute. reflexivity. Qed.

Example correlation_key_of_a_request :
  _generate_correlation_key "12345@g.us" "hi" 1704088811000000
  = "3d5784d25d83bde53fbca5cfb9b89aad0f0dd36613d49f8a8dcb73c45ff43a18".
Proof. vm_compute. reflexivity. Qed.

(** ** The scheduling engine *)

(** Running a session program: the operations of the monad are unfolded,
    the queries are not. *)
Ltac run_session :=
  cbv beta iota zeta delta
    [bind ret raise get_db modify_db client_call celery_call celery_calls
     scalar_one_or_none session_scope except_ValueError];
  cbn [db outbox celery jobs groups pending_schedules message_correlations
       set_jobs set_groups set_pending_schedules set_message_correlations].


Lemma at_most_one {A} (l : list A) :
  (List.length l <= 1)%nat -> l = [] \/ exists x, l = [x].
Proof.
  destruct l as [|x [|y l]]; simpl; intros H.
  - now left.
  - right. now exists x.
  - lia.
Qed.



Lemma next_id_fresh (ids : list Z) (i : Z) : In i ids -> i < next_id ids.
Proof.
  intros Hin. unfold next_id.
  assert (Hmax : i <= fold_right Z.max 0 ids).
  { induction ids as [|x ids IH]; cbn [fold_right In] in *; [contradiction|].
    destruct Hin as [->|Hin]; [lia|]. specialize (IH Hin). lia. }
  lia.
Qed.

Lemma update_first_app_fresh {A} (p : A -> bool) (f : A -> A) (l : list A) (y : A) :
  (forall x, In x l -> p x = false) -> p y = true ->
  update_first p f (l ++ [y]) = (l ++ [f y])%list.
Proof.
  intros Hl Hy. induction l as [|x l IH]; simpl.
  - now rewrite Hy.
  - rewrite (Hl x) by now left. f_equal. apply IH. intros z Hz. apply Hl. now right.
Qed.

Lemma job_has_fresh_id (l : list Job.t) (j : Job.t) :
  In j l -> job_has_id (next_id (map Job.id l)) j = false.
Proof.
  intros Hin. unfold job_has_id. apply Z.eqb_neq.
  pose proof (next_id_fresh (map Job.id l) (Job.id j) (in_map Job.id l j Hin)). lia.
Qed.

(** What [schedule_job] does when no stored Job carries the key. *)
Lemma schedule_job_new (w : World) (now : datetime) (group_alias text : string)
    (run_at : datetime) (created_by : string) (group : Group.t) :
  select_group_by_alias (PyStr.lower group_alias) (db w) = [group] ->
  now < run_at ->
  select_job_by_correlation_key
    (_generate_correlation_key (Group.group_id group) text run_at) (db w) = [] ->
  let task_id := "task-" ++ PyStr.of_int (Z.of_nat (List.length (celery w))) in
  let job :=
    Job.mk (next_id (map Job.id (jobs (db w)))) (Group.group_id group)
      (Group.alias group) text run_at created_by now (Some task_id) SCHEDULED None
      (Some (_generate_correlation_key (Group.group_id group) text run_at)) in
  schedule_job now group_alias text run_at created_by None w
  = (Ok job,
     mkWorld (set_jobs (jobs (db w) ++ [job]) (db w)) (outbox w)
       (celery w ++ [SendTask "app.workers.send_scheduled_message" (Job.id job)
                       run_at task_id])).
Proof.
  intros Hgroup Hfuture Hnone.
  unfold schedule_job, schedule_job_interleaved, to_utc. run_session.
  rewrite Hgroup. run_session.
  apply Z.leb_gt in Hfuture. rewrite Hfuture. run_session.
  rewrite Hnone. run_session. unfold add_job. run_session.
  cbn [Job.correlation_key]. rewrite Hnone. run_session.
  unfold send_task, update_job. run_session.
  rewrite update_first_app_fresh.
  - reflexivity.
  - intros x Hx. now apply job_has_fresh_id.
  - unfold job_has_id. cbn. apply Z.eqb_refl.
Qed.

(** What it does when one does. *)
Lemma schedule_job_existing (w : World) (now : datetime) (group_alias text : string)
    (run_at : datetime) (created_by : string) (group : Group.t) (job : Job.t) :
  select_group_by_alias (PyStr.lower group_alias) (db w) = [group] ->
  now < run_at ->
  select_job_by_correlation_key
    (_generate_correlation_key (Group.group_id group) text run_at) (db w) = [job] ->
  schedule_job now group_alias text run_at created_by None w = (Ok job, w).
Proof.
  intros Hgroup Hfuture Hone.
  unfold schedule_job, schedule_job_interleaved, to_utc. run_session.
  rewrite Hgroup. run_session.
  apply Z.leb_gt in Hfuture. rewrite Hfuture. run_session.
  rewrite Hone. reflexivity.
Qed.

(** C3 as stated fails: the same request made twice while its [run_at] is
    in the grace window is adjusted against the clock of each call, so the
    two calls compute different keys and store two Jobs. *)
Lemma schedule_job_twice_in_grace_window :
  exists job1 w1 job2 w2,
    schedule_job (t0 + seconds 1) "team" "hi" t0 "owner-wa-id" None registered
    = (Ok job1, w1)
    /\ schedule_job (t0 + seconds 2) "team" "hi" t0 "owner-wa-id" None w1
       = (Ok job2, w2)
    /\ Job.id job1 <> Job.id job2
    /\ List.length (jobs (db w2)) = 2%nat.
Proof.
  do 4 eexists. split; [vm_compute; reflexivity|].
  split; [vm_compute; reflexivity|].
  split; [vm_compute; discriminate|reflexivity].
Qed.

(** C3, amended.  A request for a registered alias whose [run_at] is after
    the clock at both calls, so that neither call adjusts it: the first call
    returns a Job, the second call returns the same Job and leaves the world
    as the first call left it, and exactly one stored Job carries the
    request's correlation key. *)
Theorem schedule_job_idempotent
    (w : World) (now1 now2 : datetime) (group_alias text : string)
    (run_at : datetime) (created_by : string) (group : Group.t) :
  select_group_by_alias (PyStr.lower group_alias) (db w) = [group] ->
  correlation_keys_unique (db w) ->
  now1 < run_at -> now2 < run_at ->
  exists job w1,
    schedule_job now1 group_alias text run_at created_by None w = (Ok job, w1)
    /\ schedule_job now2 group_alias text run_at created_by None w1 = (Ok job, w1)
    /\ select_job_by_correlation_key
         (_generate_correlation_key (Group.group_id group) text run_at) (db w1)
       = [job].
Proof.
  intros Hgroup Huniq Hnow1 Hnow2.
  set (key := _generate_correlation_key (Group.group_id group) text run_at).
  destruct (at_most_one _ (Huniq key)) as [Hnone | [j Hone]].
  - pose proof (schedule_job_new w now1 group_alias text run_at created_by group
                  Hgroup Hnow1 Hnone) as Hfirst.
    cbv zeta in Hfirst. fold key in Hfirst.
    eexists. eexists. split; [exact Hfirst|].
    assert (Hstored :
      select_job_by_correlation_key key
        (set_jobs (jobs (db w) ++
          [Job.mk (next_id (map Job.id (jobs (db w)))) (Group.group_id group)
             (Group.alias group) text run_at created_by now1
             (Some ("task-" ++ PyStr.of_int (Z.of_nat (List.length (celery w)))))
             SCHEDULED None (Some key)]) (db w))
      = [Job.mk (next_id (map Job.id (jobs (db w)))) (Group.group_id group)
           (Group.alias group) text run_at created_by now1
           (Some ("task-" ++ PyStr.of_int (Z.of_nat (List.length (celery w)))))
           SCHEDULED None (Some key)]).
    { unfold select_job_by_correlation_key in *. cbn [jobs set_jobs].
      rewrite filter_app, Hnone. cbn. now rewrite String.eqb_refl. }
    split; [|exact Hstored].
    apply schedule_job_existing with (group := group); [exact Hgroup|exact Hnow2|].
    exact Hstored.
  - exists j, w. split; [|split].
    + now apply schedule_job_existing with (group := group).
    + now apply schedule_job_existing with (group := group).
    + exact Hone.
Qed.

Lemma schedule_job_idempotent_witness :
  exists job w1,
    schedule_job t0 "team" "hi" (t0 + hours 1) "owner-wa-id" None registered
    = (Ok job, w1)
    /\ schedule_job (t0 + minutes 1) "team" "hi" (t0 + hours 1) "owner-wa-id" None w1
       = (Ok job, w1)
    /\ select_job_by_correlation_key
         (_generate_correlation_key (Group.group_id team) "hi" (t0 + hours 1)) (db w1)
       = [job].
Proof.
  apply (schedule_job_idempotent registered t0 (t0 + minutes 1) "team" "hi"
           (t0 + hours 1) "owner-wa-id" team eq_refl).
  - intros key. vm_compute. lia.
  - vm_compute; reflexivity.
  - vm_compute; reflexivity.
Defined.

(** ** The race on the correlation key *)

(** C5 as stated fails: the request that loses the race gets the
    [IntegrityError] of the unique constraint, not the Job of the winner. *)
Lemma schedule_job_race_is_not_caught :
  schedule_job_interleaved (rival_commit rival) t0 "team" "hi" (t0 + hours 1)
    "owner-wa-id" None registered
  = (Raise IntegrityError,
     mkWorld (rival_commit rival (db registered)) [] []).
Proof. vm_compute. reflexivity. Qed.

(** C5, amended.  A request for a registered alias, not more than five
    minutes late, that finds no Job with its correlation key, while another
    transaction commits one before the flush: the insert violates the unique
    constraint and [schedule_job] raises [IntegrityError] to its caller.
    Nothing catches it and nothing is fetched again; the request stores no
    Job of its own and hands no task to the dispatcher. *)
Theorem schedule_job_conflicting_insert_raises
    (w : World) (concurrent : DB -> DB) (now : datetime)
    (group_alias text : string) (run_at : datetime) (created_by : string)
    (group : Group.t) :
  let scheduled_at := if run_at <=? now then now + seconds 10 else run_at in
  let key := _generate_correlation_key (Group.group_id group) text scheduled_at in
  select_group_by_alias (PyStr.lower group_alias) (db w) = [group] ->
  now - run_at <= minutes 5 ->
  select_job_by_correlation_key key (db w) = [] ->
  select_job_by_correlation_key key (concurrent (db w)) <> [] ->
  schedule_job_interleaved concurrent now group_alias text run_at created_by None w
  = (Raise IntegrityError, mkWorld (concurrent (db w)) (outbox w) (celery w)).
Proof.
  intros scheduled_at key Hgroup Hgrace Hcheck Hrival.
  unfold schedule_job_interleaved, to_utc. run_session.
  rewrite Hgroup. run_session.
  subst key scheduled_at.
  apply Z.leb_le in Hgrace. rewrite Hgrace.
  destruct (run_at <=? now); run_session;
    rewrite Hcheck; run_session; unfold add_job; run_session;
    cbn [Job.correlation_key];
    destruct (select_job_by_correlation_key _ (concurrent (db w)));
    try contradiction; reflexivity.
Qed.

Lemma schedule_job_conflicting_insert_raises_witness :
  schedule_job_interleaved (rival_commit rival) t0 "team" "hi" (t0 + hours 1)
    "owner-wa-id" None registered
  = (Raise IntegrityError,
     mkWorld (rival_commit rival (db registered)) (outbox registered)
       (celery registered)).
Proof.
  apply (schedule_job_conflicting_insert_raises registered (rival_commit rival) t0
           "team" "hi" (t0 + hours 1) "owner-wa-id" team eq_refl).
  - vm_compute; discriminate.
  - vm_compute; reflexivity.
  - vm_compute; discriminate.
Defined.

(** ** Job status *)

Lemma guarded_step_refl (j : Job.t) : guarded_step j j.
Proof. now left. Qed.

Lemma guarded_step_trans (a b c : Job.t) :
  guarded_step a b -> guarded_step b c -> guarded_step a c.
Proof.
  intros [->|(Ha & Hb & Hid)] [->|(Hb' & Hc & Hid')].
  - now left.
  - right. auto.
  - right. auto.
  - right. repeat split; auto. congruence.
Qed.

Lemma guarded_step_terminal (j j' : Job.t) :
  guarded_step j j' -> terminal_for_guards (Job.status j) -> j' = j.
Proof.
  intros [->|([H|H] & _)] [Ht|Ht]; congruence.
Qed.

Lemma Forall2_refl {A} (R : A -> A -> Prop) (l : list A) :
  (forall x, R x x) -> Forall2 R l l.
Proof. intros HR. induction l; constructor; auto. Qed.

Lemma Forall2_trans {A} (R : A -> A -> Prop) (l1 l2 l3 : list A) :
  (forall x y z, R x y -> R y z -> R x z) ->
  Forall2 R l1 l2 -> Forall2 R l2 l3 -> Forall2 R l1 l3.
Proof.
  intros HR H12. revert l3.
  induction H12; intros l3 H23; inversion H23; subst; constructor; eauto.
Qed.

Lemma update_first_found {A} (R : A -> A -> Prop) (p : A -> bool) (f : A -> A)
    (l : list A) (x : A) :
  (forall y, R y y) -> find p l = Some x -> R x (f x) ->
  Forall2 R l (update_first p f l).
Proof.
  intros HR Hfind Hx. induction l as [|y l IH]; simpl in *; [discriminate|].
  destruct (p y).
  - injection Hfind as ->. constructor; [exact Hx|now apply Forall2_refl].
  - constructor; auto.
Qed.

(** C4 as stated fails: [cancel_job] takes a [FAILED] Job to [CANCELLED]. *)
Lemma cancel_job_changes_failed_job :
  exists w',
    cancel_job 1 (world_of_jobs [failed_job]) = (Ok true, w')
    /\ map Job.status (jobs (db (world_of_jobs [failed_job]))) = [FAILED]
    /\ map Job.status (jobs (db w')) = [CANCELLED].
Proof. eexists. repeat split. Qed.

Lemma find_job_has_id (job_id : Z) (l : list Job.t) (job : Job.t) :
  find (job_has_id job_id) l = Some job -> Job.id job = job_id.
Proof.
  intros H. apply find_some in H as [_ H]. now apply Z.eqb_eq in H.
Qed.

Ltac unfold_operations :=
  unfold deliver_fire_event, send_scheduled_message, on_failure, cancel_job,
    mark_job_sent, mark_job_failed, record_correlation, task_retry, get_job,
    update_job.

(** The Job table after one delivery of the fire event: as it was, or with
    the Job of the event, which was neither [CANCELLED] nor [SENT], marked
    [SENT] or [FAILED]. *)
Lemma deliver_fire_event_jobs (settings : Settings) (now : datetime)
    (request_retries : Z) (reply : ClientReply) (job_id : Z) (w : World) :
  let w' := snd (deliver_fire_event settings now request_retries reply job_id w) in
  jobs (db w') = jobs (db w)
  \/ exists job s e,
       find (job_has_id job_id) (jobs (db w)) = Some job
       /\ ~ terminal_for_guards (Job.status job)
       /\ (s = SENT \/ s = FAILED)
       /\ jobs (db w')
          = update_first (job_has_id job_id)
              (fun j => Job.set_last_error e (Job.set_status s j)) (jobs (db w)).
Proof.
  cbv zeta. unfold_operations. run_session.
  destruct (find (job_has_id job_id) (jobs (db w))) as [job|] eqn:Hfind;
    run_session; [|now left].
  rewrite (find_job_has_id _ _ _ Hfind).
  destruct (Job.status job) eqn:Hstatus; run_session; try (now left).
  all: destruct (select_correlation_by_job job_id (db w)) as [|c [|c' cs]];
    run_session; rewrite ?Hfind; run_session.
  all: try (destruct reply as [[|[m|] ms]| |];
            run_session; rewrite ?Hfind; run_session).
  all: try (destruct (filter (correlation_has_bot_message_id m)
                        (message_correlations (db w)));
            run_session; rewrite ?Hfind; run_session).
  all: try (destruct (max_retries <? request_retries + 1);
            run_session; rewrite ?Hfind; run_session).
  all: cbn [snd db jobs set_jobs set_message_correlations].
  all: try (now left).
  all: right; do 3 eexists; split; [reflexivity|];
    (split; [rewrite Hstatus; intros [?|?]; discriminate|]);
    (split; [|reflexivity]); auto.
Qed.

Lemma cancel_job_jobs (job_id : Z) (w : World) :
  Forall2 guarded_step (jobs (db w)) (jobs (db (snd (cancel_job job_id w)))).
Proof.
  unfold_operations. run_session.
  destruct (find (job_has_id job_id) (jobs (db w))) as [job|] eqn:Hfind;
    run_session; [|apply Forall2_refl, guarded_step_refl].
  destruct (Job.status job) eqn:Hstatus; run_session;
    try (apply Forall2_refl, guarded_step_refl).
  all: destruct (Job.celery_task_id job) as [task_id|];
    [destruct (PyStr.is_empty task_id)|]; run_session;
    cbn [snd db jobs set_jobs];
    apply (update_first_found guarded_step _ _ _ job guarded_step_refl Hfind);
    right; rewrite Hstatus; cbn; auto.
Qed.

Lemma perform_jobs (w : World) (op : job_operation) :
  Forall2 guarded_step (jobs (db w)) (jobs (db (perform w op))).
Proof.
  destruct op as [job_id | settings now retries reply job_id]; cbn [perform].
  - apply cancel_job_jobs.
  - destruct (deliver_fire_event_jobs settings now retries reply job_id w)
      as [Hsame | (job & s & e & Hfind & Hopen & Hs & Hjobs)].
    + rewrite Hsame. apply Forall2_refl, guarded_step_refl.
    + rewrite Hjobs.
      apply (update_first_found guarded_step _ _ _ job guarded_step_refl Hfind).
      right. cbn. repeat split.
      * unfold terminal_for_guards in Hopen.
        destruct (Job.status job); auto; exfalso; apply Hopen; auto.
      * destruct Hs as [-> | ->]; auto.
Qed.

(** C4, amended.  Along any sequence of cancellations and fire-event
    deliveries (task body and failure hook, whatever the client answers),
    each stored Job keeps its row or moves from [SCHEDULED] or [FAILED] to
    [SENT], [CANCELLED] or [FAILED]; a Job that is [SENT] or [CANCELLED]
    keeps its row unchanged.  [FAILED] is not final. *)
Theorem job_status_transitions_guarded (ops : list job_operation) (w : World) :
  Forall2
    (fun j j' =>
       guarded_step j j' /\ (terminal_for_guards (Job.status j) -> j' = j))
    (jobs (db w)) (jobs (db (fold_left perform ops w))).
Proof.
  assert (Hruns : Forall2 guarded_step (jobs (db w))
                    (jobs (db (fold_left perform ops w)))).
  { revert w. induction ops as [|op ops IH]; intros w; cbn [fold_left].
    - apply Forall2_refl, guarded_step_refl.
    - eapply Forall2_trans; [exact guarded_step_trans|apply perform_jobs|apply IH]. }
  induction Hruns; constructor; auto.
  split; [assumption|]. now apply guarded_step_terminal.
Qed.

(** [mark_job_sent] and [mark_job_failed] check nothing themselves. *)
Example mark_job_sent_is_unguarded :
  map Job.status
    (jobs (db (snd (mark_job_sent 1
                      (world_of_jobs [Job.set_status CANCELLED scheduled_job])))))
  = [SENT]
  /\ map Job.status
       (jobs (db (snd (mark_job_failed 1 "late"
                         (world_of_jobs [Job.set_status SENT scheduled_job])))))
     = [FAILED].
Proof. split; reflexivity. Qed.

(** A [FAILED] Job whose fire event is delivered again is sent again. *)
Example failed_job_is_sent_again :
  forall settings,
    exists w',
      deliver_fire_event settings t0 0 (Responds [Some "wamid.1"]) 1
        (world_of_jobs [failed_job]) = (Ok tt, w')
      /\ map Job.status (jobs (db w')) = [SENT]
      /\ outbox w' = [SendText "12345@g.us" "hi" "group"].
Proof. intros settings. eexists. repeat split. Qed.

(** ** The job executor under redelivery *)

Lemma find_update_first {A} (p : A -> bool) (f : A -> A) (l : list A) (x : A) :
  find p l = Some x -> p (f x) = true ->
  find p (update_first p f l) = Some (f x).
Proof.
  intros Hfind Hp. induction l as [|y l IH]; simpl in *; [discriminate|].
  destruct (p y) eqn:Hy.
  - injection Hfind as ->. simpl. now rewrite Hp.
  - simpl. rewrite Hy. auto.
Qed.

Lemma deliver_fire_event_settled (settings : Settings) (now : datetime)
    (request_retries : Z) (reply : ClientReply) (job_id : Z) (w : World) :
  settled job_id w ->
  deliver_fire_event settings now request_retries reply job_id w = (Ok tt, w).
Proof.
  unfold settled. unfold_operations. run_session.
  destruct (find (job_has_id job_id) (jobs (db w))) as [job|]; [|reflexivity].
  intros [H|H]; rewrite H; reflexivity.
Qed.




(** ** The correlation tracker *)

Section OrderByLemmas.
Context {A : Type} (le : A -> A -> bool).
Hypothesis le_total : forall a b, le a b = false -> le b a = true.
Hypothesis le_trans : forall a b c, le a b = true -> le b c = true -> le a c = true.

Lemma insert_sorted_In (x y : A) (l : list A) :
  In y (insert_sorted le x l) <-> y = x \/ In y l.
Proof.
  induction l as [|z l IH]; simpl.
  - intuition.
  - destruct (le x z); simpl; rewrite ?IH; intuition.
Qed.

Lemma order_by_In (y : A) (l : list A) : In y (order_by le l) <-> In y l.
Proof.
  induction l as [|x l IH]; simpl; [reflexivity|].
  rewrite insert_sorted_In, IH. intuition.
Qed.

Lemma le_refl (a : A) : le a a = true.
Proof.
  destruct (le a a) eqn:H; [reflexivity|].
  pose proof (le_total _ _ H). congruence.
Qed.

Lemma insert_sorted_head_first (x : A) (l : list A) :
  head_first le l -> head_first le (insert_sorted le x l).
Proof.
  destruct l as [|c l]; simpl.
  - intros _ y [->|[]]. apply le_refl.
  - intros Hc. destruct (le x c) eqn:Hxc; simpl.
    + intros y [->|Hy]; [apply le_refl|]. apply le_trans with c; auto.
    + intros y [->|Hy]; [apply le_refl|].
      apply insert_sorted_In in Hy as [->|Hy]; [now apply le_total|].
      apply Hc. now right.
Qed.

Lemma order_by_head_first (l : list A) : head_first le (order_by le l).
Proof.
  induction l as [|x l IH]; simpl; [exact I|].
  now apply insert_sorted_head_first.
Qed.

Lemma order_by_head (l : list A) (c : A) (rest : list A) :
  order_by le l = c :: rest -> In c l /\ forall y, In y l -> le c y = true.
Proof.
  intros Hsorted. pose proof (order_by_head_first l) as Hhead.
  rewrite Hsorted in Hhead. split.
  - apply order_by_In. rewrite Hsorted. now left.
  - intros y Hy. apply Hhead. rewrite <- Hsorted. now apply order_by_In.
Qed.

Lemma order_by_nil (l : list A) : order_by le l = [] -> l = [].
Proof.
  destruct l as [|x l]; [reflexivity|]. intros Hnil.
  assert (Hin : In x (order_by le (x :: l))) by (apply order_by_In; now left).
  rewrite Hnil in Hin. destruct Hin.
Qed.
End OrderByLemmas.

Lemma select_unexpired_correlations_In (now : datetime) (group_id : string)
    (d : DB) (c : MessageCorrelation.t) :
  In c (select_unexpired_correlations now group_id d)
  <-> In c (message_correlations d)
      /\ MessageCorrelation.group_id c = group_id /\ unexpired now c.
Proof.
  unfold select_unexpired_correlations, unexpired.
  rewrite filter_In, andb_true_iff, String.eqb_eq, Z.ltb_lt. reflexivity.
Qed.

Lemma most_recent_unexpired_query (now : datetime) (group_id : string) (d : DB) :
  match order_by created_at_desc (select_unexpired_correlations now group_id d) with
  | c :: _ =>
      _window_in_future (MessageCorrelation.window_expires_at c) now = true
      /\ most_recent_unexpired now group_id (message_correlations d) (Some c)
  | [] => most_recent_unexpired now group_id (message_correlations d) None
  end.
Proof.
  destruct (order_by created_at_desc
              (select_unexpired_correlations now group_id d)) as [|c rest] eqn:Hsorted.
  - apply order_by_nil in Hsorted. intros c Hin Hgroup Hlive.
    assert (Hc : In c (select_unexpired_correlations now group_id d))
      by (apply select_unexpired_correlations_In; auto).
    rewrite Hsorted in Hc. destruct Hc.
  - apply order_by_head in Hsorted as [Hin Hmax].
    + apply select_unexpired_correlations_In in Hin as (Hin & Hgroup & Hlive).
      split; [now apply Z.ltb_lt|]. repeat split; auto.
      intros c' Hin' Hgroup' Hlive'. apply Z.leb_le. apply (Hmax c').
      apply select_unexpired_correlations_In; auto.
    + unfold created_at_desc. intros a b H. apply Z.leb_gt in H. apply Z.leb_le. lia.
    + unfold created_at_desc. intros a b c0 H1 H2.
      apply Z.leb_le in H1, H2. apply Z.leb_le. lia.
Qed.

Lemma truthy_context (context_message_id : option string) :
  PyStr.truthy context_message_id = true ->
  exists m, context_message_id = Some m /\ m <> EmptyString.
Proof.
  destruct context_message_id as [[|a m]|]; simpl; try discriminate.
  intros _. eexists. split; [reflexivity|discriminate].
Qed.

Lemma not_truthy_context (context_message_id : option string)
    (c : MessageCorrelation.t) :
  PyStr.truthy context_message_id = false -> ~ context_names context_message_id c.
Proof.
  intros Hfalse (m & -> & Hm & _). destruct m; [now apply Hm|discriminate].
Qed.

Lemma select_correlation_by_bot_message_id_In (m : string) (d : DB)
    (c : MessageCorrelation.t) :
  In c (select_correlation_by_bot_message_id (Some m) d)
  <-> In c (message_correlations d) /\ MessageCorrelation.bot_message_id c = m.
Proof.
  unfold select_correlation_by_bot_message_id, option_eqb.
  rewrite filter_In, String.eqb_eq. intuition.
Qed.

(** C7.  On a table that obeys its unique constraint,
    [find_correlation_for_context] returns, reads only, and its result is:
    the correlation whose [bot_message_id] is the context id, when the
    context id is present, names a correlation and that correlation's window
    expires strictly after the clock; otherwise (no context id, none named,
    or the named one expired) the most recently created correlation of the
    group whose window expires strictly after the clock, or [None] when the
    group has no such correlation. *)
Theorem find_correlation_for_context_resolves (now : datetime) (group_id : string)
    (context_message_id : option string) (w : World) :
  bot_message_ids_unique (db w) ->
  exists r,
    find_correlation_for_context now group_id context_message_id w = (Ok r, w)
    /\ ((exists c,
           In c (message_correlations (db w))
           /\ context_names context_message_id c /\ unexpired now c
           /\ r = Some c)
        \/ ((forall c, In c (message_correlations (db w)) ->
                       context_names context_message_id c -> ~ unexpired now c)
            /\ most_recent_unexpired now group_id (message_correlations (db w)) r)).
Proof.
  intros Hunique.
  pose proof (most_recent_unexpired_query now group_id (db w)) as Hrecent.
  unfold find_correlation_for_context. run_session.
  destruct (PyStr.truthy context_message_id) eqn:Hcontext.
  - destruct (truthy_context _ Hcontext) as (m & -> & Hm).
    destruct (at_most_one _ (Hunique m)) as [Hnone | [c Hone]].
    + rewrite Hnone. run_session.
      assert (Hunnamed : forall c, In c (message_correlations (db w)) ->
                context_names (Some m) c -> ~ unexpired now c).
      { intros c Hin (m' & [= <-] & _ & Hid).
        assert (Hc : In c (select_correlation_by_bot_message_id (Some m) (db w)))
          by (apply select_correlation_by_bot_message_id_In; auto).
        rewrite Hnone in Hc. destruct Hc. }
      destruct (order_by created_at_desc
                  (select_unexpired_correlations now group_id (db w))) as [|c0 rest].
      * eexists. split; [reflexivity|]. right. auto.
      * destruct Hrecent as [-> Hrecent]. eexists. split; [reflexivity|].
        right. auto.
    + rewrite Hone. run_session.
      assert (Hc : In c (select_correlation_by_bot_message_id (Some m) (db w)))
        by (rewrite Hone; now left).
      apply select_correlation_by_bot_message_id_In in Hc as [Hin Hid].
      destruct (_window_in_future (MessageCorrelation.window_expires_at c) now)
        eqn:Hwindow; run_session.
      * eexists. split; [reflexivity|]. left. exists c.
        repeat split; auto.
        -- exists m. auto.
        -- now apply Z.ltb_lt.
      * assert (Hunnamed : forall c', In c' (message_correlations (db w)) ->
                  context_names (Some m) c' -> ~ unexpired now c').
        { intros c' Hin' (m' & [= <-] & _ & Hid').
          assert (Hc' : In c' (select_correlation_by_bot_message_id (Some m) (db w)))
            by (apply select_correlation_by_bot_message_id_In; auto).
          rewrite Hone in Hc'. destruct Hc' as [<-|[]].
          unfold unexpired. apply Z.ltb_ge in Hwindow. lia. }
        destruct (order_by created_at_desc
                    (select_unexpired_correlations now group_id (db w)))
          as [|c0 rest].
        -- eexists. split; [reflexivity|]. right. auto.
        -- destruct Hrecent as [-> Hrecent]. eexists. split; [reflexivity|].
           right. auto.
  - run_session.
    assert (Hunnamed : forall c, In c (message_correlations (db w)) ->
              context_names context_message_id c -> ~ unexpired now c).
    { intros c _ Hnames. exfalso. now apply (not_truthy_context _ c Hcontext). }
    destruct (order_by created_at_desc
                (select_unexpired_correlations now group_id (db w))) as [|c0 rest].
    + eexists. split; [reflexivity|]. right. auto.
    + destruct Hrecent as [-> Hrecent]. eexists. split; [reflexivity|].
      right. auto.
Qed.

Lemma find_correlation_for_context_resolves_witness :
  exists r,
    find_correlation_for_context (t0 + hours 2) "12345@g.us" (Some "wamid.1")
      world_of_correlations = (Ok r, world_of_correlations)
    /\ ((exists c,
           In c (message_correlations (db world_of_correlations))
           /\ context_names (Some "wamid.1") c /\ unexpired (t0 + hours 2) c
           /\ r = Some c)
        \/ ((forall c, In c (message_correlations (db world_of_correlations)) ->
                       context_names (Some "wamid.1") c ->
                       ~ unexpired (t0 + hours 2) c)
            /\ most_recent_unexpired (t0 + hours 2) "12345@g.us"
                 (message_correlations (db world_of_correlations)) r)).
Proof.
  apply (find_correlation_for_context_resolves (t0 + hours 2) "12345@g.us"
           (Some "wamid.1") world_of_correlations).
  intros m. unfold select_correlation_by_bot_message_id, option_eqb.
  cbn [world_of_correlations db message_correlations filter correlation_1
       correlation_2 MessageCorrelation.bot_message_id].
  destruct (String.eqb m "wamid.1") eqn:H1; destruct (String.eqb m "wamid.2") eqn:H2;
    cbn [List.length]; try lia.
  apply String.eqb_eq in H1, H2. subst m. discriminate.
Defined.

Example resolve_by_context_and_by_recency :
  fst (find_correlation_for_context (t0 + hours 2) "12345@g.us" (Some "wamid.1")
         world_of_correlations) = Ok (Some correlation_1)
  /\ fst (find_correlation_for_context (t0 + hours 2) "12345@g.us" None
            world_of_correlations) = Ok (Some correlation_2)
  /\ fst (find_correlation_for_context (t0 + hours 12) "12345@g.us" (Some "wamid.1")
            world_of_correlations) = Ok (Some correlation_2)
  /\ fst (find_correlation_for_context (t0 + hours 13) "12345@g.us" (Some "wamid.1")
            world_of_correlations) = Ok None.
Proof. repeat split. Qed.

(** ** The owner message handler *)

Lemma parse_owner_command_blank (message : string) :
  PyStr.strip message = EmptyString ->
  parse_owner_command message
  = Raise (CommandParseError "Unable to understand the command.").
Proof. intros Hblank. unfold parse_owner_command. rewrite Hblank. reflexivity. Qed.

(** C8.  Blank content for an armed pending schedule:
    [_complete_pending_schedule] sends the owner the empty-content message
    and returns; the database, its [PendingSchedule] row and its Job table
    included, is what it was, and nothing is handed to the dispatcher.  The
    same holds of [process_owner_message] on a whitespace-only text from
    the owner while a schedule is pending. *)
Theorem blank_content_keeps_pending_schedule
    (parse_natural_datetime : datetime -> string -> option datetime)
    (strftime_local : datetime -> string) (settings : Settings) (now : datetime)
    (pending : PendingSchedule.t) (content : string) (w : World) :
  PyStr.strip content = EmptyString ->
  _complete_pending_schedule strftime_local settings now pending content w
  = (Ok tt, mkWorld (db w) (outbox w ++ [empty_content_reply settings]) (celery w))
  /\ forall message,
       sender_wa_id message = owner_wa_id settings ->
       PyStr.truthy (button_payload message) = false ->
       text message = Some content ->
       content <> EmptyString ->
       select_pending_by_owner (owner_wa_id settings) (db w) = [pending] ->
       process_owner_message parse_natural_datetime strftime_local settings now
         message w
       = (Ok tt,
          mkWorld (db w) (outbox w ++ [empty_content_reply settings]) (celery w)).
Proof.
  intros Hblank.
  assert (Hcomplete :
    _complete_pending_schedule strftime_local settings now pending content w
    = (Ok tt, mkWorld (db w) (outbox w ++ [empty_content_reply settings]) (celery w))).
  { unfold _complete_pending_schedule. rewrite Hblank. reflexivity. }
  split; [exact Hcomplete|].
  intros message Hsender Hbutton Htext Hcontent Hpending.
  unfold process_owner_message, get_pending_schedule. run_session.
  rewrite Hsender, String.eqb_refl. cbn [negb]. run_session.
  rewrite Hpending. run_session. rewrite Hbutton, Htext.
  destruct content as [|a content']; [contradiction|].
  rewrite (parse_owner_command_blank _ Hblank). run_session.
  rewrite Hcomplete. reflexivity.
Qed.

Lemma blank_content_keeps_pending_schedule_witness :
  _complete_pending_schedule (fun _ => "2024-01-01 09:00 IST") settings_of_tests
    (t0 + minutes 1) pending_of_tests "   " armed
  = (Ok tt, mkWorld (db armed) [empty_content_reply settings_of_tests] [])
  /\ process_owner_message (fun _ _ => None) (fun _ => "2024-01-01 09:00 IST")
       settings_of_tests (t0 + minutes 1) (message_of "owner-wa-id" (Some "   "))
       armed
     = (Ok tt, mkWorld (db armed) [empty_content_reply settings_of_tests] []).
Proof.
  pose proof (blank_content_keeps_pending_schedule (fun _ _ => None)
                (fun _ => "2024-01-01 09:00 IST") settings_of_tests (t0 + minutes 1)
                pending_of_tests "   " armed eq_refl) as [Hcomplete Hprocess].
  split; [exact Hcomplete|].
  apply Hprocess; try reflexivity. discriminate.
Defined.

(** C9.  A message whose sender is not the configured owner:
    [process_owner_message] returns and the world is what it was, whatever
    the message holds and whatever the time parser would answer: no command
    is parsed, no row is written, nothing is sent and nothing is handed to
    the dispatcher. *)
Theorem unauthorized_sender_is_ignored
    (parse_natural_datetime : datetime -> string -> option datetime)
    (strftime_local : datetime -> string) (settings : Settings) (now : datetime)
    (message : IncomingMessage) (w : World) :
  sender_wa_id message <> owner_wa_id settings ->
  process_owner_message parse_natural_datetime strftime_local settings now message w
  = (Ok tt, w).
Proof.
  intros Hsender. unfold process_owner_message. run_session.
  apply String.eqb_neq in Hsender. rewrite Hsender. cbn [negb].
  destruct w; reflexivity.
Qed.

Lemma unauthorized_sender_is_ignored_witness :
  process_owner_message (fun _ _ => None) (fun _ => "2024-01-01 09:00 IST")
    settings_of_tests t0 (message_of "stranger" (Some "list")) armed
  = (Ok tt, armed).
Proof.
  apply (unauthorized_sender_is_ignored (fun _ _ => None)
           (fun _ => "2024-01-01 09:00 IST") settings_of_tests t0
           (message_of "stranger" (Some "list")) armed).
  discriminate.
Defined.

(** ** Jobs and the group registry *)

(** C10.  The destination of a Job is the one stored in its row.
    [register_group] and [unregister_group], whatever they are given and
    whether they return or raise, leave the Job table as it is; and the
    delivery of the fire event for a Job that is due (neither [CANCELLED] nor
    [SENT], no correlation row yet) hands the client one message, addressed
    to the [group_id] of the Job row and carrying its text, whatever the
    group registry holds. *)
Theorem job_destination_is_snapshot :
  (forall now alias group_id group_name w,
     jobs (db (snd (register_group now alias group_id group_name w))) = jobs (db w))
  /\ (forall alias w, jobs (db (snd (unregister_group alias w))) = jobs (db w))
  /\ (forall settings now request_retries reply job_id w job,
        find (job_has_id job_id) (jobs (db w)) = Some job ->
        ~ terminal_for_guards (Job.status job) ->
        select_correlation_by_job job_id (db w) = [] ->
        outbox (snd (deliver_fire_event settings now request_retries reply job_id w))
        = (outbox w
           ++ [SendText (Job.group_id job) (Job.text job)
                 (recipient_type_of (Job.group_id job))])%list).
Proof.
  split; [|split].
  - intros now alias group_id group_name w. unfold register_group. run_session.
    destruct (select_group_by_alias (PyStr.lower alias) (db w)) as [|g [|g' gs]];
      reflexivity.
  - intros alias w. unfold unregister_group. run_session.
    destruct (select_group_by_alias (PyStr.lower alias) (db w)) as [|g [|g' gs]];
      reflexivity.
  - intros settings now request_retries reply job_id w job Hfind Hopen Hnone.
    unfold_operations. run_session. rewrite Hfind. run_session.
    rewrite (find_job_has_id _ _ _ Hfind). unfold recipient_type_of.
    destruct (Job.status job) eqn:Hstatus; run_session.
    2, 3: exfalso; apply Hopen; unfold terminal_for_guards; auto.
    all: rewrite Hnone; run_session.
    all: destruct reply as [[|[m|] ms]| |]; run_session; rewrite ?Hfind; run_session.
    all: try (destruct (filter (correlation_has_bot_message_id m)
                          (message_correlations (db w)));
              run_session; rewrite ?Hfind; run_session).
    all: try (destruct (max_retries <? request_retries + 1);
              run_session; rewrite ?Hfind; run_session).
    all: reflexivity.
Qed.

Lemma job_destination_is_snapshot_witness :
  map Group.group_id (groups (db reregistered)) = ["99999@g.us"]
  /\ jobs (db reregistered) = [scheduled_job]
  /\ outbox (snd (deliver_fire_event settings_of_tests (t0 + hours 1) 0
                    (Responds [Some "wamid.1"]) 1 reregistered))
     = [SendText "12345@g.us" "hi" "group"].
Proof.
  split; [reflexivity|]. split.
  - exact (proj1 job_destination_is_snapshot (t0 + minutes 1) "team" "99999@g.us"
             None (world_of_jobs [scheduled_job])).
  - refine (proj2 (proj2 job_destination_is_snapshot) settings_of_tests
              (t0 + hours 1) 0 (Responds [Some "wamid.1"]) 1 reregistered
              scheduled_job eq_refl _ eq_refl).
    intros [H|H]; discriminate H.
Defined.

(** ** The unique constraints are kept *)

Lemma keys_unique_after_insert (d : DB) (job : Job.t) (key : string) :
  correlation_keys_unique d ->
  select_job_by_correlation_key key d = [] ->
  Job.correlation_key job = Some key ->
  correlation_keys_unique (set_jobs (jobs d ++ [job]) d).
Proof.
  intros Hunique Hnone Hkey k. specialize (Hunique k).
  unfold select_job_by_correlation_key in *. cbn [jobs set_jobs].
  rewrite filter_app, length_app. cbn [filter]. rewrite Hkey. cbn [option_eqb].
  destruct (String.eqb key k) eqn:Hk; cbn [List.length]; [|lia].
  apply String.eqb_eq in Hk. subst k. rewrite Hnone. cbn. lia.
Qed.

(** [schedule_job] keeps the unique constraint on [correlation_key], with
    or without a key given by the caller. *)
Lemma schedule_job_keeps_keys_unique (now : datetime) (group_alias text : string)
    (run_at : datetime) (created_by : string) (correlation_key : option string)
    (w : World) :
  correlation_keys_unique (db w) ->
  correlation_keys_unique
    (db (snd (schedule_job now group_alias text run_at created_by correlation_key w))).
Proof.
  intros Hunique.
  unfold schedule_job, schedule_job_interleaved, to_utc. run_session.
  destruct (select_group_by_alias (PyStr.lower group_alias) (db w))
    as [|group [|group' gs]]; run_session; try assumption.
  destruct (run_at <=? now); [destruct (now - run_at <=? minutes 5)|];
    run_session; try assumption.
  all: destruct correlation_key as [k|]; [destruct (PyStr.is_empty k)|].
  all: match goal with
       | |- context [select_job_by_correlation_key ?key ?d] =>
           destruct (select_job_by_correlation_key key d)
             as [|j [|j' js]] eqn:Hnone
       end; run_session; try assumption.
  all: unfold add_job; run_session; cbn [Job.correlation_key];
    rewrite Hnone; run_session; unfold send_task, update_job; run_session;
    cbn [snd db jobs set_jobs Job.id Job.set_id];
    (rewrite update_first_app_fresh;
     [|intros x Hx; now apply job_has_fresh_id
      |unfold job_has_id; cbn; apply Z.eqb_refl]);
    eapply (keys_unique_after_insert (db w));
    [exact Hunique|exact Hnone|reflexivity].
Qed.

(** [record_correlation] keeps the unique constraint on [bot_message_id]. *)
Lemma record_correlation_keeps_ids_unique (settings : Settings) (now : datetime)
    (job_id : Z) (group_id : string) (bot_message_id original : option string)
    (w : World) :
  bot_message_ids_unique (db w) ->
  bot_message_ids_unique
    (db (snd (record_correlation settings now job_id group_id bot_message_id
                original w))).
Proof.
  intros Hunique. unfold record_correlation. run_session.
  destruct bot_message_id as [m|]; run_session; [|assumption].
  destruct (filter (correlation_has_bot_message_id m) (message_correlations (db w)))
    as [|c cs] eqn:Hnone; run_session; [|assumption].
  cbn [snd db]. intros k. specialize (Hunique k).
  unfold select_correlation_by_bot_message_id, correlation_has_bot_message_id in *.
  cbn [message_correlations set_message_correlations].
  rewrite filter_app, length_app.
  cbn [filter option_eqb MessageCorrelation.bot_message_id] in *.
  destruct (String.eqb k m) eqn:Hk; cbn [List.length]; [|lia].
  apply String.eqb_eq in Hk. subst k.
  erewrite filter_ext; [rewrite Hnone; cbn; lia|].
  intros c. apply String.eqb_sym.
Qed.

(** ** The flows of [tests/] on the model *)

(** [tests/test_scheduler.py]: a Job scheduled one hour ahead is stored
    [SCHEDULED] with a task id, one task is submitted, [list_jobs] shows the
    Job and [cancel_job] returns [True]. *)
Example schedule_and_cancel_job :
  exists job w1 w2,
    schedule_job t0 "team" "Daily update" (t0 + hours 1) "owner-wa-id" None registered
    = (Ok job, w1)
    /\ Job.status job = SCHEDULED
    /\ Job.celery_task_id job = Some "task-0"
    /\ celery w1
       = [SendTask "app.workers.send_scheduled_message" (Job.id job) (t0 + hours 1)
            "task-0"]
    /\ fst (list_jobs w1) = Ok [job]
    /\ cancel_job (Job.id job) w1 = (Ok true, w2)
    /\ map Job.status (jobs (db w2)) = [CANCELLED]
    /\ celery w2 = (celery w1 ++ [Revoke "task-0"])%list.
Proof.
  do 3 eexists. split; [vm_compute; reflexivity|].
  repeat split; vm_compute; reflexivity.
Qed.

(** [tests/test_webhook_owner.py], the two-step flow, on this code: the
    configuration message is not understood, the owner gets the usage help
    and no [PendingSchedule] row is stored. *)
Example two_step_flow_stores_no_pending_schedule :
  process_owner_message (fun _ _ => Some (t0 + hours 27))
    (fun _ => "2024-01-02 08:55 IST") settings_of_tests t0
    (message_of "owner-wa-id" (Some "schedule to team at tomorrow 08:55"))
    registered
  = (Ok tt,
     mkWorld (db registered)
       [SendText "owner-wa-id"
          ("Could not parse command." ++ newline ++ _owner_command_help)
          "individual"]
       []).
Proof. vm_compute. reflexivity. Qed.

(** The one-step flow of the same file: the command with quoted text
    stores one Job and answers the owner. *)
Example one_step_flow_stores_a_job :
  exists w',
    process_owner_message (fun _ _ => Some (t0 + hours 3))
      (fun _ => "2024-01-01 08:55 IST") settings_of_tests t0
      (message_of "owner-wa-id"
         (Some ("schedule " ++ dquote ++ "Daily sync" ++ dquote
                ++ " to team at today 08:55")))
      registered
    = (Ok tt, w')
    /\ map Job.text (jobs (db w')) = ["Daily sync"]
    /\ outbox w'
       = [SendText "owner-wa-id"
            "Scheduled job #1 to 'team' at 2024-01-01 08:55 IST." "individual"].
Proof. eexists. split; [vm_compute; reflexivity|]. split; reflexivity. Qed.

(** ** The command interpreter on well-formed commands *)

Lemma rstrip_idempotent (s : string) : PyStr.rstrip (PyStr.rstrip s) = PyStr.rstrip s.
Proof.
  induction s as [|c s IH]; [reflexivity|].
  cbn [PyStr.rstrip]. destruct (PyStr.rstrip s) as [|a r] eqn:Hr.
  - destruct (PyStr.isspace c) eqn:Hc; [reflexivity|].
    cbn [PyStr.rstrip]. now rewrite Hc.
  - now apply rstrip_cons_nonempty.
Qed.

Lemma lstrip_fixed (s : string) :
  PyStr.lstrip (PyStr.rstrip (PyStr.lstrip s)) = PyStr.rstrip (PyStr.lstrip s).
Proof.
  induction s as [|c s IH]; [reflexivity|].
  cbn [PyStr.lstrip]. destruct (PyStr.isspace c) eqn:Hc; [exact IH|].
  rewrite rstrip_cons_nonspace by exact Hc. cbn [PyStr.lstrip]. now rewrite Hc.
Qed.

Lemma strip_idempotent (s : string) : PyStr.strip (PyStr.strip s) = PyStr.strip s.
Proof.
  unfold PyStr.strip. rewrite lstrip_fixed. apply rstrip_idempotent.
Qed.

(** X1.  [parse_owner_command] reads its message up to the whitespace
    around it: a message and its [strip] parse alike, to the same command or
    the same error. *)
Theorem parse_owner_command_strip (message : string) :
  parse_owner_command (PyStr.strip message) = parse_owner_command message.
Proof.
  unfold parse_owner_command. now rewrite strip_idempotent.
Qed.

Lemma rstrip_app (a b : string) :
  PyStr.rstrip b <> EmptyString -> PyStr.rstrip (a ++ b) = a ++ PyStr.rstrip b.
Proof.
  intros Hb. induction a as [|c a IH]; [reflexivity|].
  cbn [append]. cbn [PyStr.rstrip]. rewrite IH.
  destruct (a ++ PyStr.rstrip b) as [|x r] eqn:Hab; [|reflexivity].
  destruct a; cbn in Hab; [contradiction|discriminate].
Qed.

Lemma rstrip_no_space (s : string) :
  all_chars (fun c => negb (PyStr.isspace c)) s = true -> PyStr.rstrip s = s.
Proof.
  induction s as [|c s IH]; [reflexivity|].
  cbn [all_chars]. intros H. apply andb_true_iff in H as [Hc Hs].
  apply negb_true_iff in Hc. rewrite rstrip_cons_nonspace by exact Hc.
  now rewrite IH.
Qed.

Lemma all_chars_weaken (p q : ascii -> bool) (s : string) :
  (forall c, p c = true -> q c = true) -> all_chars p s = true -> all_chars q s = true.
Proof.
  intros Hpq. induction s as [|c s IH]; [reflexivity|].
  cbn [all_chars]. rewrite !andb_true_iff. intros [Hc Hs]. auto.
Qed.


Lemma alias_char_not_space (c : ascii) :
  Regex.cls_match alias_cls c = true -> negb (PyStr.isspace c) = true.
Proof. destruct c as [[] [] [] [] [] [] [] []]; vm_compute; congruence. Qed.

Lemma group_id_char_not_space (c : ascii) :
  Regex.cls_match group_id_cls c = true -> negb (PyStr.isspace c) = true.
Proof. destruct c as [[] [] [] [] [] [] [] []]; vm_compute; congruence. Qed.

Lemma lit_char_matches (c : ascii) : Regex.cls_match (CLit c) c = true.
Proof. cbn. apply Ascii.eqb_refl. Qed.

Lemma length_append (a b : string) :
  String.length (a ++ b) = (String.length a + String.length b)%nat.
Proof. induction a as [|c a IH]; cbn; [reflexivity|now rewrite IH]. Qed.

Lemma consumed_app (a b : string) : Regex.consumed (a ++ b) b = a.
Proof.
  unfold Regex.consumed. rewrite length_append.
  replace (String.length a + String.length b - String.length b)%nat
    with (String.length a) by lia.
  induction a as [|c a IH]; cbn.
  - destruct b; reflexivity.
  - now rewrite IH.
Qed.

Lemma consumed_all (a : string) : Regex.consumed a EmptyString = a.
Proof.
  assert (Ha : a ++ EmptyString = a).
  { induction a as [|c a IH]; cbn [append]; [reflexivity|now rewrite IH]. }
  pose proof (consumed_app a EmptyString) as H.
  now rewrite Ha in H.
Qed.

Section Repetition.
Context {A : Type} (p : ascii -> bool).

(** A greedy repetition takes the whole string when what follows accepts
    the end. *)
Lemma plus_greedy_all (s : string) (k : string -> option A) (r : A) :
  s <> EmptyString -> all_chars p s = true -> k EmptyString = Some r ->
  plus_greedy p s k = Some r.
Proof.
  intros Hs Hall Hk. induction s as [|c s IH]; [contradiction|].
  cbn [all_chars] in Hall. apply andb_true_iff in Hall as [Hc Hall].
  cbn [plus_greedy]. rewrite Hc. destruct s as [|c' s'].
  - cbn [plus_greedy]. exact Hk.
  - rewrite IH; [reflexivity|discriminate|exact Hall].
Qed.

(** A greedy repetition takes the run of its class up to the first
    character outside it, when what follows accepts the rest. *)
Lemma plus_greedy_run (a : string) (c : ascii) (rest : string)
    (k : string -> option A) (r : A) :
  a <> EmptyString -> all_chars p a = true -> p c = false ->
  k (String c rest) = Some r ->
  plus_greedy p (a ++ String c rest) k = Some r.
Proof.
  intros Ha Hall Hc Hk. induction a as [|x a IH]; [contradiction|].
  cbn [all_chars] in Hall. apply andb_true_iff in Hall as [Hx Hall].
  cbn [append plus_greedy]. rewrite Hx. destruct a as [|x' a'].
  - cbn [append plus_greedy]. rewrite Hc. exact Hk.
  - rewrite IH; [reflexivity|discriminate|exact Hall].
Qed.

(** A lazy repetition stops at the first place where what follows
    accepts. *)
Lemma plus_lazy_run (q : ascii -> bool) (a rest : string)
    (k : string -> option A) (r : A) :
  a <> EmptyString -> all_chars p a = true -> all_chars q a = true ->
  (forall x s, q x = true -> k (String x s) = None) ->
  k rest = Some r ->
  plus_lazy p (a ++ rest) k = Some r.
Proof.
  intros Ha Hp Hq Hfail Hk. induction a as [|x a IH]; [contradiction|].
  cbn [all_chars] in Hp, Hq.
  apply andb_true_iff in Hp as [Hx Hp]. apply andb_true_iff in Hq as [Hqx Hq].
  cbn [append plus_lazy]. rewrite Hx. destruct a as [|x' a'].
  - cbn [append]. now rewrite Hk.
  - cbn [all_chars] in Hq. apply andb_true_iff in Hq as [Hqx' Hq'].
    cbn [append]. rewrite (Hfail x' _ Hqx').
    apply IH; [discriminate|exact Hp|].
    cbn [all_chars]. now rewrite Hqx', Hq'.
Qed.
End Repetition.

Lemma lstrip_length (s : string) :
  (String.length (PyStr.lstrip s) <= String.length s)%nat.
Proof.
  induction s as [|c s IH]; cbn [PyStr.lstrip]; [lia|].
  destruct (PyStr.isspace c); cbn [String.length]; lia.
Qed.

Lemma trimmed_starts_without_space (s : string) :
  trimmed s -> starts_without_space s.
Proof.
  intros (Hs & Hl & _). destruct s as [|c s]; [contradiction|].
  cbn [starts_without_space]. cbn [PyStr.lstrip] in Hl.
  destruct (PyStr.isspace c); [|reflexivity].
  pose proof (lstrip_length s) as Hlen. rewrite Hl in Hlen.
  cbn [String.length] in Hlen. lia.
Qed.

Lemma all_chars_starts_without_space (p : ascii -> bool) (s : string) :
  (forall c, p c = true -> negb (PyStr.isspace c) = true) ->
  s <> EmptyString -> all_chars p s = true -> starts_without_space s.
Proof.
  intros Hp Hs Hall. destruct s as [|c s]; [contradiction|].
  cbn [all_chars] in Hall. apply andb_true_iff in Hall as [Hc _].
  cbn. apply negb_true_iff. auto.
Qed.

Lemma starts_without_space_lstrip (s : string) :
  starts_without_space s -> PyStr.lstrip s = s.
Proof.
  destruct s as [|c s]; [contradiction|]. cbn. now intros ->.
Qed.

Section RunSteps.
Variables (caps : captures) (k : string -> captures -> option captures).

Lemma run_cat (r1 r2 : rx) (s : string) :
  run (Cat r1 r2) s caps k = run r1 s caps (fun s' caps' => run r2 s' caps' k).
Proof. reflexivity. Qed.

Lemma run_lit (l s : string) : run (lit l) (l ++ s) caps k = k s caps.
Proof.
  induction l as [|c l IH]; [reflexivity|].
  cbn [lit append]. rewrite run_cat. cbn [run].
  rewrite lit_char_matches. exact IH.
Qed.

Lemma run_chr (c : cls) (a : ascii) (s : string) :
  cls_match c a = true -> run (Chr c) (String a s) caps k = k s caps.
Proof. intros H. cbn [run]. now rewrite H. Qed.

Lemma run_spaces_one (s : string) :
  starts_without_space s -> run spaces (String " " s) caps k = k s caps.
Proof.
  destruct s as [|c s]; [contradiction|]. cbn [starts_without_space]. intros Hc.
  unfold spaces. cbn [run plus_greedy cls_match].
  change (PyStr.isspace " ") with true. cbv iota. now rewrite Hc.
Qed.

Lemma run_spaces_none : run spaces EmptyString caps k = None.
Proof. reflexivity. Qed.

Lemma run_group_greedy_run (name : string) (c : cls) (a : string) (x : ascii)
    (rest : string) (r : captures) :
  a <> EmptyString -> all_chars (cls_match c) a = true -> cls_match c x = false ->
  k (String x rest) ((name, a) :: caps) = Some r ->
  run (Group name (Plus true c)) (a ++ String x rest) caps k = Some r.
Proof.
  intros Ha Hall Hx Hk. cbn [run].
  apply plus_greedy_run; auto. now rewrite consumed_app.
Qed.

Lemma run_group_greedy_all (name : string) (c : cls) (a : string) (r : captures) :
  a <> EmptyString -> all_chars (cls_match c) a = true ->
  k EmptyString ((name, a) :: caps) = Some r ->
  run (Group name (Plus true c)) a caps k = Some r.
Proof.
  intros Ha Hall Hk. cbn [run].
  apply plus_greedy_all; auto. now rewrite consumed_all.
Qed.

Lemma run_group_lazy_run (name : string) (c : cls) (q : ascii -> bool)
    (a rest : string) (r : captures) :
  a <> EmptyString -> all_chars (cls_match c) a = true -> all_chars q a = true ->
  (forall x s caps', q x = true -> k (String x s) caps' = None) ->
  k rest ((name, a) :: caps) = Some r ->
  run (Group name (Plus false c)) (a ++ rest) caps k = Some r.
Proof.
  intros Ha Hall Hq Hfail Hk. cbn [run].
  apply plus_lazy_run with (q := q); auto. now rewrite consumed_app.
Qed.
End RunSteps.

Lemma schedule_re_head (c : ascii) (s : string) :
  cls_match (CLit "s") c = false -> re_match SCHEDULE_RE (String c s) = None.
Proof.
  intros H. unfold re_match, SCHEDULE_RE. cbn [seq lit]. rewrite !run_cat.
  cbn [run]. now rewrite H.
Qed.

Lemma register_re_head (c : ascii) (s : string) :
  cls_match (CLit "r") c = false -> re_match REGISTER_RE (String c s) = None.
Proof.
  intros H. unfold re_match, REGISTER_RE. cbn [seq lit]. rewrite !run_cat.
  cbn [run]. now rewrite H.
Qed.


Lemma strip_command (head tail : string) :
  starts_without_space head -> PyStr.rstrip tail = tail -> tail <> EmptyString ->
  PyStr.strip (head ++ tail) = head ++ tail.
Proof.
  intros Hhead Htail Hne. unfold PyStr.strip.
  rewrite starts_without_space_lstrip.
  - rewrite rstrip_app; [now rewrite Htail|]. now rewrite Htail.
  - destruct head as [|c head]; [contradiction|]. exact Hhead.
Qed.



Lemma alias_char_not_space_false (c : ascii) :
  PyStr.isspace c = true -> cls_match alias_cls c = false.
Proof. destruct c as [[] [] [] [] [] [] [] []]; vm_compute; congruence. Qed.

(** X3.  A message [unregister group <alias>], for any non-empty alias of
    word characters and hyphens, parses to the [UnregisterGroupCommand] of
    that alias, as typed. *)
Theorem parse_unregister_alias (alias : string) :
  alias <> EmptyString -> all_chars (cls_match alias_cls) alias = true ->
  parse_owner_command ("unregister group " ++ alias)
  = Ok (UnregisterGroupCommand alias).
Proof.
  intros Hne Halias.
  assert (Hnospace : all_chars (fun c => negb (PyStr.isspace c)) alias = true)
    by (apply all_chars_weaken with (p := cls_match alias_cls);
        [exact alias_char_not_space|exact Halias]).
  unfold parse_owner_command.
  rewrite (strip_command "unregister group " alias);
    [|reflexivity|now apply rstrip_no_space|exact Hne].
  change ("unregister group " ++ alias)
    with (String "u" ("nregister group " ++ alias)).
  rewrite schedule_re_head, register_re_head by reflexivity.
  change (String "u" ("nregister group " ++ alias))
    with ("unregister" ++ String " " ("group" ++ String " " alias)).
  assert (Hmatch :
    re_match UNREGISTER_RE ("unregister" ++ String " " ("group" ++ String " " alias))
    = Some [("alias", alias)]).
  { unfold re_match, UNREGISTER_RE. cbn [seq].
    rewrite run_cat, run_lit, run_cat, run_spaces_one by reflexivity.
    rewrite run_cat, run_lit, run_cat, run_spaces_one, run_cat.
    - apply run_group_greedy_all; [exact Hne|exact Halias|reflexivity].
    - apply (all_chars_starts_without_space (cls_match alias_cls));
        [exact alias_char_not_space|exact Hne|exact Halias]. }
  rewrite Hmatch. reflexivity.
Qed.

Lemma rstrip_app_nonempty (a b : string) :
  PyStr.rstrip b <> EmptyString -> PyStr.rstrip (a ++ b) <> EmptyString.
Proof.
  intros Hb. rewrite rstrip_app by exact Hb.
  destruct a; cbn [append]; [exact Hb|discriminate].
Qed.

Lemma starts_without_space_app (a b : string) :
  starts_without_space a -> starts_without_space (a ++ b).
Proof. destruct a; [contradiction|]. cbn. auto. Qed.

Lemma text_char_is_line_char (c : ascii) :
  text_char c = true -> cls_match CAny c = true.
Proof. unfold text_char. cbn. now intros [H _]%andb_true_iff. Qed.

Lemma text_char_not_quote (c : ascii) :
  text_char c = true -> cls_match (CLit "034") c = false.
Proof. destruct c as [[] [] [] [] [] [] [] []]; vm_compute; congruence. Qed.

(** X4.  A message [schedule "<text>" to <alias> at <when>] parses to the
    [ScheduleCommand] of exactly these three parts, for any non-empty text
    without quote or newline, any non-empty alias of word characters and
    hyphens, and any time phrase on one line without whitespace around
    it. *)
Theorem parse_schedule_parts (text alias when : string) :
  text <> EmptyString -> all_chars text_char text = true ->
  alias <> EmptyString -> all_chars (cls_match alias_cls) alias = true ->
  trimmed when -> all_chars line_char when = true ->
  parse_owner_command
    ("schedule " ++ dquote ++ text ++ dquote ++ " to " ++ alias ++ " at " ++ when)
  = Ok (ScheduleCommand text alias when).
Proof.
  intros Htext_ne Htext Halias_ne Halias Hwhen Hline.
  pose proof (trimmed_starts_without_space _ Hwhen) as Hwhen_start.
  destruct Hwhen as (Hwhen_ne & _ & Hwhen_r).
  unfold parse_owner_command.
  assert (Hstrip :
    PyStr.strip
      ("schedule " ++ dquote ++ text ++ dquote ++ " to " ++ alias ++ " at " ++ when)
    = "schedule " ++ dquote ++ text ++ dquote ++ " to " ++ alias ++ " at " ++ when).
  { unfold PyStr.strip. rewrite starts_without_space_lstrip by reflexivity.
    rewrite !rstrip_app.
    1: now rewrite Hwhen_r.
    all: repeat apply rstrip_app_nonempty; rewrite Hwhen_r; exact Hwhen_ne. }
  rewrite Hstrip.
  assert (Hmatch :
    re_match SCHEDULE_RE
      ("schedule" ++ String " " (String "034" (text ++ String "034"
         (String " " ("to" ++ String " " (alias ++ String " "
            ("at" ++ String " " when)))))))
    = Some [("when", when); ("alias", alias); ("text", text)]).
  { unfold re_match, SCHEDULE_RE. cbn [seq].
    rewrite run_cat, run_lit, run_cat, run_spaces_one by reflexivity.
    rewrite run_cat, run_chr by reflexivity. rewrite run_cat.
    apply run_group_lazy_run with (q := text_char);
      [exact Htext_ne
      |apply all_chars_weaken with (p := text_char);
         [exact text_char_is_line_char|exact Htext]
      |exact Htext
      |intros x s caps' Hx; rewrite run_cat; cbn [run];
       now rewrite (text_char_not_quote x Hx)
      |].
    rewrite run_cat, run_chr by reflexivity.
    rewrite run_cat, run_spaces_one by reflexivity.
    rewrite run_cat, run_lit, run_cat, run_spaces_one.
    2: { apply starts_without_space_app.
         apply (all_chars_starts_without_space (cls_match alias_cls));
           [exact alias_char_not_space|exact Halias_ne|exact Halias]. }
    rewrite run_cat.
    apply run_group_greedy_run; [exact Halias_ne|exact Halias|reflexivity|].
    rewrite run_cat, run_spaces_one by reflexivity.
    rewrite run_cat, run_lit, run_cat, run_spaces_one by exact Hwhen_start.
    rewrite run_cat.
    apply run_group_greedy_all; [exact Hwhen_ne|exact Hline|reflexivity]. }
  replace ("schedule " ++ dquote ++ text ++ dquote ++ " to " ++ alias ++ " at "
           ++ when)
    with ("schedule" ++ String " " (String "034" (text ++ String "034"
            (String " " ("to" ++ String " " (alias ++ String " "
               ("at" ++ String " " when)))))))
    by reflexivity.
  rewrite Hmatch. reflexivity.
Qed.

Lemma append_empty (s : string) : s ++ EmptyString = s.
Proof. induction s as [|c s IH]; cbn [append]; [reflexivity|now rewrite IH]. Qed.

Lemma run_opt_taken (r1 : rx) (s : string) (caps r : captures)
    (k : string -> captures -> option captures) :
  run r1 s caps k = Some r -> run (Opt r1) s caps k = Some r.
Proof. intros H. cbn [run]. now rewrite H. Qed.

Lemma trimmed_strip (s : string) : trimmed s -> PyStr.strip s = s.
Proof. intros (_ & Hl & Hr). unfold PyStr.strip. now rewrite Hl. Qed.

(** X5.  A message [register group <alias> <group_id>], with or without a
    display name after it, parses to the [RegisterGroupCommand] of these
    parts: the alias any non-empty string of word characters and hyphens,
    the group id any non-empty string of word characters, dots, at-signs and
    hyphens, the name any one-line phrase without whitespace around it.
    Without a name the command carries [None]. *)
Theorem parse_register_parts (alias group_id : string) (name : option string) :
  alias <> EmptyString -> all_chars (cls_match alias_cls) alias = true ->
  group_id <> EmptyString -> all_chars (cls_match group_id_cls) group_id = true ->
  match name with
  | Some n => trimmed n /\ all_chars line_char n = true
  | None => True
  end ->
  parse_owner_command
    ("register group " ++ alias ++ " " ++ group_id
     ++ match name with Some n => " " ++ n | None => EmptyString end)
  = Ok (RegisterGroupCommand alias group_id name).
Proof.
  intros Halias_ne Halias Hid_ne Hid Hname.
  assert (Halias_start : starts_without_space alias)
    by (apply (all_chars_starts_without_space (cls_match alias_cls));
        [exact alias_char_not_space|exact Halias_ne|exact Halias]).
  assert (Hid_start : starts_without_space group_id)
    by (apply (all_chars_starts_without_space (cls_match group_id_cls));
        [exact group_id_char_not_space|exact Hid_ne|exact Hid]).
  assert (Hid_r : PyStr.rstrip group_id = group_id).
  { apply rstrip_no_space.
    apply all_chars_weaken with (p := cls_match group_id_cls);
      [exact group_id_char_not_space|exact Hid]. }
  unfold parse_owner_command. destruct name as [n|].
  - destruct Hname as [Htrimmed Hline].
    pose proof (trimmed_starts_without_space _ Htrimmed) as Hn_start.
    pose proof (trimmed_strip _ Htrimmed) as Hn_strip.
    destruct Htrimmed as (Hn_ne & _ & Hn_r).
    assert (Hstrip :
      PyStr.strip ("register group " ++ alias ++ " " ++ group_id ++ " " ++ n)
      = "register group " ++ alias ++ " " ++ group_id ++ " " ++ n).
    { unfold PyStr.strip. rewrite starts_without_space_lstrip by reflexivity.
      rewrite !rstrip_app.
      1: now rewrite Hn_r.
      all: repeat apply rstrip_app_nonempty; rewrite Hn_r; exact Hn_ne. }
    rewrite Hstrip.
    change ("register group " ++ alias ++ " " ++ group_id ++ " " ++ n)
      with (String "r" ("egister group " ++ alias ++ " " ++ group_id ++ " " ++ n)).
    rewrite schedule_re_head by reflexivity.
    change (String "r" ("egister group " ++ alias ++ " " ++ group_id ++ " " ++ n))
      with ("register" ++ String " " ("group" ++ String " "
              (alias ++ String " " (group_id ++ String " " n)))).
    assert (Hmatch :
      re_match REGISTER_RE
        ("register" ++ String " " ("group" ++ String " "
           (alias ++ String " " (group_id ++ String " " n))))
      = Some [("group_name", n); ("group_id", group_id); ("alias", alias)]).
    { unfold re_match, REGISTER_RE. cbn [seq].
      rewrite run_cat, run_lit, run_cat, run_spaces_one by reflexivity.
      rewrite run_cat, run_lit, run_cat, run_spaces_one
        by (apply starts_without_space_app; exact Halias_start).
      rewrite run_cat.
      apply run_group_greedy_run; [exact Halias_ne|exact Halias|reflexivity|].
      rewrite run_cat, run_spaces_one
        by (apply starts_without_space_app; exact Hid_start).
      rewrite run_cat.
      apply run_group_greedy_run; [exact Hid_ne|exact Hid|reflexivity|].
      rewrite run_cat. apply run_opt_taken.
      rewrite run_cat, run_spaces_one by exact Hn_start.
      apply run_group_greedy_all; [exact Hn_ne|exact Hline|reflexivity]. }
    rewrite Hmatch. cbn [group group_or_empty String.eqb Ascii.eqb Bool.eqb].
    destruct n as [|c n']; [contradiction|].
    cbn [PyStr.is_empty]. rewrite Hn_strip. reflexivity.
  - rewrite append_empty.
    assert (Hstrip :
      PyStr.strip ("register group " ++ alias ++ " " ++ group_id)
      = "register group " ++ alias ++ " " ++ group_id).
    { unfold PyStr.strip. rewrite starts_without_space_lstrip by reflexivity.
      rewrite !rstrip_app.
      1: now rewrite Hid_r.
      all: repeat apply rstrip_app_nonempty; rewrite Hid_r; exact Hid_ne. }
    rewrite Hstrip.
    change ("register group " ++ alias ++ " " ++ group_id)
      with (String "r" ("egister group " ++ alias ++ " " ++ group_id)).
    rewrite schedule_re_head by reflexivity.
    change (String "r" ("egister group " ++ alias ++ " " ++ group_id))
      with ("register" ++ String " " ("group" ++ String " "
              (alias ++ String " " group_id))).
    assert (Hmatch :
      re_match REGISTER_RE
        ("register" ++ String " " ("group" ++ String " "
           (alias ++ String " " group_id)))
      = Some [("group_id", group_id); ("alias", alias)]).
    { unfold re_match, REGISTER_RE. cbn [seq].
      rewrite run_cat, run_lit, run_cat, run_spaces_one by reflexivity.
      rewrite run_cat, run_lit, run_cat, run_spaces_one
        by (apply starts_without_space_app; exact Halias_start).
      rewrite run_cat.
      apply run_group_greedy_run; [exact Halias_ne|exact Halias|reflexivity|].
      rewrite run_cat, run_spaces_one by exact Hid_start.
      rewrite run_cat.
      apply run_group_greedy_all; [exact Hid_ne|exact Hid|reflexivity]. }
    rewrite Hmatch. reflexivity.
Qed.


Lemma parse_unregister_alias_witness :
  parse_owner_command "unregister group Night-Shift_2"
  = Ok (UnregisterGroupCommand "Night-Shift_2").
Proof.
  apply (parse_unregister_alias "Night-Shift_2"); [discriminate|reflexivity].
Defined.

Lemma parse_schedule_parts_witness :
  parse_owner_command
    ("schedule " ++ dquote ++ "Lunch at noon, to go" ++ dquote
     ++ " to " ++ "team-a" ++ " at " ++ "tomorrow at 12:00")
  = Ok (ScheduleCommand "Lunch at noon, to go" "team-a" "tomorrow at 12:00").
Proof.
  apply (parse_schedule_parts "Lunch at noon, to go" "team-a" "tomorrow at 12:00");
    try reflexivity; try discriminate.
  unfold trimmed. split; [discriminate|split; reflexivity].
Defined.

Lemma parse_register_parts_witness :
  parse_owner_command
    ("register group " ++ "team" ++ " " ++ "12345@g.us" ++ " " ++ "Team Squad")
  = Ok (RegisterGroupCommand "team" "12345@g.us" (Some "Team Squad"))
  /\ parse_owner_command
       ("register group " ++ "team" ++ " " ++ "12345@g.us" ++ EmptyString)
     = Ok (RegisterGroupCommand "team" "12345@g.us" None).
Proof.
  split.
  - apply (parse_register_parts "team" "12345@g.us" (Some "Team Squad"));
      try reflexivity; try discriminate.
    split; [|reflexivity]. unfold trimmed. split; [discriminate|split; reflexivity].
  - apply (parse_register_parts "team" "12345@g.us" None);
      try reflexivity; try discriminate; try exact I.
Defined.

(** ** Tables with a primary key *)

Section KeyedTable.
Context {A : Type} (id : A -> Z).

Lemma not_in_has_key (l : list A) (i : Z) :
  ~ In i (map id l) -> forall y, In y l -> has_key id i y = false.
Proof.
  intros Hnot y Hy. unfold has_key. apply Z.eqb_neq. intros Heq.
  apply Hnot. rewrite <- Heq. now apply in_map.
Qed.

(** Under a primary key, [session.get] followed by an assignment or a
    [delete] touches the row it was given and no other. *)
Lemma keyed_row_split (l : list A) (x : A) :
  NoDup (map id l) -> In x l ->
  exists l1 l2,
    l = (l1 ++ x :: l2)%list
    /\ (forall f, update_first (has_key id (id x)) f l = (l1 ++ f x :: l2)%list)
    /\ remove_first (has_key id (id x)) l = (l1 ++ l2)%list.
Proof.
  induction l as [|y l IH]; intros Hnodup Hin; [destruct Hin|].
  cbn [map] in Hnodup. apply NoDup_cons_iff in Hnodup as [Hy Hnodup].
  destruct Hin as [->|Hin].
  - exists [], l. cbn [app update_first remove_first].
    unfold has_key. rewrite Z.eqb_refl. auto.
  - destruct (IH Hnodup Hin) as (l1 & l2 & Hl & Hupdate & Hremove).
    exists (y :: l1), l2. cbn [app update_first remove_first].
    assert (Hmiss : has_key id (id x) y = false).
    { unfold has_key. apply Z.eqb_neq. intros Heq. apply Hy.
      rewrite Heq. now apply in_map. }
    rewrite Hmiss. repeat split.
    + now rewrite Hl.
    + intros f. now rewrite Hupdate.
    + now rewrite Hremove.
Qed.
End KeyedTable.

Lemma next_id_not_in (ids : list Z) : ~ In (next_id ids) ids.
Proof. intros Hin. apply next_id_fresh in Hin. lia. Qed.

Lemma NoDup_app_fresh (ids : list Z) : NoDup ids -> NoDup (ids ++ [next_id ids]).
Proof.
  intros Hnodup. apply NoDup_app.
  - exact Hnodup.
  - constructor; [intros []|constructor].
  - intros i Hi [<-|[]]. now apply next_id_not_in in Hi.
Qed.

Lemma filter_singleton_In {A} (q : A -> bool) (l : list A) (x : A) :
  filter q l = [x] -> In x l /\ q x = true.
Proof.
  intros H. apply filter_In. rewrite H. now left.
Qed.

Lemma length_filter_split {A} (q : A -> bool) (l1 l2 : list A) (x : A) :
  List.length (filter q (l1 ++ x :: l2))
  = (List.length (filter q l1) + (if q x then 1 else 0)
     + List.length (filter q l2))%nat.
Proof.
  rewrite filter_app, length_app. cbn [filter].
  destruct (q x); cbn [List.length]; lia.
Qed.

Lemma length_filter_remove {A} (q : A -> bool) (l1 l2 : list A) :
  List.length (filter q (l1 ++ l2))
  = (List.length (filter q l1) + List.length (filter q l2))%nat.
Proof. now rewrite filter_app, length_app. Qed.

Lemma filter_unique_split {A} (q : A -> bool) (l1 l2 : list A) (x : A) :
  (List.length (filter q (l1 ++ x :: l2)) <= 1)%nat -> q x = true ->
  filter q l1 = [] /\ filter q l2 = [].
Proof.
  rewrite length_filter_split. intros Hlen Hx. rewrite Hx in Hlen.
  split; apply length_zero_iff_nil; lia.
Qed.

(** ** The group registry *)

Lemma select_group_by_alias_alias (alias : string) (d : DB) (g : Group.t) :
  In g (select_group_by_alias alias d) -> Group.alias g = alias.
Proof.
  unfold select_group_by_alias. rewrite filter_In. intros [_ H].
  now apply String.eqb_eq.
Qed.

(** X6.  Registering a group and looking it up.  On a [groups] table that
    obeys its constraints, [register_group] returns the row of the alias in
    lower case with the destination and name given; [get_group_by_alias],
    in a session of its own on the state left, finds exactly that row under
    the alias in any letter case; and the table still obeys its constraints.
    An alias registered before keeps its single row, rewritten: the last
    registration wins. *)
Theorem register_group_then_lookup (now : datetime) (alias group_id : string)
    (group_name : option string) (lookup : string) (w : World) :
  groups_wf (db w) ->
  PyStr.lower lookup = PyStr.lower alias ->
  exists g w',
    register_group now alias group_id group_name w = (Ok g, w')
    /\ Group.alias g = PyStr.lower alias
    /\ Group.group_id g = group_id
    /\ Group.group_name g = group_name
    /\ session_scope (get_group_by_alias lookup) w' = (Ok (Some g), w')
    /\ groups_wf (db w')
    /\ List.length (groups (db w'))
       = match select_group_by_alias (PyStr.lower alias) (db w) with
         | [] => S (List.length (groups (db w)))
         | _ => List.length (groups (db w))
         end.
Proof.
  intros [Hids Hunique] Hlookup.
  unfold register_group, get_group_by_alias. run_session. rewrite Hlookup.
  destruct (at_most_one _ (Hunique (PyStr.lower alias))) as [Hnone | [g0 Hone]].
  - rewrite Hnone. run_session.
    set (g := Group.mk (next_id (map Group.id (groups (db w)))) (PyStr.lower alias)
                group_id group_name now).
    assert (Hselect : forall a,
      select_group_by_alias a (set_groups (groups (db w) ++ [g]) (db w))
      = (select_group_by_alias a (db w)
         ++ if String.eqb (PyStr.lower alias) a then [g] else [])%list).
    { intros a. unfold select_group_by_alias. cbn [groups set_groups].
      rewrite filter_app. cbn [filter Group.alias g]. reflexivity. }
    exists g. eexists. split; [reflexivity|].
    run_session. rewrite Hselect, Hnone, String.eqb_refl. cbn [app].
    repeat split.
    + cbn [groups set_groups]. rewrite map_app. apply NoDup_app_fresh. exact Hids.
    + intros a. rewrite Hselect, length_app.
      destruct (String.eqb (PyStr.lower alias) a) eqn:Ha; cbn [List.length].
      * apply String.eqb_eq in Ha. subst a. rewrite Hnone. cbn. lia.
      * specialize (Hunique a). lia.
    + cbn [groups set_groups]. rewrite length_app. cbn [List.length]. lia.
  - rewrite Hone. run_session.
    destruct (filter_singleton_In _ _ _ Hone) as [Hin Halias].
    apply String.eqb_eq in Halias.
    set (g := Group.mk (Group.id g0) (Group.alias g0) group_id group_name
                (Group.created_at g0)).
    destruct (keyed_row_split Group.id _ _ Hids Hin)
      as (l1 & l2 & Hsplit & Hupdate & _).
    change (group_has_id (Group.id g0)) with (has_key Group.id (Group.id g0)).
    rewrite Hupdate.
    assert (Hselect : forall a,
      List.length (select_group_by_alias a (set_groups (l1 ++ g :: l2) (db w)))
      = List.length (select_group_by_alias a (db w))).
    { intros a. unfold select_group_by_alias. cbn [groups set_groups].
      rewrite Hsplit, !length_filter_split. reflexivity. }
    assert (Hfound :
      select_group_by_alias (PyStr.lower alias) (set_groups (l1 ++ g :: l2) (db w))
      = [g]).
    { unfold select_group_by_alias in *. cbn [groups set_groups].
      pose proof (Hunique (PyStr.lower alias)) as Hlen. rewrite Hsplit in Hlen.
      destruct (filter_unique_split _ l1 l2 g0 Hlen) as [H1 H2];
        [now apply String.eqb_eq|].
      rewrite filter_app. cbn [filter Group.alias g]. rewrite H1, H2.
      rewrite Halias, String.eqb_refl. reflexivity. }
    exists g. eexists. split; [reflexivity|].
    run_session. rewrite Hfound.
    repeat split; try exact Halias.
    + cbn [groups set_groups]. rewrite Hsplit in Hids.
      rewrite map_app in *. exact Hids.
    + intros a. rewrite Hselect. apply Hunique.
    + cbn [groups set_groups]. rewrite Hsplit, !length_app. reflexivity.
Qed.

Lemma register_group_then_lookup_witness :
  exists g w',
    register_group t0 "Team" "12345@g.us" (Some "Team") registered = (Ok g, w')
    /\ Group.alias g = "team"
    /\ Group.group_id g = "12345@g.us"
    /\ Group.group_name g = Some "Team"
    /\ session_scope (get_group_by_alias "TEAM") w' = (Ok (Some g), w')
    /\ groups_wf (db w')
    /\ List.length (groups (db w')) = 1%nat.
Proof.
  apply (register_group_then_lookup t0 "Team" "12345@g.us" (Some "Team") "TEAM"
           registered); [sample_table|reflexivity].
Defined.

(** X7.  Unregistering a group.  On a [groups] table that obeys its
    constraints, [unregister_group] returns whether the alias was registered;
    a lookup in a later session does not find the alias, in any letter case;
    every other alias is found as before; and the table still obeys its
    constraints.  When the alias was not registered nothing changes. *)
Theorem unregister_group_then_lookup (alias lookup : string) (w : World) :
  groups_wf (db w) ->
  PyStr.lower lookup = PyStr.lower alias ->
  exists w',
    unregister_group alias w
    = (Ok match select_group_by_alias (PyStr.lower alias) (db w) with
          | [] => false
          | _ => true
          end, w')
    /\ session_scope (get_group_by_alias lookup) w' = (Ok None, w')
    /\ groups_wf (db w')
    /\ (forall other, other <> PyStr.lower alias ->
          select_group_by_alias other (db w') = select_group_by_alias other (db w))
    /\ (select_group_by_alias (PyStr.lower alias) (db w) = [] -> w' = w).
Proof.
  intros [Hids Hunique] Hlookup.
  unfold unregister_group, get_group_by_alias. run_session. rewrite Hlookup.
  destruct (at_most_one _ (Hunique (PyStr.lower alias))) as [Hnone | [g0 Hone]].
  - rewrite Hnone. run_session. exists w. split; [reflexivity|].
    run_session. rewrite Hnone. repeat split; auto.
  - rewrite Hone. run_session.
    destruct (filter_singleton_In _ _ _ Hone) as [Hin Halias].
    destruct (keyed_row_split Group.id _ _ Hids Hin)
      as (l1 & l2 & Hsplit & _ & Hremove).
    change (group_has_id (Group.id g0)) with (has_key Group.id (Group.id g0)).
    rewrite Hremove. eexists. split; [reflexivity|]. run_session.
    assert (Hgone :
      select_group_by_alias (PyStr.lower alias) (set_groups (l1 ++ l2) (db w)) = []).
    { unfold select_group_by_alias in *. cbn [groups set_groups].
      pose proof (Hunique (PyStr.lower alias)) as Hlen. rewrite Hsplit in Hlen.
      destruct (filter_unique_split _ l1 l2 g0 Hlen Halias) as [H1 H2].
      now rewrite filter_app, H1, H2. }
    rewrite Hgone. repeat split.
    + cbn [groups set_groups]. rewrite Hsplit, map_app in Hids. cbn [map] in Hids.
      rewrite map_app. now apply NoDup_remove_1 in Hids.
    + intros a. specialize (Hunique a). unfold select_group_by_alias in *.
      cbn [groups set_groups]. rewrite Hsplit, length_filter_split in Hunique.
      rewrite length_filter_remove. lia.
    + intros other Hother. unfold select_group_by_alias.
      cbn [groups set_groups]. rewrite Hsplit, !filter_app. cbn [filter].
      apply String.eqb_eq in Halias. rewrite Halias.
      destruct (String.eqb (PyStr.lower alias) other) eqn:Heq; [|reflexivity].
      apply String.eqb_eq in Heq. congruence.
    + intros Habsurd. discriminate.
Qed.

Lemma unregister_group_then_lookup_witness :
  exists w',
    unregister_group "Team" registered = (Ok true, w')
    /\ session_scope (get_group_by_alias "TEAM") w' = (Ok None, w')
    /\ groups_wf (db w')
    /\ (forall other, other <> "team" ->
          select_group_by_alias other (db w')
          = select_group_by_alias other (db registered))
    /\ (select_group_by_alias "team" (db registered) = [] -> w' = registered).
Proof.
  apply (unregister_group_then_lookup "Team" "TEAM" registered);
    [sample_table|reflexivity].
Defined.

(** ** The pending schedule *)

Lemma save_pending_schedule_outcome (now : datetime) (owner_id group_alias : string)
    (run_at : datetime) (w : World) :
  pending_schedules_wf (db w) ->
  exists p rows,
    save_pending_schedule now owner_id group_alias run_at w
    = (Ok p, mkWorld (set_pending_schedules rows (db w)) (outbox w) (celery w))
    /\ PendingSchedule.owner_id p = owner_id
    /\ PendingSchedule.group_alias p = PyStr.lower group_alias
    /\ PendingSchedule.run_at p = run_at
    /\ PendingSchedule.created_at p = now
    /\ select_pending_by_owner owner_id (set_pending_schedules rows (db w)) = [p]
    /\ pending_schedules_wf (set_pending_schedules rows (db w))
    /\ List.length rows
       = match select_pending_by_owner owner_id (db w) with
         | [] => S (List.length (pending_schedules (db w)))
         | _ => List.length (pending_schedules (db w))
         end.
Proof.
  intros [Hids Hunique].
  unfold save_pending_schedule, get_pending_schedule, to_utc. run_session.
  destruct (at_most_one _ (Hunique owner_id)) as [Hnone | [p0 Hone]].
  - rewrite Hnone. run_session.
    set (p := PendingSchedule.mk
                (next_id (map PendingSchedule.id (pending_schedules (db w))))
                owner_id (PyStr.lower group_alias) run_at now).
    assert (Hselect : forall o,
      select_pending_by_owner o
        (set_pending_schedules (pending_schedules (db w) ++ [p]) (db w))
      = (select_pending_by_owner o (db w)
         ++ if String.eqb owner_id o then [p] else [])%list).
    { intros o. unfold select_pending_by_owner.
      cbn [pending_schedules set_pending_schedules].
      rewrite filter_app. cbn [filter PendingSchedule.owner_id p]. reflexivity. }
    exists p, (pending_schedules (db w) ++ [p])%list. split; [reflexivity|].
    rewrite Hselect, Hnone, String.eqb_refl. cbn [app].
    repeat split.
    + cbn [pending_schedules set_pending_schedules]. rewrite map_app.
      apply NoDup_app_fresh. exact Hids.
    + intros o. rewrite Hselect, length_app.
      destruct (String.eqb owner_id o) eqn:Ho; cbn [List.length].
      * apply String.eqb_eq in Ho. subst o. rewrite Hnone. cbn. lia.
      * specialize (Hunique o). lia.
    + rewrite length_app. cbn [List.length]. lia.
  - rewrite Hone. run_session.
    destruct (filter_singleton_In _ _ _ Hone) as [Hin Howner].
    apply String.eqb_eq in Howner.
    set (p := PendingSchedule.mk (PendingSchedule.id p0)
                (PendingSchedule.owner_id p0) (PyStr.lower group_alias) run_at now).
    destruct (keyed_row_split PendingSchedule.id _ _ Hids Hin)
      as (l1 & l2 & Hsplit & Hupdate & _).
    change (pending_has_id (PendingSchedule.id p0))
      with (has_key PendingSchedule.id (PendingSchedule.id p0)).
    rewrite Hupdate.
    assert (Hselect : forall o,
      List.length (select_pending_by_owner o
                     (set_pending_schedules (l1 ++ p :: l2) (db w)))
      = List.length (select_pending_by_owner o (db w))).
    { intros o. unfold select_pending_by_owner.
      cbn [pending_schedules set_pending_schedules].
      rewrite Hsplit, !length_filter_split. reflexivity. }
    assert (Hfound :
      select_pending_by_owner owner_id
        (set_pending_schedules (l1 ++ p :: l2) (db w)) = [p]).
    { unfold select_pending_by_owner in *.
      cbn [pending_schedules set_pending_schedules].
      pose proof (Hunique owner_id) as Hlen. rewrite Hsplit in Hlen.
      destruct (filter_unique_split _ l1 l2 p0 Hlen) as [H1 H2];
        [now apply String.eqb_eq|].
      rewrite filter_app. cbn [filter PendingSchedule.owner_id p]. rewrite H1, H2.
      rewrite Howner, String.eqb_refl. reflexivity. }
    exists p, (l1 ++ p :: l2)%list. split; [reflexivity|].
    rewrite Hfound.
    repeat split; try exact Howner.
    + cbn [pending_schedules set_pending_schedules]. rewrite Hsplit in Hids.
      rewrite map_app in *. exact Hids.
    + intros o. rewrite Hselect. apply Hunique.
    + rewrite Hsplit, !length_app. reflexivity.
Qed.

(** X8.  The pending schedule is one slot per owner.  On a table that
    obeys its constraints, [save_pending_schedule] returns the row of the
    owner with the alias in lower case, the run time given and the clock as
    creation time; [get_pending_schedule], in a session of its own on the
    state left, returns exactly that row; the owner has one row, whether one
    existed before or not; and the table still obeys its constraints. *)
Theorem save_pending_schedule_then_get (now : datetime) (owner_id group_alias : string)
    (run_at : datetime) (w : World) :
  pending_schedules_wf (db w) ->
  exists p w',
    save_pending_schedule now owner_id group_alias run_at w = (Ok p, w')
    /\ PendingSchedule.owner_id p = owner_id
    /\ PendingSchedule.group_alias p = PyStr.lower group_alias
    /\ PendingSchedule.run_at p = run_at
    /\ PendingSchedule.created_at p = now
    /\ session_scope (get_pending_schedule owner_id) w' = (Ok (Some p), w')
    /\ pending_schedules_wf (db w')
    /\ List.length (pending_schedules (db w'))
       = match select_pending_by_owner owner_id (db w) with
         | [] => S (List.length (pending_schedules (db w)))
         | _ => List.length (pending_schedules (db w))
         end.
Proof.
  intros Hwf.
  destruct (save_pending_schedule_outcome now owner_id group_alias run_at w Hwf)
    as (p & rows & Hsave & Howner & Halias & Hrun & Hcreated & Hslot & Hwf' & Hlen).
  exists p. eexists. split; [exact Hsave|].
  repeat split; try assumption; try apply Hwf'.
  unfold get_pending_schedule. run_session. rewrite Hslot. reflexivity.
Qed.

Lemma save_pending_schedule_then_get_witness :
  exists p w',
    save_pending_schedule (t0 + minutes 1) "owner-wa-id" "Team" (t0 + hours 2) armed
    = (Ok p, w')
    /\ PendingSchedule.owner_id p = "owner-wa-id"
    /\ PendingSchedule.group_alias p = "team"
    /\ PendingSchedule.run_at p = t0 + hours 2
    /\ PendingSchedule.created_at p = t0 + minutes 1
    /\ session_scope (get_pending_schedule "owner-wa-id") w' = (Ok (Some p), w')
    /\ pending_schedules_wf (db w')
    /\ List.length (pending_schedules (db w')) = 1%nat.
Proof.
  apply (save_pending_schedule_then_get (t0 + minutes 1) "owner-wa-id" "Team"
           (t0 + hours 2) armed).
  sample_table.
Defined.

Lemma clear_pending_schedule_outcome (owner_id : string) (w : World) :
  pending_schedules_wf (db w) ->
  exists rows,
    clear_pending_schedule owner_id w
    = (Ok match select_pending_by_owner owner_id (db w) with
          | [] => false
          | _ => true
          end,
       mkWorld (set_pending_schedules rows (db w)) (outbox w) (celery w))
    /\ select_pending_by_owner owner_id (set_pending_schedules rows (db w)) = []
    /\ pending_schedules_wf (set_pending_schedules rows (db w))
    /\ (forall other, other <> owner_id ->
          select_pending_by_owner other (set_pending_schedules rows (db w))
          = select_pending_by_owner other (db w))
    /\ (select_pending_by_owner owner_id (db w) = [] ->
        rows = pending_schedules (db w)).
Proof.
  intros [Hids Hunique].
  unfold clear_pending_schedule, get_pending_schedule. run_session.
  destruct (at_most_one _ (Hunique owner_id)) as [Hnone | [p0 Hone]].
  - rewrite Hnone. run_session. exists (pending_schedules (db w)).
    split; [destruct w as [[] ? ?]; reflexivity|].
    assert (Hsame : forall o,
      select_pending_by_owner o
        (set_pending_schedules (pending_schedules (db w)) (db w))
      = select_pending_by_owner o (db w)) by reflexivity.
    rewrite Hsame, Hnone. repeat split; auto.
  - rewrite Hone. run_session.
    destruct (filter_singleton_In _ _ _ Hone) as [Hin Howner].
    destruct (keyed_row_split PendingSchedule.id _ _ Hids Hin)
      as (l1 & l2 & Hsplit & _ & Hremove).
    change (pending_has_id (PendingSchedule.id p0))
      with (has_key PendingSchedule.id (PendingSchedule.id p0)).
    rewrite Hremove. exists (l1 ++ l2)%list. split; [reflexivity|].
    assert (Hgone :
      select_pending_by_owner owner_id (set_pending_schedules (l1 ++ l2) (db w))
      = []).
    { unfold select_pending_by_owner in *.
      cbn [pending_schedules set_pending_schedules].
      pose proof (Hunique owner_id) as Hlen. rewrite Hsplit in Hlen.
      destruct (filter_unique_split _ l1 l2 p0 Hlen Howner) as [H1 H2].
      now rewrite filter_app, H1, H2. }
    rewrite Hgone. repeat split.
    + cbn [pending_schedules set_pending_schedules].
      rewrite Hsplit, map_app in Hids. cbn [map] in Hids.
      rewrite map_app. now apply NoDup_remove_1 in Hids.
    + intros o. specialize (Hunique o). unfold select_pending_by_owner in *.
      cbn [pending_schedules set_pending_schedules].
      rewrite Hsplit, length_filter_split in Hunique.
      rewrite length_filter_remove. lia.
    + intros other Hother. unfold select_pending_by_owner.
      cbn [pending_schedules set_pending_schedules].
      rewrite Hsplit, !filter_app. cbn [filter].
      apply String.eqb_eq in Howner. rewrite Howner.
      destruct (String.eqb owner_id other) eqn:Heq; [|reflexivity].
      apply String.eqb_eq in Heq. congruence.
    + intros Habsurd. discriminate.
Qed.

(** X9.  Clearing the pending slot.  On a table that obeys its
    constraints, [clear_pending_schedule] returns whether the owner had a
    pending schedule; a lookup in a later session finds none for the owner;
    the rows of other owners are as before; and the table still obeys its
    constraints.  With no row for the owner nothing changes. *)
Theorem clear_pending_schedule_then_get (owner_id : string) (w : World) :
  pending_schedules_wf (db w) ->
  exists w',
    clear_pending_schedule owner_id w
    = (Ok match select_pending_by_owner owner_id (db w) with
          | [] => false
          | _ => true
          end, w')
    /\ session_scope (get_pending_schedule owner_id) w' = (Ok None, w')
    /\ pending_schedules_wf (db w')
    /\ (forall other, other <> owner_id ->
          select_pending_by_owner other (db w') = select_pending_by_owner other (db w))
    /\ (select_pending_by_owner owner_id (db w) = [] -> w' = w).
Proof.
  intros Hwf.
  destruct (clear_pending_schedule_outcome owner_id w Hwf)
    as (rows & Hclear & Hgone & Hwf' & Hothers & Hnoop).
  eexists. split; [exact Hclear|]. repeat split; try apply Hwf'.
  - unfold get_pending_schedule. run_session. rewrite Hgone. reflexivity.
  - exact Hothers.
  - intros Hnone. rewrite (Hnoop Hnone). destruct w as [[] ? ?]. reflexivity.
Qed.

Lemma clear_pending_schedule_then_get_witness :
  exists w',
    clear_pending_schedule "owner-wa-id" armed = (Ok true, w')
    /\ session_scope (get_pending_schedule "owner-wa-id") w' = (Ok None, w')
    /\ pending_schedules_wf (db w')
    /\ (forall other, other <> "owner-wa-id" ->
          select_pending_by_owner other (db w')
          = select_pending_by_owner other (db armed))
    /\ (select_pending_by_owner "owner-wa-id" (db armed) = [] -> w' = armed).
Proof.
  apply (clear_pending_schedule_then_get "owner-wa-id" armed). sample_table.
Defined.

(** ** Cancelling and listing *)


Lemma cancel_job_outcome (job_id : Z) (w : World) :
  exists w',
    cancel_job job_id w
    = (Ok match find (job_has_id job_id) (jobs (db w)) with
          | Some _ => true
          | None => false
          end, w')
    /\ outbox w' = outbox w
    /\ match find (job_has_id job_id) (jobs (db w)) with
       | Some _ =>
           exists job',
             find (job_has_id job_id) (jobs (db w')) = Some job'
             /\ terminal_for_guards (Job.status job')
       | None => w' = w
       end.
Proof.
  unfold cancel_job, get_job, update_job. run_session.
  destruct (find (job_has_id job_id) (jobs (db w))) as [job|] eqn:Hfind;
    run_session.
  2: { exists w. auto. }
  assert (Hcancelled :
    find (job_has_id job_id)
      (update_first (job_has_id job_id)
         (fun j => Job.set_last_error None (Job.set_status CANCELLED j))
         (jobs (db w)))
    = Some (Job.set_last_error None (Job.set_status CANCELLED job))).
  { apply (find_update_first _
             (fun j => Job.set_last_error None (Job.set_status CANCELLED j))
             _ _ Hfind).
    apply find_some in Hfind as [_ Hid]. exact Hid. }
  destruct (Job.status job) eqn:Hstatus; run_session.
  2, 3: exists w; repeat split; exists job; rewrite Hstatus;
    unfold terminal_for_guards; auto.
  - destruct (Job.celery_task_id job) as [task_id|];
      [destruct (PyStr.is_empty task_id)|]; run_session;
      (eexists; split; [reflexivity|]); (split; [reflexivity|]);
      cbn [db jobs set_jobs]; eexists; (split; [exact Hcancelled|]);
      unfold terminal_for_guards; cbn; auto.
  - destruct (Job.celery_task_id job) as [task_id|];
      [destruct (PyStr.is_empty task_id)|]; run_session;
      (eexists; split; [reflexivity|]); (split; [reflexivity|]);
      cbn [db jobs set_jobs]; eexists; (split; [exact Hcancelled|]);
      unfold terminal_for_guards; cbn; auto.
Qed.


(** X11.  A cancelled Job is never sent.  After [cancel_job] has run for
    a Job, every delivery of its fire event, at any time, retry count and
    client answer, returns without calling the client and leaves the world
    as it is. *)
Theorem cancel_job_then_fire_event (job_id : Z) (w : World) (settings : Settings)
    (now : datetime) (request_retries : Z) (reply : ClientReply) :
  deliver_fire_event settings now request_retries reply job_id
    (snd (cancel_job job_id w))
  = (Ok tt, snd (cancel_job job_id w)).
Proof.
  destruct (cancel_job_outcome job_id w) as (w' & Hcancel & _ & Hafter).
  rewrite Hcancel. cbn [snd]. apply deliver_fire_event_settled. unfold settled.
  destruct (find (job_has_id job_id) (jobs (db w))) as [job|] eqn:Hfind.
  - destruct Hafter as (job' & -> & Hterminal). exact Hterminal.
  - subst w'. now rewrite Hfind.
Qed.

Section OrderBySorted.
Context {A : Type} (le : A -> A -> bool).
Hypothesis le_total : forall a b, le a b = false -> le b a = true.

Lemma insert_sorted_Permutation (x : A) (l : list A) :
  Permutation (insert_sorted le x l) (x :: l).
Proof.
  induction l as [|y l IH]; cbn [insert_sorted]; [reflexivity|].
  destruct (le x y); [reflexivity|].
  rewrite IH. apply perm_swap.
Qed.

Lemma order_by_Permutation (l : list A) : Permutation (order_by le l) l.
Proof.
  induction l as [|x l IH]; cbn [order_by fold_right]; [reflexivity|].
  fold (order_by le l). rewrite insert_sorted_Permutation. now constructor.
Qed.

Lemma insert_sorted_Sorted (x : A) (l : list A) :
  Sorted (fun a b => le a b = true) l ->
  Sorted (fun a b => le a b = true) (insert_sorted le x l).
Proof.
  induction 1 as [|y l Hsorted IH Hhd]; cbn [insert_sorted].
  - repeat constructor.
  - destruct (le x y) eqn:Hxy.
    + constructor; [now constructor|]. now constructor.
    + constructor; [exact IH|].
      destruct l as [|z l]; cbn [insert_sorted].
      * constructor. now apply le_total.
      * destruct (le x z); constructor; [now apply le_total|].
        now inversion Hhd.
Qed.

Lemma order_by_Sorted (l : list A) :
  Sorted (fun a b => le a b = true) (order_by le l).
Proof.
  induction l as [|x l IH]; cbn [order_by fold_right]; [constructor|].
  now apply insert_sorted_Sorted.
Qed.
End OrderBySorted.

(** X12.  [list_jobs] reads only and returns the Jobs whose status is
    [SCHEDULED], each once, none of another status, with the earliest
    [run_at] first: no Job of the list runs before one listed ahead of it. *)
Theorem list_jobs_scheduled_in_order (w : World) :
  exists l,
    list_jobs w = (Ok l, w)
    /\ Permutation l
         (filter (fun j => JobStatus_eqb (Job.status j) SCHEDULED) (jobs (db w)))
    /\ (forall j, In j l <-> In j (jobs (db w)) /\ Job.status j = SCHEDULED)
    /\ StronglySorted (fun a b => Job.run_at a <= Job.run_at b) l.
Proof.
  unfold list_jobs. run_session. eexists. split; [reflexivity|].
  set (le := fun a b => Job.run_at a <=? Job.run_at b).
  set (scheduled := filter _ _).
  assert (Hperm : Permutation (order_by le scheduled) scheduled)
    by apply order_by_Permutation.
  split; [exact Hperm|]. split.
  - intros j. split.
    + intros Hin. apply (Permutation_in _ Hperm) in Hin.
      apply filter_In in Hin as [Hin Hstatus]. split; [exact Hin|].
      destruct (Job.status j); cbn in Hstatus; congruence.
    + intros [Hin Hstatus].
      apply (Permutation_in _ (Permutation_sym Hperm)).
      apply filter_In. split; [exact Hin|]. now rewrite Hstatus.
  - assert (Hsorted : Sorted (fun a b => le a b = true) (order_by le scheduled)).
    { apply order_by_Sorted. unfold le. intros a b H.
      apply Z.leb_gt in H. apply Z.leb_le. lia. }
    apply Sorted_StronglySorted.
    + intros a b c Hab Hbc. lia.
    + eapply Sorted_ind with (P := fun l0 => Sorted _ l0);
        [constructor| |exact Hsorted].
      intros a l0 _ IH Hhd. constructor; [exact IH|].
      destruct Hhd; constructor. unfold le in *. now apply Z.leb_le.
Qed.

(** X13.  [list_groups] reads only and returns every registered group,
    each once, in the order of their aliases: no alias of the list is
    greater than the next one. *)
Theorem list_groups_in_alias_order (w : World) :
  exists l,
    list_groups w = (Ok l, w)
    /\ Permutation l (groups (db w))
    /\ Sorted (fun a b => String.leb (Group.alias a) (Group.alias b) = true) l.
Proof.
  unfold list_groups. run_session. eexists. split; [reflexivity|]. split.
  - apply order_by_Permutation.
  - apply (order_by_Sorted
             (fun a b => String.leb (Group.alias a) (Group.alias b))).
    intros a b H.
    destruct (String.leb_total (Group.alias a) (Group.alias b)); congruence.
Qed.

(** ** Scheduling *)

(** X14.  A new request.  For a registered alias, a [run_at] after the
    clock and no stored Job with the request's key, [schedule_job] appends one
    Job to the table and returns it: [SCHEDULED], with the destination and
    the alias of the group row, the text, the run time and the creator given,
    a primary key no stored Job has, and the task id Celery returned; it asks
    Celery once, for the task [app.workers.send_scheduled_message] on that
    Job at [run_at]; it sends nothing. *)
Theorem schedule_job_stores_and_submits (w : World) (now : datetime)
    (group_alias text : string) (run_at : datetime) (created_by : string)
    (group : Group.t) :
  select_group_by_alias (PyStr.lower group_alias) (db w) = [group] ->
  now < run_at ->
  select_job_by_correlation_key
    (_generate_correlation_key (Group.group_id group) text run_at) (db w) = [] ->
  exists job task_id w',
    schedule_job now group_alias text run_at created_by None w = (Ok job, w')
    /\ Job.status job = SCHEDULED
    /\ Job.group_id job = Group.group_id group
    /\ Job.group_alias job = Group.alias group
    /\ Job.text job = text /\ Job.run_at job = run_at
    /\ Job.created_by job = created_by
    /\ Job.celery_task_id job = Some task_id
    /\ ~ In (Job.id job) (map Job.id (jobs (db w)))
    /\ jobs (db w') = (jobs (db w) ++ [job])%list
    /\ celery w'
       = (celery w ++ [SendTask "app.workers.send_scheduled_message" (Job.id job)
                         run_at task_id])%list
    /\ outbox w' = outbox w
    /\ groups (db w') = groups (db w)
    /\ (job_ids_unique (db w) -> job_ids_unique (db w')).
Proof.
  intros Hgroup Hfuture Hnone.
  pose proof (schedule_job_new w now group_alias text run_at created_by group
                Hgroup Hfuture Hnone) as Hnew.
  cbv zeta in Hnew. do 3 eexists. split; [exact Hnew|].
  cbn [Job.status Job.group_id Job.group_alias Job.text Job.run_at Job.created_by
       Job.celery_task_id Job.id db jobs set_jobs celery outbox groups].
  repeat split.
  - apply next_id_not_in.
  - unfold job_ids_unique. cbn [jobs set_jobs]. intros Hids.
    rewrite map_app. cbn [map Job.id]. now apply NoDup_app_fresh.
Qed.

Lemma schedule_job_stores_and_submits_witness :
  exists job task_id w',
    schedule_job t0 "Team" "hi" (t0 + hours 1) "owner-wa-id" None registered
    = (Ok job, w')
    /\ Job.status job = SCHEDULED
    /\ Job.group_id job = "12345@g.us"
    /\ Job.group_alias job = "team"
    /\ Job.text job = "hi" /\ Job.run_at job = t0 + hours 1
    /\ Job.created_by job = "owner-wa-id"
    /\ Job.celery_task_id job = Some task_id
    /\ ~ In (Job.id job) (map Job.id (jobs (db registered)))
    /\ jobs (db w') = (jobs (db registered) ++ [job])%list
    /\ celery w'
       = (celery registered
          ++ [SendTask "app.workers.send_scheduled_message" (Job.id job)
                (t0 + hours 1) task_id])%list
    /\ outbox w' = outbox registered
    /\ groups (db w') = groups (db registered)
    /\ (job_ids_unique (db registered) -> job_ids_unique (db w')).
Proof.
  apply (schedule_job_stores_and_submits registered t0 "Team" "hi" (t0 + hours 1)
           "owner-wa-id" team); [reflexivity|vm_compute; reflexivity|reflexivity].
Defined.

(** X15.  A schedule command that cannot be carried out changes nothing
    and tells the owner why.  When the time phrase is not understood the
    owner gets the parse message with the usage help; when the alias is not
    registered, the unknown-alias message with the alias as typed; when the
    time is more than five minutes past, the past-schedule message.  In each
    case the database and the dispatcher are untouched, a pending schedule
    included. *)
Theorem schedule_command_refused
    (parse_natural_datetime : datetime -> string -> option datetime)
    (strftime_local : datetime -> string) (settings : Settings) (now : datetime)
    (text group_alias when : string) (w : World) :
  let handled :=
    handle_owner_command parse_natural_datetime strftime_local settings now
      (ScheduleCommand text group_alias when) w in
  let told reason :=
    (Ok tt,
     mkWorld (db w)
       (outbox w ++ [SendText (owner_wa_id settings) reason "individual"])
       (celery w)) in
  (parse_natural_datetime now when = None -> handled = told could_not_parse_time)
  /\ (forall run_at,
        parse_natural_datetime now when = Some run_at ->
        select_group_by_alias (PyStr.lower group_alias) (db w) = [] ->
        handled
        = told ("Unknown group alias '" ++ group_alias
                ++ "'. Use register group first."))
  /\ (forall run_at group,
        parse_natural_datetime now when = Some run_at ->
        select_group_by_alias (PyStr.lower group_alias) (db w) = [group] ->
        minutes 5 < now - run_at ->
        handled = told "Scheduled time is in the past.").
Proof.
  cbv zeta. unfold handle_owner_command. split; [|split].
  - intros ->. reflexivity.
  - intros run_at -> Hnone.
    unfold schedule_job, schedule_job_interleaved, send_text_message.
    run_session. rewrite Hnone. reflexivity.
  - intros run_at group -> Hgroup Hpast.
    unfold schedule_job, schedule_job_interleaved, send_text_message, to_utc.
    run_session. rewrite Hgroup. run_session.
    assert (Hle : (run_at <=? now) = true).
    { apply Z.leb_le. unfold minutes, seconds in Hpast. lia. }
    rewrite Hle. apply Z.leb_gt in Hpast. rewrite Hpast. reflexivity.
Qed.

Lemma schedule_command_refused_witness :
  handle_owner_command (fun _ _ => None) local_clock settings_of_tests t0
    (ScheduleCommand "hi" "team" "whenever") registered
  = (Ok tt,
     mkWorld (db registered)
       [SendText "owner-wa-id" could_not_parse_time "individual"] [])
  /\ handle_owner_command (reads_as (t0 + hours 1)) local_clock settings_of_tests t0
       (ScheduleCommand "hi" "Sales" "in an hour") registered
     = (Ok tt,
        mkWorld (db registered)
          [SendText "owner-wa-id"
             "Unknown group alias 'Sales'. Use register group first." "individual"]
          [])
  /\ handle_owner_command (reads_as (t0 - minutes 6)) local_clock settings_of_tests
       t0 (ScheduleCommand "hi" "team" "six minutes ago") registered
     = (Ok tt,
        mkWorld (db registered)
          [SendText "owner-wa-id" "Scheduled time is in the past." "individual"] []).
Proof.
  split; [|split].
  - apply (proj1 (schedule_command_refused (fun _ _ => None) local_clock
                    settings_of_tests t0 "hi" "team" "whenever" registered)).
    reflexivity.
  - apply (proj1 (proj2 (schedule_command_refused (reads_as (t0 + hours 1))
                           local_clock settings_of_tests t0 "hi" "Sales"
                           "in an hour" registered)) (t0 + hours 1));
      reflexivity.
  - apply (proj2 (proj2 (schedule_command_refused (reads_as (t0 - minutes 6))
                           local_clock settings_of_tests t0 "hi" "team"
                           "six minutes ago" registered)) (t0 - minutes 6) team);
      [reflexivity|reflexivity|vm_compute; reflexivity].
Defined.

(** ** Recording, resolving and sweeping correlations *)

Lemma filter_filter_implied {A} (p q : A -> bool) (l : list A) :
  (forall x, q x = true -> p x = true) -> filter q (filter p l) = filter q l.
Proof.
  intros Hqp. induction l as [|x l IH]; [reflexivity|]. cbn [filter].
  destruct (p x) eqn:Hp; cbn [filter]; rewrite IH; [reflexivity|].
  destruct (q x) eqn:Hq; [|reflexivity]. apply Hqp in Hq. congruence.
Qed.

Lemma filter_filter_comm {A} (p q : A -> bool) (l : list A) :
  filter q (filter p l) = filter p (filter q l).
Proof.
  induction l as [|x l IH]; [reflexivity|]. cbn [filter].
  destruct (p x) eqn:Hp; destruct (q x) eqn:Hq; cbn [filter];
    rewrite ?Hp, ?Hq, IH; reflexivity.
Qed.

Lemma length_filter_negb {A} (p : A -> bool) (l : list A) :
  List.length l
  = (List.length (filter p l) + List.length (filter (fun x => negb (p x)) l))%nat.
Proof.
  induction l as [|x l IH]; [reflexivity|]. cbn [filter].
  destruct (p x); cbn [negb List.length]; lia.
Qed.

Lemma record_correlation_fresh (settings : Settings) (now : datetime) (job_id : Z)
    (group_id m : string) (original : option string) (w : World) :
  select_correlation_by_bot_message_id (Some m) (db w) = [] ->
  let c :=
    MessageCorrelation.mk
      (next_id (map MessageCorrelation.id (message_correlations (db w))))
      m group_id job_id original (now + hours (message_window_hours settings)) now in
  record_correlation settings now job_id group_id (Some m) original w
  = (Ok c,
     mkWorld (set_message_correlations (message_correlations (db w) ++ [c]) (db w))
       (outbox w) (celery w))
  /\ select_correlation_by_bot_message_id (Some m)
       (set_message_correlations (message_correlations (db w) ++ [c]) (db w))
     = [c].
Proof.
  intros Hfresh. cbv zeta. unfold record_correlation. run_session.
  assert (Hnone : filter (correlation_has_bot_message_id m)
                    (message_correlations (db w)) = []).
  { rewrite <- Hfresh. unfold select_correlation_by_bot_message_id.
    apply filter_ext. intros c. unfold correlation_has_bot_message_id, option_eqb.
    apply String.eqb_sym. }
  rewrite Hnone. run_session. split; [reflexivity|].
  unfold select_correlation_by_bot_message_id in *.
  cbn [message_correlations set_message_correlations].
  rewrite filter_app, Hfresh.
  cbn [filter option_eqb MessageCorrelation.bot_message_id app].
  now rewrite String.eqb_refl.
Qed.

(** X16.  Recording and resolving.  [record_correlation], given a bot
    message id that no stored correlation has, stores one correlation for
    the Job and destination given, created at the clock and expiring
    [message_window_hours] later.  From then until it expires,
    [find_correlation_for_context] called with that bot message id as
    context returns this correlation, for whatever group the reply came
    from. *)
Theorem record_correlation_then_resolve (settings : Settings) (now later : datetime)
    (job_id : Z) (group_id m : string) (original : option string)
    (asked_group : string) (w : World) :
  m <> EmptyString ->
  select_correlation_by_bot_message_id (Some m) (db w) = [] ->
  later < now + hours (message_window_hours settings) ->
  exists c w',
    record_correlation settings now job_id group_id (Some m) original w = (Ok c, w')
    /\ MessageCorrelation.job_id c = job_id
    /\ MessageCorrelation.group_id c = group_id
    /\ MessageCorrelation.bot_message_id c = m
    /\ MessageCorrelation.window_expires_at c
       = now + hours (message_window_hours settings)
    /\ message_correlations (db w') = (message_correlations (db w) ++ [c])%list
    /\ find_correlation_for_context later asked_group (Some m) w' = (Ok (Some c), w').
Proof.
  intros Hm Hfresh Hlater.
  destruct (record_correlation_fresh settings now job_id group_id m original w Hfresh)
    as [Hrecord Hselect].
  do 2 eexists. split; [exact Hrecord|]. repeat split.
  unfold find_correlation_for_context. run_session.
  destruct m as [|a m']; [contradiction|]. cbn [PyStr.truthy PyStr.is_empty negb].
  rewrite Hselect. run_session. unfold _window_in_future.
  cbn [MessageCorrelation.window_expires_at].
  apply Z.ltb_lt in Hlater. rewrite Hlater. reflexivity.
Qed.

Lemma record_correlation_then_resolve_witness :
  exists c w',
    record_correlation settings_of_tests t0 3 "12345@g.us" (Some "wamid.3") None
      world_of_correlations = (Ok c, w')
    /\ MessageCorrelation.job_id c = 3
    /\ MessageCorrelation.group_id c = "12345@g.us"
    /\ MessageCorrelation.bot_message_id c = "wamid.3"
    /\ MessageCorrelation.window_expires_at c = t0 + hours 12
    /\ message_correlations (db w')
       = (message_correlations (db world_of_correlations) ++ [c])%list
    /\ find_correlation_for_context (t0 + hours 11) "another@g.us" (Some "wamid.3") w'
       = (Ok (Some c), w').
Proof.
  apply (record_correlation_then_resolve settings_of_tests t0 (t0 + hours 11) 3
           "12345@g.us" "wamid.3" None "another@g.us" world_of_correlations);
    [discriminate|reflexivity|vm_compute; reflexivity].
Defined.

(** X17.  The sweep.  [cleanup_expired_correlations] keeps, in their
    order, the correlations whose window does not end before the clock, one
    ending exactly at the clock included, and returns how many it removed.
    It changes no other table.  And it is invisible to resolution: at the
    time of the sweep or later, [find_correlation_for_context] answers after
    the sweep what it would have answered without it. *)
Theorem cleanup_expired_correlations_sweep (now later : datetime)
    (group_id : string) (context_message_id : option string) (w : World) :
  bot_message_ids_unique (db w) ->
  now <= later ->
  exists removed w',
    cleanup_expired_correlations now w = (Ok removed, w')
    /\ message_correlations (db w')
       = filter (fun c => now <=? MessageCorrelation.window_expires_at c)
           (message_correlations (db w))
    /\ Z.of_nat (List.length (message_correlations (db w)))
       = removed + Z.of_nat (List.length (message_correlations (db w')))
    /\ jobs (db w') = jobs (db w) /\ groups (db w') = groups (db w)
    /\ pending_schedules (db w') = pending_schedules (db w)
    /\ outbox w' = outbox w /\ celery w' = celery w
    /\ fst (find_correlation_for_context later group_id context_message_id w')
       = fst (find_correlation_for_context later group_id context_message_id w).
Proof.
  intros Hunique Hlater.
  unfold cleanup_expired_correlations. run_session. do 2 eexists.
  split; [reflexivity|].
  cbn [db message_correlations set_message_correlations jobs groups
       pending_schedules outbox celery].
  set (expired := fun c => MessageCorrelation.window_expires_at c <? now).
  set (rows := message_correlations (db w)).
  assert (Hkept : filter (fun c => negb (expired c)) rows
                  = filter (fun c => now <=? MessageCorrelation.window_expires_at c)
                      rows).
  { apply filter_ext. intros c. unfold expired.
    destruct (Z.ltb_spec (MessageCorrelation.window_expires_at c) now);
      destruct (Z.leb_spec now (MessageCorrelation.window_expires_at c));
      cbn; try reflexivity; lia. }
  split; [exact Hkept|]. split.
  { rewrite (length_filter_negb expired rows) at 1. unfold expired. cbv beta. lia. }
  repeat split.
  unfold find_correlation_for_context. run_session.
  match goal with
  | |- context [set_message_correlations ?k (db w)] => set (kept := k)
  end.
  assert (Hk : kept
               = filter (fun c => now <=? MessageCorrelation.window_expires_at c)
                   rows) by (subst kept; exact Hkept).
  rewrite Hk. clear kept Hk.
  assert (Hfallback :
    select_unexpired_correlations later group_id
      (set_message_correlations
         (filter (fun c => now <=? MessageCorrelation.window_expires_at c) rows)
         (db w))
    = select_unexpired_correlations later group_id (db w)).
  { unfold select_unexpired_correlations.
    cbn [message_correlations set_message_correlations].
    apply filter_filter_implied. intros c Hc.
    apply andb_true_iff in Hc as [_ Hc]. apply Z.ltb_lt in Hc.
    apply Z.leb_le. lia. }
  rewrite Hfallback.
  assert (Hrecent : forall w1 w2 : World,
    fst (match order_by created_at_desc
                 (select_unexpired_correlations later group_id (db w)) with
         | [] => fun w0 : World => (Ok (@None MessageCorrelation.t), w0)
         | c :: _ =>
             if _window_in_future (MessageCorrelation.window_expires_at c) later
             then fun w0 : World => (Ok (Some c), w0)
             else fun w0 : World => (Ok None, w0)
         end w1)
    = fst (match order_by created_at_desc
                   (select_unexpired_correlations later group_id (db w)) with
           | [] => fun w0 : World => (Ok (@None MessageCorrelation.t), w0)
           | c :: _ =>
               if _window_in_future (MessageCorrelation.window_expires_at c) later
               then fun w0 : World => (Ok (Some c), w0)
               else fun w0 : World => (Ok None, w0)
           end w2)).
  { intros w1 w2.
    destruct (order_by created_at_desc
                (select_unexpired_correlations later group_id (db w)))
      as [|c0 rest0]; [reflexivity|].
    destruct (_window_in_future (MessageCorrelation.window_expires_at c0) later);
      reflexivity. }
  destruct (PyStr.truthy context_message_id) eqn:Hcontext; [|apply Hrecent].
  destruct (truthy_context _ Hcontext) as (m & -> & Hm).
  assert (Hselect :
    select_correlation_by_bot_message_id (Some m)
      (set_message_correlations
         (filter (fun c => now <=? MessageCorrelation.window_expires_at c) rows)
         (db w))
    = filter (fun c => now <=? MessageCorrelation.window_expires_at c)
        (select_correlation_by_bot_message_id (Some m) (db w))).
  { unfold select_correlation_by_bot_message_id.
    cbn [message_correlations set_message_correlations].
    apply filter_filter_comm. }
  rewrite Hselect.
  destruct (at_most_one _ (Hunique m)) as [Hnone | [c Hone]].
  - rewrite Hnone. cbn [filter]. apply Hrecent.
  - rewrite Hone. cbn [filter].
    destruct (now <=? MessageCorrelation.window_expires_at c) eqn:Hlive.
    + destruct (_window_in_future (MessageCorrelation.window_expires_at c) later);
        [reflexivity|apply Hrecent].
    + apply Z.leb_gt in Hlive.
      assert (Hgone :
        _window_in_future (MessageCorrelation.window_expires_at c) later = false)
        by (apply Z.ltb_ge; lia).
      rewrite Hgone. apply Hrecent.
Qed.

Lemma cleanup_expired_correlations_sweep_witness :
  exists removed w',
    cleanup_expired_correlations (t0 + hours 12 + minutes 30) world_of_correlations
    = (Ok removed, w')
    /\ message_correlations (db w')
       = filter (fun c => t0 + hours 12 + minutes 30
                          <=? MessageCorrelation.window_expires_at c)
           (message_correlations (db world_of_correlations))
    /\ Z.of_nat (List.length (message_correlations (db world_of_correlations)))
       = removed + Z.of_nat (List.length (message_correlations (db w')))
    /\ jobs (db w') = jobs (db world_of_correlations)
    /\ groups (db w') = groups (db world_of_correlations)
    /\ pending_schedules (db w') = pending_schedules (db world_of_correlations)
    /\ outbox w' = outbox world_of_correlations
    /\ celery w' = celery world_of_correlations
    /\ fst (find_correlation_for_context (t0 + hours 12 + minutes 45) "12345@g.us"
              (Some "wamid.1") w')
       = fst (find_correlation_for_context (t0 + hours 12 + minutes 45) "12345@g.us"
                (Some "wamid.1") world_of_correlations).
Proof.
  apply (cleanup_expired_correlations_sweep (t0 + hours 12 + minutes 30)
           (t0 + hours 12 + minutes 45) "12345@g.us" (Some "wamid.1")
           world_of_correlations).
  - intros m. unfold select_correlation_by_bot_message_id, option_eqb.
    cbn [world_of_correlations db message_correlations filter correlation_1
         correlation_2 MessageCorrelation.bot_message_id].
    destruct (String.eqb m "wamid.1") eqn:H1;
      destruct (String.eqb m "wamid.2") eqn:H2; cbn [List.length]; try lia.
    apply String.eqb_eq in H1, H2. subst m. discriminate.
  - vm_compute. discriminate.
Defined.

(** ** The job executor on a due Job *)

Lemma update_first_others {A} (p : A -> bool) (f : A -> A) (l : list A) :
  Forall2 (fun x x' => p x = false -> x' = x) l (update_first p f l).
Proof.
  induction l as [|x l IH]; cbn [update_first]; [constructor|].
  destruct (p x) eqn:Hp; constructor; auto.
  - congruence.
  - apply Forall2_refl. auto.
Qed.

(** X18.  A successful send.  For a Job that is due (stored, neither
    [CANCELLED] nor [SENT], no correlation row yet), when the client answers
    with a message id that no stored correlation has, the delivery returns;
    the client was called once, with the Job's destination and text; the Job
    is [SENT] with no error; one correlation is stored for the Job, its
    destination and the message id, expiring [message_window_hours] after
    the clock; and nothing was handed to Celery. *)
Theorem fire_event_sends_and_records (settings : Settings) (now : datetime)
    (request_retries : Z) (job_id : Z) (m : string) (more : list (option string))
    (job : Job.t) (w : World) :
  find (job_has_id job_id) (jobs (db w)) = Some job ->
  ~ terminal_for_guards (Job.status job) ->
  select_correlation_by_job job_id (db w) = [] ->
  select_correlation_by_bot_message_id (Some m) (db w) = [] ->
  let c :=
    MessageCorrelation.mk
      (next_id (map MessageCorrelation.id (message_correlations (db w))))
      m (Job.group_id job) job_id None
      (now + hours (message_window_hours settings)) now in
  deliver_fire_event settings now request_retries (Responds (Some m :: more)) job_id w
  = (Ok tt,
     mkWorld
       (mkDB (update_first (job_has_id job_id) mark_sent (jobs (db w)))
          (groups (db w)) (pending_schedules (db w))
          (message_correlations (db w) ++ [c]))
       (outbox w ++ [SendText (Job.group_id job) (Job.text job)
                       (recipient_type_of (Job.group_id job))])
       (celery w)).
Proof.
  intros Hfind Hopen Hnone Hfresh. cbv zeta.
  assert (Hunused : filter (correlation_has_bot_message_id m)
                      (message_correlations (db w)) = []).
  { rewrite <- Hfresh. unfold select_correlation_by_bot_message_id.
    apply filter_ext. intros c. unfold correlation_has_bot_message_id, option_eqb.
    apply String.eqb_sym. }
  unfold_operations. run_session. rewrite Hfind. run_session.
  rewrite (find_job_has_id _ _ _ Hfind).
  destruct (Job.status job) eqn:Hstatus; run_session.
  2, 3: exfalso; apply Hopen; unfold terminal_for_guards; auto.
  all: rewrite Hnone; run_session; rewrite Hunused; run_session;
    rewrite Hfind; reflexivity.
Qed.

Lemma fire_event_sends_and_records_witness :
  deliver_fire_event settings_of_tests (t0 + seconds 1) 0
    (Responds [Some "wamid.9"]) 1 (world_of_jobs [scheduled_job])
  = (Ok tt,
     mkWorld
       (mkDB [mark_sent scheduled_job] [team] []
          [MessageCorrelation.mk 1 "wamid.9" "12345@g.us" 1 None
             (t0 + seconds 1 + hours 12) (t0 + seconds 1)])
       [SendText "12345@g.us" "hi" "group"] []).
Proof.
  apply (fire_event_sends_and_records settings_of_tests (t0 + seconds 1) 0 1
           "wamid.9" [] scheduled_job (world_of_jobs [scheduled_job]));
    try reflexivity.
  intros [H|H]; discriminate.
Defined.



(** X20.  An answer without a message id.  For a due Job, when the client
    returns a response whose message list is empty, the task raises
    [RuntimeError]; the Job ends [FAILED] with the error text
    [No message id returned from WhatsApp]; no correlation is stored, so a
    reply to that message cannot be resolved through its id; and the client
    was called once. *)
Theorem fire_event_without_message_id (settings : Settings) (now : datetime)
    (request_retries : Z) (job_id : Z) (job : Job.t) (w : World) :
  find (job_has_id job_id) (jobs (db w)) = Some job ->
  ~ terminal_for_guards (Job.status job) ->
  select_correlation_by_job job_id (db w) = [] ->
  deliver_fire_event settings now request_retries (Responds []) job_id w
  = (Raise (RuntimeError "No message id returned from WhatsApp"),
     mkWorld
       (set_jobs
          (update_first (job_has_id job_id)
             (fun j =>
                Job.set_last_error (Some "No message id returned from WhatsApp")
                  (Job.set_status FAILED j))
             (jobs (db w)))
          (db w))
       (outbox w ++ [SendText (Job.group_id job) (Job.text job)
                       (recipient_type_of (Job.group_id job))])
       (celery w)).
Proof.
  intros Hfind Hopen Hnone.
  unfold_operations. run_session. rewrite Hfind. run_session.
  rewrite (find_job_has_id _ _ _ Hfind).
  destruct (Job.status job) eqn:Hstatus; run_session.
  2, 3: exfalso; apply Hopen; unfold terminal_for_guards; auto.
  all: rewrite Hnone; run_session; rewrite Hfind; run_session;
    rewrite Hfind; reflexivity.
Qed.

Lemma fire_event_without_message_id_witness :
  deliver_fire_event settings_of_tests t0 0 (Responds []) 1
    (world_of_jobs [scheduled_job])
  = (Raise (RuntimeError "No message id returned from WhatsApp"),
     mkWorld (mkDB [failed_job] [team] [] [])
       [SendText "12345@g.us" "hi" "group"] []).
Proof.
  apply (fire_event_without_message_id settings_of_tests t0 0 1 scheduled_job
           (world_of_jobs [scheduled_job])); try reflexivity.
  intros [H|H]; discriminate.
Defined.

(** X21.  What a delivery leaves alone.  Whatever the state, the time,
    the retry count and the client's answer, one delivery of the fire event
    for a Job changes neither the groups nor the pending schedules, changes
    no Job with another primary key, stores at most one correlation, for
    that Job, and calls the client at most once. *)
Theorem fire_event_frame (settings : Settings) (now : datetime)
    (request_retries : Z) (reply : ClientReply) (job_id : Z) (w : World) :
  let w' := snd (deliver_fire_event settings now request_retries reply job_id w) in
  groups (db w') = groups (db w)
  /\ pending_schedules (db w') = pending_schedules (db w)
  /\ Forall2 (fun j j' => Job.id j <> job_id -> j' = j) (jobs (db w)) (jobs (db w'))
  /\ (message_correlations (db w') = message_correlations (db w)
      \/ exists c,
           message_correlations (db w') = (message_correlations (db w) ++ [c])%list
           /\ MessageCorrelation.job_id c = job_id)
  /\ (outbox w' = outbox w \/ exists call, outbox w' = (outbox w ++ [call])%list).
Proof.
  cbv zeta.
  assert (Hother : forall f,
    Forall2 (fun j j' => Job.id j <> job_id -> j' = j) (jobs (db w))
      (update_first (job_has_id job_id) f (jobs (db w)))).
  { intros f.
    eapply Forall2_impl; [|apply (update_first_others (job_has_id job_id) f)].
    intros j j' H Hid. apply H. unfold job_has_id. now apply Z.eqb_neq. }
  assert (Hsame : Forall2 (fun j j' => Job.id j <> job_id -> j' = j)
                    (jobs (db w)) (jobs (db w)))
    by (apply Forall2_refl; auto).
  unfold_operations. run_session.
  destruct (find (job_has_id job_id) (jobs (db w))) as [job|] eqn:Hfind;
    run_session; [|repeat split; auto].
  rewrite (find_job_has_id _ _ _ Hfind).
  destruct (Job.status job) eqn:Hstatus; run_session;
    try (repeat split; auto; fail).
  all: destruct (select_correlation_by_job job_id (db w)) as [|c [|c' cs]];
    run_session; rewrite ?Hfind; run_session.
  all: try (destruct reply as [[|[m|] ms]| |];
            run_session; rewrite ?Hfind; run_session).
  all: try (destruct (filter (correlation_has_bot_message_id m)
                        (message_correlations (db w)));
            run_session; rewrite ?Hfind; run_session).
  all: try (destruct (max_retries <? request_retries + 1);
            run_session; rewrite ?Hfind; run_session).
  all: cbn [snd db jobs groups pending_schedules message_correlations set_jobs
            set_message_correlations outbox].
  all: repeat split; auto.
  all: try (right; eexists; reflexivity).
  all: try (right; eexists; split; reflexivity).
  all: try (left; reflexivity).
Qed.

(** ** The owner's messages *)






(** ** Who is written to *)

Section Outbox.

Context {A B : Type}.

Lemma silent_ret (a : A) : silent (ret a).
Proof. intros w. reflexivity. Qed.

Lemma silent_raise (e : exn) : silent (raise e : M A).
Proof. intros w. reflexivity. Qed.

Lemma silent_bind (m : M A) (k : A -> M B) :
  silent m -> (forall a, silent (k a)) -> silent (bind m k).
Proof.
  intros Hm Hk w. unfold bind. specialize (Hm w).
  destruct (m w) as [[a|e] w1]; cbn [snd] in *.
  - rewrite (Hk a w1). exact Hm.
  - exact Hm.
Qed.

Lemma silent_scalar_one_or_none (rows : list A) : silent (scalar_one_or_none rows).
Proof. intros w. destruct rows as [|r [|r' rows]]; reflexivity. Qed.

Lemma silent_except_ValueError (m : M A) : silent m -> silent (except_ValueError m).
Proof.
  intros Hm w. unfold except_ValueError. specialize (Hm w).
  destruct (m w) as [[a|[]] w1]; exact Hm.
Qed.

Lemma silent_answers (to : string) (m : M A) : silent m -> answers to m.
Proof. intros Hm w. left. apply Hm. Qed.

Lemma answers_bind (to : string) (m : M A) (k : A -> M B) :
  silent m -> (forall a, answers to (k a)) -> answers to (bind m k).
Proof.
  intros Hm Hk w. unfold bind. specialize (Hm w).
  destruct (m w) as [[a|e] w1]; cbn [snd] in *.
  - rewrite <- Hm. apply Hk.
  - now left.
Qed.

Lemma answers_session_scope (to : string) (m : M A) :
  answers to m -> answers to (session_scope m).
Proof.
  intros Hm w. unfold session_scope. specialize (Hm w).
  destruct (m w) as [[a|e] w1]; exact Hm.
Qed.

End Outbox.

Lemma silent_get_db : silent get_db.
Proof. intros w. reflexivity. Qed.

Lemma silent_modify_db (f : DB -> DB) : silent (modify_db f).
Proof. intros w. reflexivity. Qed.

Lemma silent_celery_call (c : CeleryCall) : silent (celery_call c).
Proof. intros w. reflexivity. Qed.

Lemma silent_celery_calls : silent celery_calls.
Proof. intros w. reflexivity. Qed.

Lemma answers_send_text_message (to text : string) :
  answers to (send_text_message to text).
Proof. intros w. right. exists text. reflexivity. Qed.

Ltac silence :=
  repeat first
    [ apply silent_ret | apply silent_raise | apply silent_get_db
    | apply silent_modify_db | apply silent_celery_call | apply silent_celery_calls
    | apply silent_scalar_one_or_none
    | apply silent_bind; [|intros ?]
    | match goal with
      | |- silent (match ?x with _ => _ end) => destruct x
      | |- silent (let _ := _ in _) => cbv zeta
      end ].

Lemma silent_schedule_job (now : datetime) (group_alias text : string)
    (run_at : datetime) (created_by : string) (key : option string) :
  silent (schedule_job now group_alias text run_at created_by key).
Proof.
  unfold schedule_job, schedule_job_interleaved, add_job, send_task, update_job.
  silence.
Qed.

Lemma silent_get_pending_schedule (owner_id : string) :
  silent (get_pending_schedule owner_id).
Proof. unfold get_pending_schedule. silence. Qed.

Lemma silent_clear_pending_schedule (owner_id : string) :
  silent (clear_pending_schedule owner_id).
Proof. unfold clear_pending_schedule, get_pending_schedule. silence. Qed.

Lemma silent_save_pending_schedule (now : datetime) (owner_id group_alias : string)
    (run_at : datetime) :
  silent (save_pending_schedule now owner_id group_alias run_at).
Proof. unfold save_pending_schedule, get_pending_schedule. silence. Qed.

Lemma silent_get_group_by_alias (alias : string) : silent (get_group_by_alias alias).
Proof. unfold get_group_by_alias. silence. Qed.

Lemma silent_list_jobs : silent list_jobs.
Proof. unfold list_jobs. silence. Qed.

Lemma silent_list_groups : silent list_groups.
Proof. unfold list_groups. silence. Qed.

Lemma silent_cancel_job (job_id : Z) : silent (cancel_job job_id).
Proof. unfold cancel_job, get_job, update_job. silence. Qed.

Lemma silent_register_group (now : datetime) (alias group_id : string)
    (group_name : option string) :
  silent (register_group now alias group_id group_name).
Proof. unfold register_group. silence. Qed.

Lemma silent_unregister_group (alias : string) : silent (unregister_group alias).
Proof. unfold unregister_group. silence. Qed.

Ltac answer :=
  repeat first
    [ apply answers_send_text_message
    | apply silent_answers;
      first [ apply silent_ret | apply silent_raise ]
    | apply answers_bind;
      [ first [ apply silent_schedule_job | apply silent_get_pending_schedule
              | apply silent_clear_pending_schedule
              | apply silent_save_pending_schedule
              | apply silent_get_group_by_alias | apply silent_list_jobs
              | apply silent_list_groups | apply silent_cancel_job
              | apply silent_register_group | apply silent_unregister_group
              | apply silent_except_ValueError; apply silent_schedule_job ]
      | intros ? ]
    | match goal with
      | |- answers _ (match ?x with _ => _ end) => destruct x
      | |- answers _ (let _ := _ in _) => cbv zeta
      end ].

Lemma process_owner_message_answers
    (parse_natural_datetime : datetime -> string -> option datetime)
    (strftime_local : datetime -> string) (settings : Settings) (now : datetime)
    (message : IncomingMessage) :
  answers (owner_wa_id settings)
    (process_owner_message parse_natural_datetime strftime_local settings now
       message).
Proof.
  unfold process_owner_message. apply answers_session_scope.
  unfold handle_owner_command, _complete_pending_schedule.
  answer.
Qed.

(** X24.  The owner's conversation stays with the owner.  Whatever the
    message, the state and the result (returned or raised), handling one
    incoming message on the owner's channel hands the client at most one
    message, and that message is a text addressed to [owner_wa_id] as an
    individual: no command makes the bot write to a group or to the sender
    of an unauthorised message. *)
Theorem owner_message_answers_owner
    (parse_natural_datetime : datetime -> string -> option datetime)
    (strftime_local : datetime -> string) (settings : Settings) (now : datetime)
    (message : IncomingMessage) (w : World) :
  let w' :=
    snd (process_owner_message parse_natural_datetime strftime_local settings now
           message w) in
  outbox w' = outbox w
  \/ exists reply,
       outbox w'
       = (outbox w ++ [SendText (owner_wa_id settings) reply "individual"])%list.
Proof.
  apply (process_owner_message_answers parse_natural_datetime strftime_local
           settings now message w).
Qed.

(** ** The admin endpoints *)

Lemma world_eta (w : World) : mkWorld (db w) (outbox w) (celery w) = w.
Proof. destruct w. reflexivity. Qed.

(** X25.  The admin endpoints fail closed.  When no admin token is
    configured ([x_admin_token] is [None] or empty), or the header differs
    from the configured token, each of the three endpoints answers 401
    [Unauthorized] and leaves the world as it was: no Job is cancelled and
    nothing is revoked.  With no token configured there is no header value,
    absent or empty, that gets in. *)
Theorem admin_endpoints_fail_closed (x_admin_token admin_token : option string)
    (job_id : Z) (w : World) :
  PyStr.truthy x_admin_token = false \/ admin_token <> x_admin_token ->
  list_jobs_endpoint x_admin_token admin_token w
  = (HTTPException 401 "Unauthorized", w)
  /\ cancel_job_endpoint x_admin_token job_id admin_token w
     = (HTTPException 401 "Unauthorized", w)
  /\ groups_endpoint x_admin_token admin_token w
     = (HTTPException 401 "Unauthorized", w).
Proof.
  intros Hdenied.
  assert (Hcheck : _require_admin_token x_admin_token admin_token
                   = HTTPException 401 "Unauthorized").
  { unfold _require_admin_token. cbv zeta.
    destruct Hdenied as [-> | Hdiffer]; [reflexivity|].
    destruct (PyStr.truthy x_admin_token); [|reflexivity]. cbn [andb].
    destruct admin_token as [a|], x_admin_token as [b|]; cbn; try reflexivity.
    - destruct (String.eqb a b) eqn:Heq; [|reflexivity].
      apply String.eqb_eq in Heq. congruence.
    - congruence. }
  unfold list_jobs_endpoint, cancel_job_endpoint, groups_endpoint,
    after_admin_token, get_session.
  rewrite Hcheck. run_session. rewrite world_eta. auto.
Qed.

Lemma admin_endpoints_fail_closed_witness :
  (list_jobs_endpoint None None (world_of_jobs [scheduled_job])
   = (HTTPException 401 "Unauthorized", world_of_jobs [scheduled_job])
   /\ cancel_job_endpoint None 1 None (world_of_jobs [scheduled_job])
      = (HTTPException 401 "Unauthorized", world_of_jobs [scheduled_job])
   /\ groups_endpoint None None (world_of_jobs [scheduled_job])
      = (HTTPException 401 "Unauthorized", world_of_jobs [scheduled_job]))
  /\ cancel_job_endpoint (Some "secret") 1 (Some "guess")
       (world_of_jobs [scheduled_job])
     = (HTTPException 401 "Unauthorized", world_of_jobs [scheduled_job]).
Proof.
  split.
  - apply (admin_endpoints_fail_closed None None 1 (world_of_jobs [scheduled_job])).
    left. reflexivity.
  - apply (admin_endpoints_fail_closed (Some "secret") (Some "guess") 1
             (world_of_jobs [scheduled_job])).
    right. discriminate.
Defined.



(** ** Messages from groups *)

Lemma find_correlation_for_context_reads_only (now : datetime) (group_id : string)
    (context : option string) (w : World) :
  snd (find_correlation_for_context now group_id context w) = w.
Proof.
  unfold find_correlation_for_context. run_session.
  destruct (PyStr.truthy context); run_session.
  - destruct (select_correlation_by_bot_message_id context (db w))
      as [|c [|c' cs]]; run_session; try reflexivity.
    + destruct (order_by created_at_desc
                  (select_unexpired_correlations now group_id (db w)))
        as [|c cs]; [reflexivity|].
      destruct (_window_in_future _ now); reflexivity.
    + destruct (_window_in_future (MessageCorrelation.window_expires_at c) now);
        run_session; [reflexivity|].
      destruct (order_by created_at_desc
                  (select_unexpired_correlations now group_id (db w)))
        as [|c0 cs]; [reflexivity|].
      destruct (_window_in_future _ now); reflexivity.
  - destruct (order_by created_at_desc
                (select_unexpired_correlations now group_id (db w)))
      as [|c cs]; [reflexivity|].
    destruct (_window_in_future _ now); reflexivity.
Qed.

Lemma session_scope_reads_only {A} (m : M A) (w : World) :
  snd (m w) = w -> session_scope m w = m w.
Proof.
  unfold session_scope. destruct (m w) as [[a|e] w']; cbn [snd]; intros ->.
  - reflexivity.
  - now rewrite world_eta.
Qed.

Lemma substring_length_le (n : nat) (s : string) :
  (String.length (substring 0 n s) <= n)%nat.
Proof.
  revert s. induction n as [|n IH]; intros [|a s]; cbn; try lia.
  specialize (IH s). lia.
Qed.

Lemma substring_prefix (n : nat) (s : string) : prefix (substring 0 n s) s = true.
Proof.
  revert s. induction n as [|n IH]; intros [|a s]; cbn; try reflexivity.
  destruct (Ascii.ascii_dec a a); [apply IH|congruence].
Qed.

(** X27.  What is forwarded, and to whom.  [process_group_message] never
    changes the database, the owner's outbox or the Celery queue, and every
    call it makes is addressed to [owner_wa_id].  A message without a group
    id, from the bot's own number, or for which no correlation is resolved
    makes no call at all.  Every other message makes the interactive call
    first, whose body names the group, the sender and a snippet that is the
    first 180 characters at most of the text, or of the message type
    followed by [message] when there is no text, with a button that opens
    the chat with the sender. *)
Theorem group_message_forwarding (settings : Settings) (now : datetime)
    (interactive_reply template_reply : NotifyReply) (message : IncomingMessage)
    (w : World) :
  let run :=
    process_group_message settings now interactive_reply template_reply message w in
  let calls := snd (fst run) in
  snd run = w
  /\ Forall (fun call => notify_to call = owner_wa_id settings) calls
  /\ (~ forwardable settings now message w -> calls = [])
  /\ (forwardable settings now message w ->
      exists snippet rest,
        calls
        = SendInteractive (owner_wa_id settings) None
            ("[Group: "
             ++ or_else (group_name message) (or_else (group_id message) EmptyString)
             ++ "] " ++ or_else (sender_name message) (sender_wa_id message)
             ++ ": " ++ snippet)
            ("https://wa.me/" ++ sender_wa_id message)
            ("Open chat with "
             ++ or_else (sender_name message) (sender_wa_id message))
          :: rest
        /\ (String.length snippet <= 180)%nat
        /\ prefix snippet
             (or_else (text message) (message_type message ++ " message")) = true).
Proof.
  cbv zeta. unfold forwardable, process_group_message.
  destruct (PyStr.truthy (group_id message)) eqn:Hgroup; cbn [negb orb].
  2: { cbn. repeat split; auto. intros [Habsurd _]. discriminate. }
  destruct (String.eqb (sender_wa_id message) (wa_phone_number_id settings))
    eqn:Hsender.
  { apply String.eqb_eq in Hsender. cbn. repeat split; auto.
    intros (_ & Habsurd & _). contradiction. }
  rewrite session_scope_reads_only
    by apply find_correlation_for_context_reads_only.
  pose proof (find_correlation_for_context_reads_only now
                (or_else (group_id message) EmptyString)
                (context_message_id message) w) as Hreads.
  destruct (find_correlation_for_context now
              (or_else (group_id message) EmptyString)
              (context_message_id message) w) as [[[c|]|e] w'];
    cbn [fst snd] in *; subst w'.
  2, 3: repeat split; auto; intros (_ & _ & c & Habsurd); discriminate.
  assert (Hforward : true = true /\
            sender_wa_id message <> wa_phone_number_id settings /\
            exists c0, Ok (Some c) = Ok (Some c0)).
  { split; [reflexivity|]. split; [now apply String.eqb_neq|]. now exists c. }
  unfold send_owner_notify.
  destruct interactive_reply as [|exc|];
    [| destruct (_should_use_template exc); [destruct template_reply|] |];
    cbn [fst snd];
    (split; [reflexivity|]);
    (split; [repeat constructor|]);
    (split; [intros Hnot; contradiction|]);
    intros _; do 2 eexists; (split; [reflexivity|]);
    (split; [apply substring_length_le|apply substring_prefix]).
Qed.

Lemma group_message_forwarding_witness :
  exists snippet rest,
    snd (fst (process_group_message settings_of_tests (t0 + hours 1) Accepts Accepts
                group_reply world_of_correlations))
    = SendInteractive "owner-wa-id" None
        ("[Group: Team] Dana: " ++ snippet) "https://wa.me/972500000001"
        "Open chat with Dana" :: rest
    /\ (String.length snippet <= 180)%nat
    /\ prefix snippet "On my way" = true.
Proof.
  apply (proj2 (proj2 (proj2
           (group_message_forwarding settings_of_tests (t0 + hours 1) Accepts
              Accepts group_reply world_of_correlations)))).
  split; [reflexivity|]. split; [discriminate|].
  exists correlation_1. vm_compute. reflexivity.
Defined.

Lemma process_group_message_calls (settings : Settings) (now : datetime)
    (interactive_reply template_reply : NotifyReply) (message : IncomingMessage)
    (w : World) :
  let run :=
    process_group_message settings now interactive_reply template_reply message w in
  (~ forwardable settings now message w /\ snd (fst run) = [])
  \/ (forwardable settings now message w
      /\ exists interactive group_name sender_name snippet cta_url,
           ~ is_template interactive
           /\ match interactive_reply with
              | RefusesWith exc =>
                  if _should_use_template exc then
                    snd (fst run)
                    = [interactive;
                       SendTemplate (owner_wa_id settings) "owner_notify" "en_US"
                         [group_name; sender_name; snippet] cta_url]
                  else
                    snd (fst run) = [interactive]
                    /\ fst (fst run) = Raise HTTPStatusError
              | _ => snd (fst run) = [interactive]
              end).
Proof.
  cbv zeta. unfold forwardable, process_group_message.
  destruct (PyStr.truthy (group_id message)) eqn:Hgroup; cbn [negb orb].
  2: { left. split; [intros [Habsurd _]; discriminate|reflexivity]. }
  destruct (String.eqb (sender_wa_id message) (wa_phone_number_id settings))
    eqn:Hsender.
  { apply String.eqb_eq in Hsender. left.
    split; [intros (_ & Habsurd & _); contradiction|reflexivity]. }
  rewrite session_scope_reads_only
    by apply find_correlation_for_context_reads_only.
  destruct (find_correlation_for_context now
              (or_else (group_id message) EmptyString)
              (context_message_id message) w) as [[[c|]|e] w'];
    cbn [fst snd] in *.
  2, 3: left; split; [intros (_ & _ & c & Habsurd); discriminate|reflexivity].
  right. split.
  { split; [reflexivity|]. split; [now apply String.eqb_neq|]. now exists c. }
  unfold send_owner_notify.
  destruct interactive_reply as [|exc|];
    [| destruct (_should_use_template exc); [destruct template_reply|] |];
    cbn [fst snd].
  2, 3, 4: do 5 eexists; (split; [|reflexivity]);
    intros Htemplate; exact Htemplate.
  all: eexists; exists EmptyString, EmptyString, EmptyString, EmptyString;
    (split; [|first [reflexivity | split; reflexivity]]);
    intros Htemplate; exact Htemplate.
Qed.

(** X28.  The template fallback.  [process_group_message] sends a template
    exactly when the message is one it forwards and the provider refused the
    interactive call with an error object whose [code] is 470 or whose
    [error_subcode] is 2018041, 2018042 or 2018046; the template is then
    [owner_notify] in [en_US] with three body parameters, sent after the
    interactive call.  An HTTP refusal with any other error is raised to the
    caller and no template is sent. *)
Theorem group_message_template_fallback (settings : Settings) (now : datetime)
    (interactive_reply template_reply : NotifyReply) (message : IncomingMessage)
    (w : World) :
  let run :=
    process_group_message settings now interactive_reply template_reply message w in
  let calls := snd (fst run) in
  let window_closed :=
    exists code subcode,
      interactive_reply = RefusesWith (ErrorObject code subcode)
      /\ (code = Some 470 \/ subcode = Some 2018041 \/ subcode = Some 2018042
          \/ subcode = Some 2018046) in
  (Exists is_template calls <-> forwardable settings now message w /\ window_closed)
  /\ (forall call, In call calls -> is_template call ->
      exists group_name sender_name snippet cta_url,
        call = SendTemplate (owner_wa_id settings) "owner_notify" "en_US"
                 [group_name; sender_name; snippet] cta_url
        /\ calls <> [call])
  /\ (forwardable settings now message w ->
      (exists exc, interactive_reply = RefusesWith exc) ->
      ~ window_closed ->
      fst (fst run) = Raise HTTPStatusError).
Proof.
  cbv zeta.
  assert (Hcodes : forall exc,
    _should_use_template exc = true
    <-> exists code subcode,
          RefusesWith exc = RefusesWith (ErrorObject code subcode)
          /\ (code = Some 470 \/ subcode = Some 2018041 \/ subcode = Some 2018042
              \/ subcode = Some 2018046)).
  { intros [| |code subcode]; cbn [_should_use_template].
    1, 2: split; [discriminate|intros (? & ? & ? & _); discriminate].
    split.
    - intros H. exists code, subcode. split; [reflexivity|].
      apply orb_true_iff in H as [H|H].
      + destruct code as [c|]; [|discriminate]. apply Z.eqb_eq in H. subst. auto.
      + destruct subcode as [s|]; [|discriminate]. cbn [existsb] in H.
        rewrite !orb_true_iff, !Z.eqb_eq in H.
        destruct H as [H|[H|[H|H]]]; subst; auto. discriminate.
    - intros (code' & subcode' & Heq & H). injection Heq as <- <-.
      apply orb_true_iff.
      destruct H as [ -> | [ -> | [ -> | -> ] ] ]; [left|right|right|right];
        reflexivity. }
  destruct (process_group_message_calls settings now interactive_reply
              template_reply message w)
    as [[Hnot Hcalls] | [Hforward Hcalls]]; cbv zeta in Hcalls.
  { rewrite Hcalls. split; [split|split].
    - intros Hex. inversion Hex.
    - intros [Hforward _]. contradiction.
    - intros call [].
    - intros Hforward. contradiction. }
  destruct Hcalls
    as (interactive & group_name & sender_name & snippet & cta_url & Hplain & Hcalls).
  destruct interactive_reply as [|exc|].
  - rewrite Hcalls. split; [split|split].
    + intros Hex.
      inversion Hex as [? ? Hcall|? ? Hrest]; [contradiction|inversion Hrest].
    + intros [_ (code & subcode & Habsurd & _)]. discriminate.
    + intros call [ <- | [] ] Htemplate. contradiction.
    + intros _ [exc Habsurd]. discriminate.
  - pose proof (Hcodes exc) as Hexc.
    destruct (_should_use_template exc).
    + rewrite Hcalls. split; [split|split].
      * intros _. split; [exact Hforward|]. now apply Hexc.
      * intros _. right. left. exact I.
      * intros call [ <- | [ <- | [] ] ] Htemplate; [contradiction|].
        do 4 eexists. split; [reflexivity|discriminate].
      * intros _ _ Hopen. exfalso. apply Hopen. now apply Hexc.
    + destruct Hcalls as [Hcalls Hraised]. rewrite Hcalls. split; [split|split].
      * intros Hex.
        inversion Hex as [? ? Hcall|? ? Hrest]; [contradiction|inversion Hrest].
      * intros [_ Hclosed]. apply Hexc in Hclosed. discriminate.
      * intros call [ <- | [] ] Htemplate. contradiction.
      * intros _ _ _. exact Hraised.
  - rewrite Hcalls. split; [split|split].
    + intros Hex.
      inversion Hex as [? ? Hcall|? ? Hrest]; [contradiction|inversion Hrest].
    + intros [_ (code & subcode & Habsurd & _)]. discriminate.
    + intros call [ <- | [] ] Htemplate. contradiction.
    + intros _ [exc Habsurd]. discriminate.
Qed.

Lemma group_message_template_fallback_witness :
  Exists is_template
    (snd (fst (process_group_message settings_of_tests (t0 + hours 1)
                 (RefusesWith window_closed_error) Accepts group_reply
                 world_of_correlations)))
  /\ fst (fst (process_group_message settings_of_tests (t0 + hours 1)
                 (RefusesWith (ErrorObject (Some 100) None)) Accepts group_reply
                 world_of_correlations))
     = Raise HTTPStatusError.
Proof.
  assert (Hforward : forwardable settings_of_tests (t0 + hours 1) group_reply
                       world_of_correlations).
  { split; [reflexivity|]. split; [discriminate|].
    exists correlation_1. vm_compute. reflexivity. }
  split.
  - apply (proj2 (proj1 (group_message_template_fallback settings_of_tests
                           (t0 + hours 1) (RefusesWith window_closed_error) Accepts
                           group_reply world_of_correlations))).
    split; [exact Hforward|].
    exists (Some 131047), (Some 2018041). split; [reflexivity|]. right. left.
    reflexivity.
  - apply (proj2 (proj2 (group_message_template_fallback settings_of_tests
                           (t0 + hours 1) (RefusesWith (ErrorObject (Some 100) None))
                           Accepts group_reply world_of_correlations))).
    + exact Hforward.
    + eexists. reflexivity.
    + intros (code & subcode & Heq & Hcode). injection Heq as <- <-.
      destruct Hcode as [H|[H|[H|H]]]; discriminate.
Defined.
